(** * SnaptixAI: the heuristic transcript analyzer

    A shallow embedding of [backend/speech_analyzer.py] (class
    [SpeechAnalyzer]), of the transcription fallbacks of
    [backend/transcriber.py] and of the handlers of [backend/app.py],
    and the properties their specification states.

    Modelling conventions.
    - A Python [str] is a sequence of code points.  Transcripts are Rocq
      [string]s whose characters stand for the code points U+0000..U+00FF;
      the classification tables below ([isspace], [isword], [lower_char])
      are CPython's tables restricted to that range.
    - Python [int] is [Z].
    - Python [float] is embedded at two levels.  The analyzer as a whole
      is embedded over the exact rationals [Q]: no overflow, no NaN, and
      [round(x, n)] is rounding of the exact value to [n] decimals with
      ties to even.  Ranges, orderings and equalities of two runs are
      stated at this level.  The two functions whose specification fixes
      the very number returned, [_calculate_risk_score] and
      [_calculate_speech_rate], are embedded a second time in module
      [Binary64] over IEEE 754 double precision, with the operations of
      the Standard Library's [SpecFloat]; exact output values are stated
      at that level.
    - A JSON value that the endpoint forwards untouched (the values of the
      [metadata] dict) is a [Json.value]; module [Dynamic] embeds the
      functions that receive such values, [TypeError] included.
    - Exceptions are values of [exn]; a computation that may raise returns
      [result A].  True division raises [ZeroDivisionError] on a zero
      divisor, as in Python, so that totality is a theorem and not an
      artefact of [Qdiv].
    - [dict] is [gmap], [set] is [gset].  What the interpreter and NLTK
      decide (the sentence splitter, the iteration order of a [set], the
      [repr] of a float) is carried by an explicit environment [Env]. *)

From Stdlib Require Import ZArith QArith Qround Qabs Lia Lqa String Ascii List DecimalString.
From Stdlib Require Import SpecFloat.
From stdpp Require Import gmap strings list.

Open Scope Z_scope.

(** ** Exceptions and the result monad *)

Inductive exn : Type :=
  | ValueError (msg : string)
  | ZeroDivisionError
  | KeyError (key : string)
  | TypeError (msg : string)
  | OverflowError (msg : string).

Inductive result (A : Type) : Type :=
  | Ok (a : A)
  | Raise (e : exn).

Arguments Ok {A} a.
Arguments Raise {A} e.

#[global] Instance result_ret : MRet result := fun _ a => Ok a.
#[global] Instance result_bind : MBind result := fun _ _ f c =>
  match c with
  | Ok a => f a
  | Raise e => Raise e
  end.

(** ** Numbers *)

Module PyNum.

(** A dynamically typed number: the values stored in the metric dicts. *)
Inductive num : Type :=
  | VInt (n : Z)
  | VFloat (x : Q).

Definition to_Q (v : num) : Q :=
  match v with
  | VInt n => inject_Z n
  | VFloat x => x
  end.

Definition Qltb (x y : Q) : bool := negb (Qle_bool y x).

(** [max(a, b)]: the first argument unless the second is strictly greater. *)
Definition py_max (a b : Q) : Q := if Qltb a b then b else a.

(** [min(a, b)]: the first argument unless the second is strictly smaller. *)
Definition py_min (a b : Q) : Q := if Qltb b a then b else a.

(** [a / b]: true division. *)
Definition py_div (a b : Q) : result Q :=
  if Qeq_bool b 0 then Raise ZeroDivisionError else Ok (a / b)%Q.

(** Rounding to the nearest integer, ties to the even neighbour. *)
Definition round_half_even (x : Q) : Z :=
  let f := Qfloor x in
  match (x - inject_Z f ?= 1 # 2)%Q with
  | Lt => f
  | Gt => f + 1
  | Eq => if Z.even f then f else f + 1
  end.

(** [round(x, ndigits)] for a float [x] and [ndigits >= 0]; the result is
    a float. *)
Definition py_round (x : Q) (ndigits : nat) : Q :=
  let s := Z.pow 10 (Z.of_nat ndigits) in
  Qmake (round_half_even (x * inject_Z s)) (Z.to_pos s).

(** [int(x)]: truncation towards zero. *)
Definition py_int (x : Q) : Z := Z.quot (Qnum x) (Zpos (Qden x)).

(** Decimal rendering of an [int], as [str(n)] does. *)
Definition str_int (n : Z) : string := NilZero.string_of_int (Z.to_int n).

Fixpoint zero_pad (width : nat) (digits : string) : string :=
  match width with
  | O => digits
  | S w => if Nat.ltb (String.length digits) width
           then String "0" (zero_pad w digits) else digits
  end.

(** [format(x, '.<ndigits>f')]: fixed-point rendering, correctly rounded
    with ties to even, the sign kept even when the magnitude rounds to
    zero. *)
Definition format_f (x : Q) (ndigits : nat) : string :=
  let s := Z.pow 10 (Z.of_nat ndigits) in
  let n := round_half_even (Qabs x * inject_Z s) in
  let sign := if Qltb x 0 then "-"%string else ""%string in
  let ipart := str_int (Z.div n s) in
  let fpart := zero_pad ndigits (str_int (Z.modulo n s)) in
  match ndigits with
  | O => sign +:+ ipart
  | S _ => sign +:+ ipart +:+ "." +:+ fpart
  end.

End PyNum.

(** ** Strings *)

Module PyStr.

Definition code (c : ascii) : N := N_of_ascii c.

Definition between (lo hi n : N) : bool := (N.leb lo n && N.leb n hi)%bool.

(** [str.isspace] on one code point; also the class [\s] of [re]. *)
Definition isspace (c : ascii) : bool :=
  let n := code c in
  (between 9 13 n || between 28 32 n || N.eqb n 133 || N.eqb n 160)%bool.

(** The class [\w] of [re] for [str] patterns: alphanumeric or underscore. *)
Definition isword (c : ascii) : bool :=
  let n := code c in
  (between 48 57 n || between 65 90 n || N.eqb n 95 || between 97 122 n
   || N.eqb n 170 || between 178 179 n || N.eqb n 181 || between 185 186 n
   || between 188 190 n || between 192 214 n || between 216 246 n
   || between 248 255 n)%bool.

Definition lower_char (c : ascii) : ascii :=
  let n := code c in
  if (between 65 90 n || between 192 214 n || between 216 222 n)%bool
  then ascii_of_N (n + 32) else c.

(** [s.lower()] *)
Fixpoint lower (s : string) : string :=
  match s with
  | EmptyString => EmptyString
  | String c s' => String (lower_char c) (lower s')
  end.

Fixpoint lstrip (s : string) : string :=
  match s with
  | EmptyString => EmptyString
  | String c s' => if isspace c then lstrip s' else s
  end.

Fixpoint rstrip (s : string) : string :=
  match s with
  | EmptyString => EmptyString
  | String c s' =>
      match rstrip s' with
      | EmptyString => if isspace c then EmptyString else String c EmptyString
      | r => String c r
      end
  end.

(** [s.strip()] *)
Definition strip (s : string) : string := rstrip (lstrip s).

(** Truthiness of a [str]: non-empty. *)
Definition truthy (s : string) : bool :=
  match s with EmptyString => false | String _ _ => true end.

Fixpoint starts_with (sub s : string) : bool :=
  match sub, s with
  | EmptyString, _ => true
  | String _ _, EmptyString => false
  | String a sub', String b s' => (Ascii.eqb a b && starts_with sub' s')%bool
  end.

(** The scan of [s.count(sub)] for a non-empty [sub]: [skip] is the number
    of characters still covered by the last occurrence found. *)
Fixpoint count_from (sub : string) (skip : nat) (s : string) : nat :=
  match s with
  | EmptyString => O
  | String _ s' =>
      match skip with
      | S k => count_from sub k s'
      | O => if starts_with sub s
             then S (count_from sub (Nat.pred (String.length sub)) s')
             else count_from sub O s'
      end
  end.

(** [s.count(sub)]: the number of non-overlapping occurrences. *)
Definition count (s sub : string) : nat :=
  match sub with
  | EmptyString => S (String.length s)
  | String _ _ => count_from sub O s
  end.

Definition snoc (s : string) (c : ascii) : string := s +:+ String c EmptyString.

(** The maximal runs of characters satisfying [p], left to right; [cur] is
    the run being read. *)
Fixpoint runs (p : ascii -> bool) (cur : string) (s : string) : list string :=
  match s with
  | EmptyString => if truthy cur then [cur] else []
  | String c s' =>
      if p c then runs p (snoc cur c) s'
      else if truthy cur then cur :: runs p EmptyString s'
      else runs p EmptyString s'
  end.

(** [re.findall(r'\b\w+\b', s)] *)
Definition findall_words (s : string) : list string := runs isword EmptyString s.

(** [s.split()] *)
Definition split (s : string) : list string :=
  runs (fun c => negb (isspace c)) EmptyString s.

(** [re.sub(r'\s+', ' ', s)]; [in_ws] tells that the previous character
    was whitespace. *)
Fixpoint sub_ws (in_ws : bool) (s : string) : string :=
  match s with
  | EmptyString => EmptyString
  | String c s' =>
      if isspace c
      then if in_ws then sub_ws true s' else String " " (sub_ws true s')
      else String c (sub_ws false s')
  end.

Definition is_terminator (c : ascii) : bool :=
  (Ascii.eqb c "." || Ascii.eqb c "!" || Ascii.eqb c "?")%bool.

(** [re.split(r'[.!?]+', s)]: the pieces between maximal runs of
    terminators, empty pieces at either end included. *)
Fixpoint split_terminators (in_sep : bool) (cur : string) (s : string) : list string :=
  match s with
  | EmptyString => [cur]
  | String c s' =>
      if is_terminator c
      then if in_sep then split_terminators true EmptyString s'
           else cur :: split_terminators true EmptyString s'
      else split_terminators false (snoc cur c) s'
  end.

(** [sep.join(parts)] *)
Fixpoint join (sep : string) (parts : list string) : string :=
  match parts with
  | [] => EmptyString
  | [p] => p
  | p :: rest => p +:+ sep +:+ join sep rest
  end.

End PyStr.

Import PyNum PyStr.

(** ** JSON values *)

Module Json.

(** A decoded JSON value, as [json.loads] returns it; [N] is the type of
    its numbers. *)
#[warnings="-register-all"]
Inductive value (N : Type) : Type :=
  | Null
  | Boolean (b : bool)
  | Number (n : N)
  | Text (s : string)
  | Array (items : list (value N))
  | Object (fields : list (string * value N)).

Arguments Null {N}.
Arguments Boolean {N} b.
Arguments Number {N} n.
Arguments Text {N} s.
Arguments Array {N} items.
Arguments Object {N} fields.

(** [type(v).__name__] *)
Definition type_name {N} (number_name : N -> string) (v : value N) : string :=
  match v with
  | Null => "NoneType"
  | Boolean _ => "bool"
  | Number n => number_name n
  | Text _ => "str"
  | Array _ => "list"
  | Object _ => "dict"
  end.

(** The values that Python's arithmetic and ordering accept: the numbers
    and, [bool] being a subclass of [int], the booleans. *)
Definition is_number {N} (v : value N) : bool :=
  match v with
  | Number _ | Boolean _ => true
  | _ => false
  end.

(** The message of the [TypeError] that [v <= 0] raises. *)
Definition not_ordered {N} (number_name : N -> string) (v : value N) : string :=
  "'<=' not supported between instances of '" +:+ type_name number_name v
  +:+ "' and 'int'".

(** The message of the [TypeError] that [n / v] raises for an [int] [n]. *)
Definition not_divisible {N} (number_name : N -> string) (v : value N) : string :=
  "unsupported operand type(s) for /: 'int' and '" +:+ type_name number_name v
  +:+ "'".

End Json.

(** ** The analyzer *)

(** What the run-time environment decides: [nltk.sent_tokenize] ([None]
    when it raises, for instance when the punkt resource is missing), the
    order in which a [set] is iterated, and [repr] of a float. *)
Record Env : Type := {
  sent_tokenize : string -> option (list string);
  set_order : gset string -> list string;
  float_repr : Q -> string
}.

(** A [set] is iterated over its elements, each once, in some order. *)
Definition env_ok (env : Env) : Prop :=
  forall s : gset string, set_order env s ≡ₚ elements s.

(** The instance attributes set by [SpeechAnalyzer.__init__]. *)
Record SpeechAnalyzer : Type := {
  filler_words : gset string;
  word_finding_indicators : gset string;
  semantic_categories : list (string * gset string)
}.

Definition __init__ : SpeechAnalyzer := {|
  filler_words := list_to_set
    ["um"; "uh"; "er"; "ah"; "well"; "you know"; "like"; "so";
     "basically"; "actually"; "i mean"; "sort of"; "kind of"];
  word_finding_indicators := list_to_set
    ["thing"; "stuff"; "what do you call it"; "whatchamacallit";
     "thingy"; "whatsit"; "that thing"; "you know what i mean"];
  semantic_categories :=
    [("animals", list_to_set
        ["dog"; "cat"; "bird"; "fish"; "horse"; "cow"; "pig"; "sheep";
         "chicken"; "duck"; "rabbit"; "mouse"; "elephant"; "lion"; "tiger"]);
     ("fruits", list_to_set
        ["apple"; "banana"; "orange"; "grape"; "strawberry"; "peach";
         "pear"; "cherry"; "plum"; "watermelon"; "pineapple"; "mango"])]
|}.

(** The dict returned by [analyze] has fixed keys: a record. *)
Record Metrics : Type := {
  speechRate : Q;
  pauseCount : Z;
  vocabularyRichness : Q;
  fluencyScore : Q
}.

Record Analysis : Type := {
  riskScore : Z;
  explanation : string;
  metrics : Metrics
}.

(** [len(xs)] as an [int]. *)
Definition len {A} (xs : list A) : Z := Z.of_nat (length xs).

(** [d[key]] *)
Definition getitem (d : gmap string num) (key : string) : result num :=
  match d !! key with
  | Some v => Ok v
  | None => Raise (KeyError key)
  end.

(** [key in d] *)
Definition contains (d : gmap string num) (key : string) : bool :=
  bool_decide (is_Some (d !! key)).

Definition _clean_text (text : string) : string :=
  let text := lower text in
  let text := sub_ws false text in
  strip text.

Definition _tokenize_words (text : string) : list string :=
  let words := findall_words text in
  filter (fun word => (1 < String.length word)%nat) words.

Definition _tokenize_sentences (env : Env) (text : string) : list string :=
  match sent_tokenize env text with
  | Some sentences =>
      filter (fun s => (0 < String.length (strip s))%nat) sentences
  | None =>
      let sentences := split_terminators false EmptyString text in
      strip <$> filter (fun s => truthy (strip s) = true) sentences
  end.

(** The speech rate in exact arithmetic, on metadata whose values are
    numbers.  [Dynamic._calculate_speech_rate] below takes metadata of any
    JSON type; [Binary64._calculate_speech_rate] computes in double
    precision. *)
Definition _calculate_speech_rate (words : list string)
    (metadata : option (gmap string num)) : result Q :=
  let estimate := Ok (py_max 60 (py_min 200 (inject_Z (len words) * 2))) in
  match metadata with
  | None => estimate
  | Some md =>
      if Nat.eqb (size md) 0 then estimate else
      match md !! "duration" with
      | None => estimate
      | Some d =>
          let duration := if Qle_bool (to_Q d) 0 then 30%Q else to_Q d in
          q ← py_div (inject_Z (len words)) duration;
          let words_per_minute := (q * 60)%Q in
          Ok (py_round words_per_minute 1)
      end
  end.

Definition pause_indicators : list string := ["..."; ".."; "um"; "uh"; "er"; "ah"].

Definition _estimate_pause_count (transcript : string) : Z :=
  let pause_count :=
    foldl (fun acc indicator => acc + Z.of_nat (count (lower transcript) indicator))
          0 pause_indicators in
  let pause_count := pause_count + Z.of_nat (count transcript ",") in
  let pause_count := pause_count + Z.of_nat (count transcript ";") * 2 in
  Z.min pause_count 20.

Definition _calculate_vocabulary_richness (words : list string) : result Q :=
  match words with
  | [] => Ok 0%Q
  | _ =>
      let unique_words : gset string := list_to_set words in
      ttr ← py_div (inject_Z (Z.of_nat (size unique_words))) (inject_Z (len words));
      Ok (py_round ttr 3)
  end.

(** [Counter(words)] *)
Definition Counter (words : list string) : gmap string Z :=
  foldl (fun c w => <[w := default 0 (c !! w) + 1]> c) ∅ words.

Definition _analyze_repetitions (words : list string) : result Q :=
  match words with
  | [] => Ok 0%Q
  | _ =>
      let word_counts := Counter words in
      let repetitions :=
        foldr Z.add 0
          ((fun count => count - 1) <$>
             filter (fun count => 2 < count) (snd <$> map_to_list word_counts)) in
      py_div (inject_Z repetitions) (inject_Z (Z.max (len words) 1))
  end.

Definition _analyze_word_finding (self : SpeechAnalyzer) (env : Env)
    (transcript : string) (words : list string) : result Q :=
  let difficulty_score :=
    foldl (fun acc indicator =>
             (acc + inject_Z (Z.of_nat (count (lower transcript) indicator)))%Q)
          0%Q (set_order env (word_finding_indicators self)) in
  let difficulty_score :=
    (difficulty_score + inject_Z (Z.of_nat (count transcript "...")))%Q in
  q ← py_div difficulty_score (inject_Z (Z.max (len words) 1));
  Ok (py_min q 1).

Definition _calculate_fluency_score (self : SpeechAnalyzer) (env : Env)
    (transcript : string) (words : list string) : result Q :=
  let score := 10%Q in
  let filler_count :=
    len (filter (fun word => word ∈ filler_words self) words) in
  filler_ratio ← py_div (inject_Z filler_count) (inject_Z (Z.max (len words) 1));
  let score := (score - filler_ratio * 30)%Q in
  repetition_penalty ← _analyze_repetitions words;
  let score := (score - repetition_penalty * 2)%Q in
  word_finding_penalty ← _analyze_word_finding self env transcript words;
  let score := (score - word_finding_penalty * 3)%Q in
  Ok (py_max 0 (py_min 10 (py_round score 1))).

Definition _analyze_semantic_fluency (self : SpeechAnalyzer)
    (words : list string) : result Q :=
  let category_words : gset string :=
    foldl (fun acc '(category, word_set) =>
             acc ∪ list_to_set (filter (fun word => word ∈ (word_set : gset string)) words))
          ∅ (semantic_categories self) in
  py_div (inject_Z (Z.of_nat (size category_words))) (inject_Z (Z.max (len words) 1)).

Definition _analyze_syntactic_complexity (sentences : list string) : result Q :=
  match sentences with
  | [] => Ok 0%Q
  | _ =>
      total_complexity ←
        foldl (fun acc sentence =>
                 total ← acc;
                 let words_in_sentence := len (split sentence) in
                 q ← py_div (inject_Z words_in_sentence) 15;
                 let complexity := py_min q 1 in
                 Ok (total + complexity)%Q)
              (Ok 0%Q) sentences;
      py_div total_complexity (inject_Z (len sentences))
  end.

(** The aggregator in exact arithmetic;
    [Binary64._calculate_risk_score] computes in double precision. *)
Definition _calculate_risk_score (metrics : gmap string num) : result Q :=
  let risk_score := 0%Q in
  speech_rate ← getitem metrics "speech_rate";
  let risk_score :=
    if Qltb (to_Q speech_rate) 80 then (risk_score + 25)%Q
    else if Qltb (to_Q speech_rate) 100 then (risk_score + 15)%Q
    else if Qltb 200 (to_Q speech_rate) then (risk_score + 10)%Q
    else risk_score in
  pause_count ← getitem metrics "pause_count";
  let risk_score :=
    if Qltb 15 (to_Q pause_count) then (risk_score + 20)%Q
    else if Qltb 10 (to_Q pause_count) then (risk_score + 10)%Q
    else if Qltb 5 (to_Q pause_count) then (risk_score + 5)%Q
    else risk_score in
  vocab_richness ← getitem metrics "vocabulary_richness";
  let risk_score :=
    if Qltb (to_Q vocab_richness) (3 # 10) then (risk_score + 25)%Q
    else if Qltb (to_Q vocab_richness) (4 # 10) then (risk_score + 15)%Q
    else if Qltb (to_Q vocab_richness) (5 # 10) then (risk_score + 5)%Q
    else risk_score in
  fluency ← getitem metrics "fluency_score";
  let risk_score :=
    if Qltb (to_Q fluency) 3 then (risk_score + 25)%Q
    else if Qltb (to_Q fluency) 5 then (risk_score + 15)%Q
    else if Qltb (to_Q fluency) 7 then (risk_score + 5)%Q
    else risk_score in
  risk_score ←
    (if contains metrics "word_finding_difficulty"
     then v ← getitem metrics "word_finding_difficulty";
          Ok (risk_score + to_Q v * 20)%Q
     else Ok risk_score);
  risk_score ←
    (if contains metrics "repetition_score"
     then v ← getitem metrics "repetition_score";
          Ok (risk_score + to_Q v * 15)%Q
     else Ok risk_score);
  Ok (py_min 100 (py_max 0 (py_round risk_score 0))).

(** [str(v)], the rendering of [{v}] in an f-string. *)
Definition str_num (env : Env) (v : num) : string :=
  match v with
  | VInt n => str_int n
  | VFloat x => float_repr env x
  end.

Definition tier_normal : string :=
  "Speech patterns appear normal with good fluency and vocabulary use.".
Definition tier_mild : string :=
  "Some speech patterns may warrant attention, showing mild concerns in certain areas.".
Definition tier_significant : string :=
  "Several speech patterns suggest potential cognitive changes that may benefit from professional evaluation.".
Definition all_normal : string :=
  "All speech metrics appear within normal ranges for this sample.".

Definition _generate_explanation (env : Env) (risk_score : Q)
    (metrics : gmap string num) : result string :=
  let explanations : list string := [] in
  let explanations :=
    if Qltb risk_score 30 then explanations ++ [tier_normal]
    else if Qltb risk_score 70 then explanations ++ [tier_mild]
    else explanations ++ [tier_significant] in
  speech_rate ← getitem metrics "speech_rate";
  let explanations :=
    if Qltb (to_Q speech_rate) 80 then
      explanations ++
        ["Speech rate is notably slow at " +:+ format_f (to_Q speech_rate) 1
         +:+ " words/minute (typical range: 120-180)."]
    else if Qltb 200 (to_Q speech_rate) then
      explanations ++
        ["Speech rate is quite fast at " +:+ format_f (to_Q speech_rate) 1
         +:+ " words/minute, which may indicate anxiety or other factors."]
    else explanations in
  pause_count ← getitem metrics "pause_count";
  let explanations :=
    if Qltb 10 (to_Q pause_count) then
      explanations ++
        ["Frequent pauses detected (" +:+ str_num env pause_count
         +:+ " instances), which may indicate word-finding difficulties."]
    else explanations in
  vocab_richness ← getitem metrics "vocabulary_richness";
  let explanations :=
    if Qltb (to_Q vocab_richness) (4 # 10) then
      explanations ++
        ["Vocabulary diversity is lower than expected ("
         +:+ format_f (to_Q vocab_richness * 100) 0 +:+ "% unique words)."]
    else explanations in
  fluency ← getitem metrics "fluency_score";
  let explanations :=
    if Qltb (to_Q fluency) 5 then
      explanations ++
        ["Fluency score is concerning (" +:+ format_f (to_Q fluency) 1
         +:+ "/10), with evidence of hesitations or word-finding issues."]
    else explanations in
  let explanations :=
    match explanations with
    | [] => explanations ++ [all_normal]
    | _ :: _ => explanations
    end in
  Ok (join " " explanations).

(** The dict of the eight metrics that [analyze] hands to the aggregator. *)
Definition risk_metrics (speech_rate : Q) (pause_count : Z)
    (vocabulary_richness fluency_score semantic_fluency syntactic_complexity
     repetition_score word_finding_difficulty : Q) : gmap string num :=
  <["speech_rate" := VFloat speech_rate]>
  (<["pause_count" := VInt pause_count]>
  (<["vocabulary_richness" := VFloat vocabulary_richness]>
  (<["fluency_score" := VFloat fluency_score]>
  (<["semantic_fluency" := VFloat semantic_fluency]>
  (<["syntactic_complexity" := VFloat syntactic_complexity]>
  (<["repetition_score" := VFloat repetition_score]>
  (<["word_finding_difficulty" := VFloat word_finding_difficulty]> ∅))))))).

(** The dict of the four metrics that [analyze] hands to the explanation
    generator. *)
Definition explained_metrics (speech_rate : Q) (pause_count : Z)
    (vocabulary_richness fluency_score : Q) : gmap string num :=
  <["speech_rate" := VFloat speech_rate]>
  (<["pause_count" := VInt pause_count]>
  (<["vocabulary_richness" := VFloat vocabulary_richness]>
  (<["fluency_score" := VFloat fluency_score]> ∅))).

(** [analyze] on metadata whose values are numbers; [Dynamic.analyze]
    below takes metadata of any JSON type. *)
Definition analyze (self : SpeechAnalyzer) (env : Env) (transcript : string)
    (metadata : option (gmap string num)) : result Analysis :=
  if (negb (truthy transcript) || negb (truthy (strip transcript)))%bool
  then Raise (ValueError "Transcript cannot be empty") else
  let cleaned_text := _clean_text transcript in
  let words := _tokenize_words cleaned_text in
  let sentences := _tokenize_sentences env cleaned_text in
  speech_rate ← _calculate_speech_rate words metadata;
  let pause_count := _estimate_pause_count transcript in
  vocabulary_richness ← _calculate_vocabulary_richness words;
  fluency_score ← _calculate_fluency_score self env transcript words;
  semantic_fluency ← _analyze_semantic_fluency self words;
  syntactic_complexity ← _analyze_syntactic_complexity sentences;
  repetition_score ← _analyze_repetitions words;
  word_finding_difficulty ← _analyze_word_finding self env transcript words;
  risk_score ← _calculate_risk_score
    (risk_metrics speech_rate pause_count vocabulary_richness fluency_score
       semantic_fluency syntactic_complexity repetition_score
       word_finding_difficulty);
  explanation ← _generate_explanation env risk_score
    (explained_metrics speech_rate pause_count vocabulary_richness fluency_score);
  Ok {| riskScore := py_int risk_score;
        explanation := explanation;
        metrics := {| speechRate := speech_rate;
                      pauseCount := pause_count;
                      vocabularyRichness := vocabulary_richness;
                      fluencyScore := fluency_score |} |}.

(** Environments used in the examples: NLTK available or not. *)
Definition env_fallback : Env := {|
  sent_tokenize := fun _ => None;
  set_order := elements;
  float_repr := fun x => format_f x 1
|}.

Definition env_lines : Env := {|
  sent_tokenize := fun text => Some [text];
  set_order := fun s => rev (elements s);
  float_repr := fun x => format_f x 1
|}.

(** ** The analyzer on metadata as the endpoint forwards it

    [analyze] declares [metadata: Dict[str, Any]] and the endpoint passes
    the decoded JSON object on unchecked: the value under ['duration'] may
    be any JSON value.  The functions that touch it are embedded here on
    such values; the arithmetic is that of the embedding above. *)

Module Dynamic.

Import Json.

Definition number_name (n : num) : string :=
  match n with
  | VInt _ => "int"
  | VFloat _ => "float"
  end.

(** The number that a value stands for in arithmetic, if any. *)
Definition as_number (v : value num) : option num :=
  match v with
  | Number n => Some n
  | Boolean b => Some (VInt (if b then 1 else 0))
  | _ => None
  end.

(** [v <= 0] *)
Definition le_zero (v : value num) : result bool :=
  match as_number v with
  | Some n => Ok (Qle_bool (to_Q n) 0)
  | None => Raise (TypeError (not_ordered number_name v))
  end.

(** [n / v] for an [int] [n] *)
Definition true_div (n : Z) (v : value num) : result Q :=
  match as_number v with
  | Some d => py_div (inject_Z n) (to_Q d)
  | None => Raise (TypeError (not_divisible number_name v))
  end.

Definition _calculate_speech_rate (words : list string)
    (metadata : option (gmap string (value num))) : result Q :=
  let estimate := Ok (py_max 60 (py_min 200 (inject_Z (len words) * 2))) in
  match metadata with
  | None => estimate
  | Some md =>
      if Nat.eqb (size md) 0 then estimate else
      match md !! "duration" with
      | None => estimate
      | Some duration =>
          nonpositive ← le_zero duration;
          let duration := if (nonpositive : bool) then Number (VFloat 30) else duration in
          q ← true_div (len words) duration;
          let words_per_minute := (q * 60)%Q in
          Ok (py_round words_per_minute 1)
      end
  end.

Definition analyze (self : SpeechAnalyzer) (env : Env) (transcript : string)
    (metadata : option (gmap string (value num))) : result Analysis :=
  if (negb (truthy transcript) || negb (truthy (strip transcript)))%bool
  then Raise (ValueError "Transcript cannot be empty") else
  let cleaned_text := _clean_text transcript in
  let words := _tokenize_words cleaned_text in
  let sentences := _tokenize_sentences env cleaned_text in
  speech_rate ← _calculate_speech_rate words metadata;
  let pause_count := _estimate_pause_count transcript in
  vocabulary_richness ← _calculate_vocabulary_richness words;
  fluency_score ← _calculate_fluency_score self env transcript words;
  semantic_fluency ← _analyze_semantic_fluency self words;
  syntactic_complexity ← _analyze_syntactic_complexity sentences;
  repetition_score ← _analyze_repetitions words;
  word_finding_difficulty ← _analyze_word_finding self env transcript words;
  risk_score ← _calculate_risk_score
    (risk_metrics speech_rate pause_count vocabulary_richness fluency_score
       semantic_fluency syntactic_complexity repetition_score
       word_finding_difficulty);
  explanation ← _generate_explanation env risk_score
    (explained_metrics speech_rate pause_count vocabulary_richness fluency_score);
  Ok {| riskScore := py_int risk_score;
        explanation := explanation;
        metrics := {| speechRate := speech_rate;
                      pauseCount := pause_count;
                      vocabularyRichness := vocabulary_richness;
                      fluencyScore := fluency_score |} |}.

(** The value that the metadata holds under ['duration'], if any. *)
Definition supplied_duration (metadata : option (gmap string (value num)))
    : option (value num) :=
  md ← metadata; md !! "duration".

(** The metadata holds no duration, or a number. *)
Definition numeric_duration (metadata : option (gmap string (value num))) : bool :=
  match supplied_duration metadata with
  | Some v => is_number v
  | None => true
  end.

(** The metadata with its duration as a number: what the typed embedding
    of [analyze] receives when the duration is one. *)
Definition typed (metadata : option (gmap string (value num)))
    : option (gmap string num) :=
  match metadata with
  | Some md => Some (omap as_number md)
  | None => None
  end.

End Dynamic.

(** ** Reference definitions, following the specification's wording *)

Module Reference.

(** The feature vector: the eight named metrics, each a real number. *)
Record FeatureVector : Type := {
  speech_rate : Q;
  pause_count : Q;
  vocabulary_richness : Q;
  fluency_score : Q;
  semantic_fluency : Q;
  syntactic_complexity : Q;
  repetition_score : Q;
  word_finding_difficulty : Q
}.

(** The dict [m] maps [name] to a number of value [q]. *)
Definition holds (m : gmap string num) (name : string) (q : Q) : Prop :=
  to_Q <$> (m !! name) = Some q.

(** A dict of numbers holds the feature vector [f]. *)
Definition represents (m : gmap string num) (f : FeatureVector) : Prop :=
  holds m "speech_rate" (speech_rate f)
  /\ holds m "pause_count" (pause_count f)
  /\ holds m "vocabulary_richness" (vocabulary_richness f)
  /\ holds m "fluency_score" (fluency_score f)
  /\ holds m "semantic_fluency" (semantic_fluency f)
  /\ holds m "syntactic_complexity" (syntactic_complexity f)
  /\ holds m "repetition_score" (repetition_score f)
  /\ holds m "word_finding_difficulty" (word_finding_difficulty f).

(** The feature vector with another pause count. *)
Definition with_pause_count (f : FeatureVector) (p : Q) : FeatureVector :=
  {| speech_rate := speech_rate f;
     pause_count := p;
     vocabulary_richness := vocabulary_richness f;
     fluency_score := fluency_score f;
     semantic_fluency := semantic_fluency f;
     syntactic_complexity := syntactic_complexity f;
     repetition_score := repetition_score f;
     word_finding_difficulty := word_finding_difficulty f |}.

(** A band: the set of values it covers and the points it adds. *)
Definition band : Type := (Q -> bool) * Q.

Definition below (hi : Q) : Q -> bool := fun v => Qltb v hi.
Definition above (lo : Q) : Q -> bool := fun v => Qltb lo v.
Definition closed_open (lo hi : Q) : Q -> bool :=
  fun v => (Qle_bool lo v && Qltb v hi)%bool.
Definition open_closed (lo hi : Q) : Q -> bool :=
  fun v => (Qltb lo v && Qle_bool v hi)%bool.

Definition speech_rate_bands : list band :=
  [(below 80, 25%Q); (closed_open 80 100, 15%Q); (above 200, 10%Q)].
Definition pause_count_bands : list band :=
  [(above 15, 20%Q); (open_closed 10 15, 10%Q); (open_closed 5 10, 5%Q)].
Definition vocabulary_richness_bands : list band :=
  [(below (3 # 10), 25%Q); (closed_open (3 # 10) (4 # 10), 15%Q);
   (closed_open (4 # 10) (5 # 10), 5%Q)].
Definition fluency_score_bands : list band :=
  [(below 3, 25%Q); (closed_open 3 5, 15%Q); (closed_open 5 7, 5%Q)].

(** The bands of a table that cover [v]. *)
Definition matching (bands : list band) (v : Q) : list band :=
  List.filter (fun b => fst b v) bands.

(** The points added for [v]: those of the matching band, 0 without one. *)
Definition points (bands : list band) (v : Q) : Q :=
  foldr (fun b acc => (snd b + acc)%Q) 0%Q (matching bands v).

Definition clamp (lo hi x : Q) : Q :=
  if Qltb x lo then lo else if Qltb hi x then hi else x.

Definition total (f : FeatureVector) : Q :=
  (0 + points speech_rate_bands (speech_rate f)
     + points pause_count_bands (pause_count f)
     + points vocabulary_richness_bands (vocabulary_richness f)
     + points fluency_score_bands (fluency_score f)
     + word_finding_difficulty f * 20
     + repetition_score f * 15)%Q.

(** [aggregate(features)]: clamp to [0,100], then round to the nearest
    integer. *)
Definition aggregate (f : FeatureVector) : Q :=
  py_round (clamp 0 100 (total f)) 0.

(** The duration that the metadata supplies, if any. *)
Definition supplied_duration (metadata : option (gmap string num)) : option Q :=
  md ← metadata; to_Q <$> (md !! "duration").

(** The estimation fallback of the speech rate. *)
Definition estimated_rate (word_count : Z) : Q :=
  clamp 60 200 (inject_Z word_count * 2).

(** The speech rate for a supplied duration. *)
Definition measured_rate (word_count : Z) (duration : Q) : Q :=
  py_round (inject_Z word_count / duration * 60) 1.

(** The speech-rate rule as the specification words it: the measured rate
    for a positive duration, the estimate in every other case. *)
Definition speech_rate_rule (word_count : Z)
    (metadata : option (gmap string num)) : Q :=
  match supplied_duration metadata with
  | Some d => if Qltb 0 d then measured_rate word_count d
              else estimated_rate word_count
  | None => estimated_rate word_count
  end.

(** A filler is a phrase when it holds more than one word. *)
Definition is_phrase (filler : string) : bool :=
  Nat.ltb 1 (length (split filler)).

(** The filler count as the specification words it: single-token fillers
    are matched against the tokens, phrases are matched as substrings of
    the raw transcript. *)
Definition filler_word_count (fillers : gset string) (transcript : string)
    (words : list string) : Z :=
  foldr Z.add 0
    ((fun filler =>
        if is_phrase filler then Z.of_nat (count transcript filler)
        else len (List.filter (String.eqb filler) words))
     <$> elements fillers).

(** The fluency formula, from the filler count, the repetition score and
    the word-finding difficulty. *)
Definition fluency (filler_count word_count : Z) (repetition wfd : Q) : Q :=
  py_round
    (clamp 0 10
       (10 - 30 * (inject_Z filler_count / inject_Z (Z.max word_count 1))
           - 2 * repetition - 3 * wfd)) 1.

(** The overall-tier sentence of a risk score. *)
Definition tier_sentence (risk_score : Q) : string :=
  if Qltb risk_score 30 then tier_normal
  else if Qltb risk_score 70 then tier_mild
  else tier_significant.

(** No conditional sentence is triggered by the metrics. *)
Definition no_trigger (speech_rate pause_count vocabulary_richness fluency_score : Q)
    : Prop :=
  (80 <= speech_rate <= 200 /\ pause_count <= 10
   /\ 4 # 10 <= vocabulary_richness /\ 5 <= fluency_score)%Q.

End Reference.

(** ** Double precision

    The values of Python's [float] are the IEEE 754 binary64 numbers:
    [SpecFloat]'s [spec_float] at precision 53 and exponent bound 1024.
    Addition, multiplication and division are [SpecFloat]'s, rounding to
    nearest with ties to even.  Ordering and [round] are defined below on
    the exact value of a double. *)

Module Binary64.

Import Json.

Definition prec : Z := 53.
Definition emax : Z := 1024.

Definition float : Type := spec_float.

Definition add : float -> float -> float := SFadd prec emax.
Definition mul : float -> float -> float := SFmul prec emax.
Definition div : float -> float -> float := SFdiv prec emax.

(** [float(z)]: the double nearest to the integer [z], ties to even; it
    also denotes the literals [25], [100.0] and the like.  Python raises
    [OverflowError] where this is an infinity (see [float_of_int]); the
    length of a list, below 2^63, is converted by [of_Z] directly. *)
Definition of_Z (z : Z) : float := binary_normalize prec emax z 0 false.

(** The integer [z] as an exact operand of a division or a comparison:
    mantissa [|z|] and exponent 0, whatever the size of [z] (not in
    normal form). *)
Definition exact (z : Z) : float :=
  match z with
  | Z0 => S754_zero false
  | Zpos p => S754_finite false p 0
  | Zneg p => S754_finite true p 0
  end.

(** The double nearest to the quotient of two integers, the second one
    not zero: Python's [a / b] on two [int]s, and the value of a decimal
    literal. *)
Definition nearest (a b : Z) : float := div (exact a) (exact b).

(** The double that a decimal literal denotes: [decimal 307 1] is
    [30.7]. *)
Definition decimal (digits : Z) (places : nat) : float :=
  nearest digits (10 ^ Z.of_nat places).

(** The exact value of a finite double (0 for the others). *)
Definition to_Q (x : float) : Q :=
  match x with
  | S754_finite s m e =>
      let n := cond_Zopp s (Zpos m) in
      if 0 <=? e then inject_Z (n * 2 ^ e) else n # Z.to_pos (2 ^ (- e))
  | _ => 0%Q
  end.

Definition is_nan (x : float) : bool :=
  match x with
  | S754_nan => true
  | _ => false
  end.

Definition is_zero (x : float) : bool :=
  match x with
  | S754_zero _ => true
  | _ => false
  end.

(** Zero or finite: a double that stands for a real number. *)
Definition is_real (x : float) : bool :=
  match x with
  | S754_zero _ | S754_finite _ _ _ => true
  | _ => false
  end.

(** Ordering: none with a NaN, the infinities at the ends, the order of
    the exact values in between (so that [-0.0] equals [0.0]).  Python
    compares an [int] with a [float] by exact value too.  On doubles in
    normal form this is [SpecFloat]'s [SFcompare] (lemma [compare_valid]
    below); unlike it, the definition does not depend on the form of the
    mantissa. *)
Definition compare (x y : float) : option comparison :=
  match x, y with
  | S754_nan, _ | _, S754_nan => None
  | S754_infinity sx, S754_infinity sy =>
      Some (if sx then if sy then Eq else Lt else if sy then Gt else Eq)
  | S754_infinity sx, _ => Some (if sx then Lt else Gt)
  | _, S754_infinity sy => Some (if sy then Gt else Lt)
  | _, _ => Some (to_Q x ?= to_Q y)%Q
  end.

(** [x < y] *)
Definition ltb (x y : float) : bool :=
  match compare x y with
  | Some Lt => true
  | _ => false
  end.

(** [x <= y] *)
Definition leb (x y : float) : bool :=
  match compare x y with
  | Some (Lt | Eq) => true
  | _ => false
  end.

(** [max(a, b)]: the first argument unless the second is strictly greater. *)
Definition py_max (a b : float) : float := if ltb a b then b else a.

(** [min(a, b)]: the first argument unless the second is strictly smaller. *)
Definition py_min (a b : float) : float := if ltb b a then b else a.

(** The double of the integer [p] or [-p], in normal form when [p] has at
    most 53 bits (as every integer that [round] produces from a double
    has).  For such integers this is the conversion [of_Z] and the
    quotient [nearest z 1] (lemmas [integer_of_Z] and [integer_nearest]
    below). *)
Definition normal (s : bool) (p : positive) : float :=
  let d := Zpos (digits2_pos p) in
  if d <=? prec
  then S754_finite s (Z.to_pos (Zpos p * 2 ^ (prec - d))) (d - prec)
  else S754_finite s p 0.

Definition integer (z : Z) : float :=
  match z with
  | Z0 => S754_zero false
  | Zpos p => normal false p
  | Zneg p => normal true p
  end.

(** [round(x, ndigits)] for a float [x] and [ndigits >= 0].  CPython
    rounds the exact value of [x] to [ndigits] decimals, ties to even,
    and converts the decimal back: the result is the double nearest to
    [z / 10^ndigits] for the integer [z] nearest to [x * 10^ndigits].  A
    double with a non-negative exponent is an integer and is returned as
    it is; so are the infinities, NaN and the zeros; a value that rounds
    to zero keeps its sign. *)
Definition py_round (x : float) (ndigits : nat) : float :=
  match x with
  | S754_finite s m e =>
      if 0 <=? e then x else
      let scale := 10 ^ Z.of_nat ndigits in
      match round_half_even (to_Q x * inject_Z scale) with
      | Z0 => S754_zero s
      | z =>
          match ndigits with
          | O => integer z
          | S _ => nearest z scale
          end
      end
  | _ => x
  end.

(** A Python number: the values stored in the metric dicts. *)
Inductive number : Type :=
  | Int (n : Z)
  | Float (x : float).

Definition number_name (v : number) : string :=
  match v with
  | Int _ => "int"
  | Float _ => "float"
  end.

(** A number as an operand of a comparison: an [int] is compared with a
    [float] by its exact value. *)
Definition operand (v : number) : float :=
  match v with
  | Int n => exact n
  | Float x => x
  end.

(** [a < b] *)
Definition lt (a b : number) : bool := ltb (operand a) (operand b).

(** [a <= b] *)
Definition le (a b : number) : bool := leb (operand a) (operand b).

(** The conversion of an [int] operand of a float operation. *)
Definition float_of_int (n : Z) : result float :=
  match of_Z n with
  | S754_infinity _ => Raise (OverflowError "int too large to convert to float")
  | x => Ok x
  end.

(** [v * k] for an [int] literal [k] *)
Definition times (v : number) (k : Z) : number :=
  match v with
  | Int n => Int (n * k)
  | Float x => Float (mul x (of_Z k))
  end.

(** [x + v] for a float [x] *)
Definition plus (x : float) (v : number) : result float :=
  match v with
  | Int n => y ← float_of_int n; Ok (add x y)
  | Float y => Ok (add x y)
  end.

(** [d[key]] *)
Definition getitem (d : gmap string number) (key : string) : result number :=
  match d !! key with
  | Some v => Ok v
  | None => Raise (KeyError key)
  end.

(** [key in d] *)
Definition contains (d : gmap string number) (key : string) : bool :=
  bool_decide (is_Some (d !! key)).

Definition _calculate_risk_score (metrics : gmap string number) : result float :=
  let risk_score := S754_zero false in
  speech_rate ← getitem metrics "speech_rate";
  let risk_score :=
    if lt speech_rate (Int 80) then add risk_score (of_Z 25)
    else if lt speech_rate (Int 100) then add risk_score (of_Z 15)
    else if lt (Int 200) speech_rate then add risk_score (of_Z 10)
    else risk_score in
  pause_count ← getitem metrics "pause_count";
  let risk_score :=
    if lt (Int 15) pause_count then add risk_score (of_Z 20)
    else if lt (Int 10) pause_count then add risk_score (of_Z 10)
    else if lt (Int 5) pause_count then add risk_score (of_Z 5)
    else risk_score in
  vocab_richness ← getitem metrics "vocabulary_richness";
  let risk_score :=
    if lt vocab_richness (Float (decimal 3 1)) then add risk_score (of_Z 25)
    else if lt vocab_richness (Float (decimal 4 1)) then add risk_score (of_Z 15)
    else if lt vocab_richness (Float (decimal 5 1)) then add risk_score (of_Z 5)
    else risk_score in
  fluency ← getitem metrics "fluency_score";
  let risk_score :=
    if lt fluency (Int 3) then add risk_score (of_Z 25)
    else if lt fluency (Int 5) then add risk_score (of_Z 15)
    else if lt fluency (Int 7) then add risk_score (of_Z 5)
    else risk_score in
  risk_score ←
    (if contains metrics "word_finding_difficulty"
     then v ← getitem metrics "word_finding_difficulty";
          plus risk_score (times v 20)
     else Ok risk_score);
  risk_score ←
    (if contains metrics "repetition_score"
     then v ← getitem metrics "repetition_score";
          plus risk_score (times v 15)
     else Ok risk_score);
  Ok (py_min (of_Z 100) (py_max (S754_zero false) (py_round risk_score 0))).

(** The number that a JSON value stands for in arithmetic, if any. *)
Definition as_number (v : value number) : option number :=
  match v with
  | Number n => Some n
  | Boolean b => Some (Int (if b then 1 else 0))
  | _ => None
  end.

(** [v <= 0] *)
Definition le_zero (v : value number) : result bool :=
  match as_number v with
  | Some n => Ok (le n (Int 0))
  | None => Raise (TypeError (not_ordered number_name v))
  end.

(** [n / v] for [n = len(words)]: the quotient of two [int]s is the
    double nearest to it; with a float divisor [n] is converted first. *)
Definition true_div (n : Z) (v : value number) : result float :=
  match as_number v with
  | Some (Int d) =>
      if d =? 0 then Raise ZeroDivisionError else Ok (nearest n d)
  | Some (Float x) =>
      if is_zero x then Raise ZeroDivisionError else Ok (div (of_Z n) x)
  | None => Raise (TypeError (not_divisible number_name v))
  end.

Definition _calculate_speech_rate (words : list string)
    (metadata : option (gmap string (value number))) : result float :=
  let estimate :=
    Ok (py_max (of_Z 60) (py_min (of_Z 200) (mul (of_Z (len words)) (of_Z 2)))) in
  match metadata with
  | None => estimate
  | Some md =>
      if Nat.eqb (size md) 0 then estimate else
      match md !! "duration" with
      | None => estimate
      | Some duration =>
          nonpositive ← le_zero duration;
          let duration :=
            if (nonpositive : bool) then Number (Float (of_Z 30)) else duration in
          q ← true_div (len words) duration;
          let words_per_minute := mul q (of_Z 60) in
          Ok (py_round words_per_minute 1)
      end
  end.

End Binary64.

(** ** Reference definitions in double precision, following the
    specification's wording *)

Module Reference64.

Import Json Binary64.

(** The feature vector.  The banded features are only compared, so they
    may be [int]s or [float]s ([analyze] passes an [int] pause count); the
    two continuous ones enter the arithmetic as [float]s. *)
Record FeatureVector : Type := {
  speech_rate : number;
  pause_count : number;
  vocabulary_richness : number;
  fluency_score : number;
  semantic_fluency : number;
  syntactic_complexity : number;
  repetition_score : float;
  word_finding_difficulty : float
}.

(** A dict of numbers holds the feature vector [f]. *)
Definition represents (m : gmap string number) (f : FeatureVector) : Prop :=
  m !! "speech_rate" = Some (speech_rate f)
  /\ m !! "pause_count" = Some (pause_count f)
  /\ m !! "vocabulary_richness" = Some (vocabulary_richness f)
  /\ m !! "fluency_score" = Some (fluency_score f)
  /\ m !! "semantic_fluency" = Some (semantic_fluency f)
  /\ m !! "syntactic_complexity" = Some (syntactic_complexity f)
  /\ m !! "repetition_score" = Some (Float (repetition_score f))
  /\ m !! "word_finding_difficulty" = Some (Float (word_finding_difficulty f)).

(** A band: the set of values it covers and the points it adds. *)
Definition band : Type := (number -> bool) * Z.

Definition below (hi : number) : number -> bool := fun v => lt v hi.
Definition above (lo : number) : number -> bool := fun v => lt lo v.
Definition closed_open (lo hi : number) : number -> bool :=
  fun v => (le lo v && lt v hi)%bool.
Definition open_closed (lo hi : number) : number -> bool :=
  fun v => (lt lo v && le v hi)%bool.

Definition speech_rate_bands : list band :=
  [(below (Int 80), 25); (closed_open (Int 80) (Int 100), 15);
   (above (Int 200), 10)].
Definition pause_count_bands : list band :=
  [(above (Int 15), 20); (open_closed (Int 10) (Int 15), 10);
   (open_closed (Int 5) (Int 10), 5)].
Definition vocabulary_richness_bands : list band :=
  [(below (Float (decimal 3 1)), 25);
   (closed_open (Float (decimal 3 1)) (Float (decimal 4 1)), 15);
   (closed_open (Float (decimal 4 1)) (Float (decimal 5 1)), 5)].
Definition fluency_score_bands : list band :=
  [(below (Int 3), 25); (closed_open (Int 3) (Int 5), 15);
   (closed_open (Int 5) (Int 7), 5)].

(** The bands of a table that cover [v]. *)
Definition matching (bands : list band) (v : number) : list band :=
  List.filter (fun b => fst b v) bands.

(** The running total after the points of the bands that cover [v] have
    been added; without such a band nothing is added. *)
Definition add_points (bands : list band) (v : number) (total : float) : float :=
  foldl (fun total b => add total (of_Z (snd b))) total (matching bands v).

(** [x] between [lo] and [hi]: [x] itself when it lies strictly between
    them, [hi] when it is not below [hi], and [lo] in every other case. *)
Definition clamp (lo hi x : float) : float :=
  if ltb lo x then (if ltb x hi then x else hi) else lo.

Definition total (f : FeatureVector) : float :=
  let total := S754_zero false in
  let total := add_points speech_rate_bands (speech_rate f) total in
  let total := add_points pause_count_bands (pause_count f) total in
  let total := add_points vocabulary_richness_bands (vocabulary_richness f) total in
  let total := add_points fluency_score_bands (fluency_score f) total in
  let total := add total (mul (word_finding_difficulty f) (of_Z 20)) in
  add total (mul (repetition_score f) (of_Z 15)).

(** [aggregate(features)]: clamp to [0,100], then round to the nearest
    integer. *)
Definition aggregate (f : FeatureVector) : float :=
  py_round (clamp (S754_zero false) (of_Z 100) (total f)) 0.

(** The value that the metadata holds under ['duration'], if any. *)
Definition supplied_duration (metadata : option (gmap string (value number)))
    : option (value number) :=
  md ← metadata; md !! "duration".

(** The estimation fallback of the speech rate. *)
Definition estimated_rate (word_count : Z) : float :=
  clamp (of_Z 60) (of_Z 200) (mul (of_Z word_count) (of_Z 2)).

(** [word_count / duration] *)
Definition quotient (word_count : Z) (duration : number) : float :=
  match duration with
  | Int d => nearest word_count d
  | Float x => div (of_Z word_count) x
  end.

(** The speech rate for a duration. *)
Definition measured_rate (word_count : Z) (duration : number) : float :=
  py_round (mul (quotient word_count duration) (of_Z 60)) 1.

End Reference64.

(** A transcript that is empty or holds only whitespace. *)
Fixpoint blank (transcript : string) : bool :=
  match transcript with
  | EmptyString => true
  | String c rest => (isspace c && blank rest)%bool
  end.

(** The claim that the speech rate follows the specification's rule. *)
Definition speech_rate_claim (words : list string)
    (metadata : option (gmap string num)) : Prop :=
  exists r, _calculate_speech_rate words metadata = Ok r
            /\ (r == Reference.speech_rate_rule (len words) metadata)%Q.

(** The claim that [analyze] raises on blank transcripts only: it raises
    the error for them, and returns a result for every other one. *)
Definition analyze_claim (self : SpeechAnalyzer) (env : Env) (transcript : string)
    (metadata : option (gmap string (Json.value num))) : Prop :=
  (Dynamic.analyze self env transcript metadata
   = Raise (ValueError "Transcript cannot be empty")
   <-> blank transcript = true)
  /\ (blank transcript = false ->
      exists a, Dynamic.analyze self env transcript metadata = Ok a).

(** ** Example inputs *)

Definition sarah : string :=
  "Hello, my name is Sarah and I'm here today to talk about my daily activities.".

Definition five_words : list string := ["one"; "two"; "three"; "four"; "five"].

Definition you_know : string := "you know it is fine".

Definition short_words : string := "a a a".

Definition zero_duration : option (gmap string num) :=
  Some (<["duration" := VFloat 0]> ∅).

Definition calm_metrics : gmap string num :=
  <["speech_rate" := VFloat 120]>
  (<["pause_count" := VInt 0]>
  (<["vocabulary_richness" := VFloat 1]>
  (<["fluency_score" := VFloat 10]> ∅))).

Definition sample_features : Reference.FeatureVector := {|
  Reference.speech_rate := 60;
  Reference.pause_count := 12;
  Reference.vocabulary_richness := 35 # 100;
  Reference.fluency_score := 65 # 10;
  Reference.semantic_fluency := 0;
  Reference.syntactic_complexity := 1 # 2;
  Reference.repetition_score := 1 # 10;
  Reference.word_finding_difficulty := 1 # 4
|}.

Definition sample_metrics : gmap string num :=
  <["speech_rate" := VFloat 60]>
  (<["pause_count" := VInt 12]>
  (<["vocabulary_richness" := VFloat (35 # 100)]>
  (<["fluency_score" := VFloat (65 # 10)]>
  (<["semantic_fluency" := VFloat 0]>
  (<["syntactic_complexity" := VFloat (1 # 2)]>
  (<["repetition_score" := VFloat (1 # 10)]>
  (<["word_finding_difficulty" := VFloat (1 # 4)]> ∅))))))).

(** Forty-one tokens, and metadata with a duration of 80.0 seconds, of
    0.0 seconds, and with a string where the duration should be. *)
Definition forty_one_words : list string := replicate 41 "word"%string.

Definition eighty_seconds : option (gmap string (Json.value Binary64.number)) :=
  Some (<["duration" := Json.Number (Binary64.Float (Binary64.decimal 800 1))]> ∅).

Definition zero_seconds : option (gmap string (Json.value Binary64.number)) :=
  Some (<["duration" := Json.Number (Binary64.Float (S754_zero false))]> ∅).

Definition string_duration : option (gmap string (Json.value num)) :=
  Some (<["duration" := Json.Text "30"]> ∅).

(** A feature vector in double precision that lies in no band, with a
    repetition score of 0.8333333333333334, and the dict that holds it. *)
Definition neutral_features : Reference64.FeatureVector := {|
  Reference64.speech_rate := Binary64.Float (Binary64.of_Z 120);
  Reference64.pause_count := Binary64.Int 0;
  Reference64.vocabulary_richness := Binary64.Float (Binary64.of_Z 1);
  Reference64.fluency_score := Binary64.Float (Binary64.of_Z 10);
  Reference64.semantic_fluency := Binary64.Float (S754_zero false);
  Reference64.syntactic_complexity := Binary64.Float (S754_zero false);
  Reference64.repetition_score := Binary64.decimal 8333333333333334 16;
  Reference64.word_finding_difficulty := S754_zero false
|}.

Definition neutral_metrics : gmap string Binary64.number :=
  <["speech_rate" := Binary64.Float (Binary64.of_Z 120)]>
  (<["pause_count" := Binary64.Int 0]>
  (<["vocabulary_richness" := Binary64.Float (Binary64.of_Z 1)]>
  (<["fluency_score" := Binary64.Float (Binary64.of_Z 10)]>
  (<["semantic_fluency" := Binary64.Float (S754_zero false)]>
  (<["syntactic_complexity" := Binary64.Float (S754_zero false)]>
  (<["repetition_score" := Binary64.Float (Binary64.decimal 8333333333333334 16)]>
  (<["word_finding_difficulty" := Binary64.Float (S754_zero false)]> ∅))))))).

(** ** Further notions used to describe the code *)

(** Every character of [s] satisfies [p]. *)
Fixpoint all_chars (p : ascii -> bool) (s : string) : bool :=
  match s with
  | EmptyString => true
  | String c rest => (p c && all_chars p rest)%bool
  end.

(** Whitespace occurs in [s] only as a space character that does not
    follow whitespace; [in_ws] tells that whitespace precedes [s]. *)
Fixpoint spaced (in_ws : bool) (s : string) : bool :=
  match s with
  | EmptyString => true
  | String c rest =>
      if isspace c
      then (Ascii.eqb c " " && negb in_ws && spaced true rest)%bool
      else spaced false rest
  end.

(** A character that [lower] leaves alone. *)
Definition is_lower (c : ascii) : bool := Ascii.eqb (lower_char c) c.

(** The analyzer whose filler set keeps only the entries made of word
    characters, that is, the single-word fillers. *)
Definition single_word_fillers (self : SpeechAnalyzer) : SpeechAnalyzer :=
  {| filler_words := filter (fun f => all_chars isword f = true) (filler_words self);
     word_finding_indicators := word_finding_indicators self;
     semantic_categories := semantic_categories self |}.

(** One of the punctuation marks that the analyzer counts in the raw
    transcript. *)
Definition is_counted_mark (c : ascii) : bool :=
  (Ascii.eqb c "," || Ascii.eqb c ";" || Ascii.eqb c ".")%bool.

(** ** The transcription service ([backend/transcriber.py]) *)

Module Transcriber.

(** The API keys read from the process environment by [__init__];
    [None] when a variable is not set. *)
Record TranscriptionService : Type := {
  openai_api_key : option string;
  huggingface_api_key : option string
}.

(** What lies outside the program during one call of [transcribe]: the
    audio library and the two remote services.  [None] stands for a call
    that raises. *)
Record World : Type := {
  audio_duration : option Q;
  audio_energy : option Q;
  huggingface_text : option string;
  openai_text : option string;
  choice : list string -> string
}.

(** [random.choice] returns an element of a non-empty list. *)
Definition choice_ok (world : World) : Prop :=
  forall l : list string, l <> [] -> choice world l ∈ l.

(** Truthiness of a key or of a transcript: set and not empty. *)
Definition truthy_text (text : option string) : bool :=
  match text with
  | Some t => truthy t
  | None => false
  end.

Definition high_energy_transcripts : list string :=
  ["Hello, my name is Sarah and I'm here today to talk about my daily activities. This morning I woke up at seven thirty and had breakfast with my husband. We discussed our plans for the weekend which include visiting our daughter and her family. I'm looking forward to seeing our grandchildren who are now eight and ten years old. After breakfast I went to the grocery store to buy ingredients for dinner. I'm planning to make my famous lasagna recipe that everyone in the family loves.";
   "I want to tell you about my hobbies and interests. I've been an avid reader since I was a child and I particularly enjoy mystery novels and historical fiction. My book club meets every Tuesday at the local library where we discuss our monthly selection. I also enjoy gardening and have been growing tomatoes, peppers, and herbs in my backyard for over twenty years. Cooking is another passion of mine and I love experimenting with new recipes from different cultures.";
   "Today has been a wonderful day with perfect weather for outdoor activities. I started my morning with a thirty-minute walk around the neighborhood, greeting several neighbors along the way. The spring flowers are blooming beautifully and I stopped to admire the cherry blossoms in the park. This afternoon I'm planning to work in my garden, planting new vegetables for the summer season. I believe staying active both physically and mentally is crucial for maintaining good health as we age."].

Definition medium_energy_transcripts : list string :=
  ["Well, let me think about what I did yesterday. I woke up in the morning, had my usual... um... what do I usually have? Oh yes, coffee and toast. Then I think I went somewhere, was it the store? Yes, the grocery store to get some things. I bought milk, bread, and... hmm... what else was it? I can't quite remember everything but I know there were other items too. When I got home I put everything away and then watched some television.";
   "I enjoy reading, well I used to enjoy reading more than I do now. Sometimes the words get a bit... you know... jumbled up and I have to read sentences twice. My favorite books are... let me think... mystery stories and sometimes romance novels. I go to the library every... is it Tuesday or Wednesday? I think it's Tuesday but I should check my calendar to be sure.";
   "My daily routine is pretty simple. I wake up around... well it varies but usually between seven and eight. Then I have breakfast which is usually... um... cereal or sometimes toast. After that I like to go for a walk but only if the weather is nice. Yesterday or was it the day before... anyway, recently I went to see my neighbor Mrs. Johnson and we had a nice chat about her garden."].

Definition low_energy_transcripts : list string :=
  ["I... I was going somewhere today. Where was it? The place with the... the things. You know, where they have the... the food items. I can't quite remember the word for it.";
   "Yesterday or was it today? I'm not sure. There was something important I needed to do. My daughter called, I think. Or maybe that was last week. Time gets confused sometimes.";
   "The thing is... what was I talking about? I know there was something. Sometimes the words just don't come when I need them. It's frustrating when your mind doesn't work like it used to."].

Definition fallback_transcript : string :=
  "I was talking about my daily activities and some of the things I like to do. Sometimes I have trouble finding the right words, but I try to explain what I mean.".

Definition _mock_transcription (world : World) : string :=
  match audio_energy world with
  | Some avg_energy =>
      let mock_transcripts :=
        if Qltb (2 # 100) avg_energy then high_energy_transcripts
        else if Qltb (1 # 100) avg_energy then medium_energy_transcripts
        else low_energy_transcripts in
      choice world mock_transcripts
  | None => fallback_transcript
  end.

Definition _get_audio_duration (world : World) : Q :=
  match audio_duration world with
  | Some duration => duration
  | None => 30%Q
  end.

(** The calls that [transcribe] makes, in order. *)
Inductive call : Type := HuggingFace | OpenAI | Mock.

(** The dict returned by [transcribe]. *)
Record Transcription : Type := {
  transcript : option string;
  duration : Q;
  confidence : Q
}.

Definition transcribe (self : TranscriptionService) (world : World)
    : Transcription * list call :=
  let duration := _get_audio_duration world in
  let transcript : option string := None in
  let confidence : Q := (85 # 100)%Q in
  let calls : list call := [] in
  let '(transcript, confidence, calls) :=
    if truthy_text (huggingface_api_key self) then
      match huggingface_text world with
      | Some text => (Some text, (90 # 100)%Q, calls ++ [HuggingFace])
      | None => (transcript, confidence, calls ++ [HuggingFace])
      end
    else (transcript, confidence, calls) in
  let '(transcript, confidence, calls) :=
    if (negb (truthy_text transcript) && truthy_text (openai_api_key self))%bool then
      match openai_text world with
      | Some text => (Some text, (95 # 100)%Q, calls ++ [OpenAI])
      | None => (transcript, confidence, calls ++ [OpenAI])
      end
    else (transcript, confidence, calls) in
  let '(transcript, confidence, calls) :=
    if negb (truthy_text transcript)
    then (Some (_mock_transcription world), (85 # 100)%Q, calls ++ [Mock])
    else (transcript, confidence, calls) in
  ({| transcript := transcript;
      duration := duration;
      confidence := confidence |}, calls).

End Transcriber.

(** ** The analysis endpoint ([backend/app.py]) *)

Module App.

(** [AnalysisRequest]: the metadata is declared [Dict[str, Any]], any
    decoded JSON object. *)
Record AnalysisRequest : Type := {
  request_transcript : string;
  request_metadata : gmap string (Json.value num)
}.

(** [AnalysisResponse]: the metrics are declared [Dict[str, float]], so
    the integer pause count is carried as a float. *)
Record AnalysisResponse : Type := {
  response_riskScore : Z;
  response_explanation : string;
  response_metrics : gmap string Q
}.

(** What a handler produces: a response, or an [HTTPException]. *)
Inductive outcome : Type :=
  | Respond (response : AnalysisResponse)
  | HTTPException (status_code : Z) (detail : string).

(** What is raised inside the [try] block of a handler. *)
Inductive raised : Type :=
  | RaisedHTTP (status_code : Z) (detail : string)
  | RaisedExn (e : exn).

(** [str(e)] for the exceptions that the handler may catch; the wording
    belongs to the interpreter and to the web framework. *)
Record Wording : Type := {
  str_http : Z -> string -> string;
  str_exn : exn -> string
}.

Definition str_raised (wording : Wording) (e : raised) : string :=
  match e with
  | RaisedHTTP status_code detail => str_http wording status_code detail
  | RaisedExn e => str_exn wording e
  end.

(** The module-level [speech_analyzer = SpeechAnalyzer()]. *)
Definition speech_analyzer : SpeechAnalyzer := __init__.

Definition metrics_dict (m : Metrics) : gmap string Q :=
  <["speechRate" := speechRate m]>
  (<["pauseCount" := inject_Z (pauseCount m)]>
  (<["vocabularyRichness" := vocabularyRichness m]>
  (<["fluencyScore" := fluencyScore m]> ∅))).

(** The body of the [try] block of [analyze_speech]. *)
Definition analyze_speech_body (env : Env) (request : AnalysisRequest)
    : raised + AnalysisResponse :=
  if negb (truthy (strip (request_transcript request)))
  then inl (RaisedHTTP 400 "Transcript cannot be empty")
  else
    match Dynamic.analyze speech_analyzer env (request_transcript request)
            (Some (request_metadata request)) with
    | Raise e => inl (RaisedExn e)
    | Ok analysis_result =>
        inr {| response_riskScore := riskScore analysis_result;
               response_explanation := explanation analysis_result;
               response_metrics := metrics_dict (metrics analysis_result) |}
    end.

(** [analyze_speech]: [except Exception] catches whatever the body
    raises, an [HTTPException] included, and raises status 500. *)
Definition analyze_speech (env : Env) (wording : Wording)
    (request : AnalysisRequest) : outcome :=
  match analyze_speech_body env request with
  | inr response => Respond response
  | inl e => HTTPException 500 ("Analysis failed: " +:+ str_raised wording e)
  end.

(** [sub in s] for two [str]. *)
Fixpoint in_str (sub s : string) : bool :=
  (starts_with sub s
   || match s with
      | EmptyString => false
      | String _ rest => in_str sub rest
      end)%bool.

Fixpoint reverse (s : string) : string :=
  match s with
  | EmptyString => EmptyString
  | String c rest => snoc (reverse rest) c
  end.

(** [s.endswith(suffix)] *)
Definition ends_with (suffix s : string) : bool :=
  starts_with (reverse suffix) (reverse s).

(** The two attributes of the uploaded file that [transcribe_audio]
    reads; either may be [None]. *)
Record UploadFile : Type := {
  content_type : option string;
  filename : option string
}.

(** Truthiness of an attribute: set and not empty. *)
Definition is_set (attribute : option string) : bool :=
  match attribute with
  | Some text => truthy text
  | None => false
  end.

(** The start of the [try] block of [transcribe_audio]: the upload is
    validated and the suffix of the temporary file is chosen.  Where an
    attribute is read it has been tested to be set. *)
Definition upload_suffix (audio : UploadFile) : raised + string :=
  let ct := default EmptyString (content_type audio) in
  let name := default EmptyString (filename audio) in
  if ((negb (is_set (content_type audio)) || negb (starts_with "audio/" ct))
      && negb (bool_decide (content_type audio = Some "application/octet-stream"%string)))%bool
  then inl (RaisedHTTP 400 "Invalid file type. Please upload an audio file.")
  else
    let file_ext := ".wav"%string in
    let file_ext :=
      if is_set (content_type audio) then
        if in_str "webm" ct then ".webm"%string
        else if in_str "mp4" ct then ".mp4"%string
        else if in_str "ogg" ct then ".ogg"%string
        else if in_str "m4a" ct then ".m4a"%string
        else file_ext
      else if is_set (filename audio) then
        if ends_with ".webm" name then ".webm"%string
        else if ends_with ".mp4" name then ".mp4"%string
        else if ends_with ".m4a" name then ".m4a"%string
        else if ends_with ".ogg" name then ".ogg"%string
        else file_ext
      else file_ext in
    inr file_ext.

End App.

(** A world for the examples: no key is needed, the audio is quiet and
    [random.choice] takes the first element. *)
Definition quiet_world : Transcriber.World := {|
  Transcriber.audio_duration := Some 12%Q;
  Transcriber.audio_energy := Some (5 # 1000)%Q;
  Transcriber.huggingface_text := None;
  Transcriber.openai_text := None;
  Transcriber.choice := fun l => default EmptyString (head l)
|}.

Definition no_keys : Transcriber.TranscriptionService := {|
  Transcriber.openai_api_key := None;
  Transcriber.huggingface_api_key := None
|}.

(** [str(e)] as CPython and Starlette word it: an [HTTPException] reads
    [<status>: <detail>], a [KeyError] is the [repr] of its key, the other
    exceptions read as their message. *)
Definition starlette_wording : App.Wording := {|
  App.str_http := fun status_code detail =>
    str_int status_code +:+ ": " +:+ detail;
  App.str_exn := fun e =>
    match e with
    | ValueError msg | TypeError msg | OverflowError msg => msg
    | KeyError key => "'" +:+ key +:+ "'"
    | ZeroDivisionError => "division by zero"
    end
|}.

(** Two feature vectors at the same speech rate, the second worse than
    the first in every other metric, and dicts that hold them. *)
Definition calm_features : Reference.FeatureVector := {|
  Reference.speech_rate := 120;
  Reference.pause_count := 0;
  Reference.vocabulary_richness := 1;
  Reference.fluency_score := 10;
  Reference.semantic_fluency := 0;
  Reference.syntactic_complexity := 0;
  Reference.repetition_score := 0;
  Reference.word_finding_difficulty := 0
|}.

Definition troubled_features : Reference.FeatureVector := {|
  Reference.speech_rate := 120;
  Reference.pause_count := 12;
  Reference.vocabulary_richness := 35 # 100;
  Reference.fluency_score := 4;
  Reference.semantic_fluency := 0;
  Reference.syntactic_complexity := 0;
  Reference.repetition_score := 1 # 10;
  Reference.word_finding_difficulty := 1 # 4
|}.

Definition calm_dict : gmap string num :=
  risk_metrics 120 0 1 10 0 0 0 0.

Definition troubled_metrics : gmap string num :=
  risk_metrics 120 12 (35 # 100) 4 0 0 (1 # 10) (1 # 4).

(** ** Facts about the numeric primitives *)

Section Numbers.

Ltac compare_facts :=
  repeat match goal with
  | H : (_ ?= _)%Q = Eq |- _ => apply Qeq_alt in H
  | H : (_ ?= _)%Q = Lt |- _ => apply Qlt_alt in H
  | H : (_ ?= _)%Q = Gt |- _ => apply Qgt_alt in H
  end.

Lemma Qltb_lt (x y : Q) : Qltb x y = true <-> (x < y)%Q.
Proof.
  unfold Qltb. rewrite negb_true_iff, <- not_true_iff_false, Qle_bool_iff.
  split; [apply Qnot_le_lt | apply Qlt_not_le].
Qed.

Lemma Qltb_ge (x y : Q) : Qltb x y = false <-> (y <= x)%Q.
Proof.
  unfold Qltb. rewrite negb_false_iff. apply Qle_bool_iff.
Qed.

Lemma Qltb_cases (x y : Q) :
  (Qltb x y = true /\ (x < y)%Q) \/ (Qltb x y = false /\ (y <= x)%Q).
Proof.
  destruct (Qltb x y) eqn:E; [left | right]; split; trivial.
  - now apply Qltb_lt.
  - now apply Qltb_ge.
Qed.

Lemma Qle_bool_cases (x y : Q) :
  (Qle_bool x y = true /\ (x <= y)%Q) \/ (Qle_bool x y = false /\ (y < x)%Q).
Proof.
  destruct (Qle_bool x y) eqn:E; [left | right]; split; trivial.
  - now apply Qle_bool_iff.
  - apply Qnot_le_lt. intros H. apply Qle_bool_iff in H. congruence.
Qed.

Lemma Qcompare_ltb (a b : Q) :
  match (a ?= b)%Q with Lt => true | _ => false end = Qltb a b.
Proof.
  destruct (Qltb_cases a b) as [[-> H] | [-> H]];
    destruct (a ?= b)%Q eqn:E; trivial; compare_facts; exfalso; lra.
Qed.

Lemma Qcompare_leb (a b : Q) :
  match (a ?= b)%Q with Lt | Eq => true | Gt => false end = Qle_bool a b.
Proof.
  destruct (Qle_bool_cases a b) as [[-> H] | [-> H]];
    destruct (a ?= b)%Q eqn:E; trivial; compare_facts; exfalso; lra.
Qed.

Lemma py_div_ok (a b : Q) : ~ (b == 0)%Q -> py_div a b = Ok (a / b)%Q.
Proof.
  intros Hb. unfold py_div. destruct (Qeq_bool b 0) eqn:E; trivial.
  apply Qeq_bool_eq in E. contradiction.
Qed.

Lemma inject_Z_nonzero (z : Z) : z <> 0 -> ~ (inject_Z z == 0)%Q.
Proof.
  intros Hz H. apply Hz. unfold Qeq in H. simpl in H. lia.
Qed.

Lemma round_half_even_range (x : Q) :
  (inject_Z (round_half_even x) - (1 # 2) <= x
   /\ x <= inject_Z (round_half_even x) + (1 # 2))%Q.
Proof.
  unfold round_half_even.
  pose proof (Qfloor_le x) as Hlo. pose proof (Qlt_floor x) as Hhi.
  rewrite inject_Z_plus in Hhi. change (inject_Z 1) with 1%Q in Hhi.
  destruct (x - inject_Z (Qfloor x) ?= 1 # 2)%Q eqn:E.
  - apply Qeq_alt in E.
    destruct (Z.even (Qfloor x)); rewrite ?inject_Z_plus;
      change (inject_Z 1) with 1%Q; split; lra.
  - apply Qlt_alt in E. split; lra.
  - apply Qgt_alt in E. rewrite inject_Z_plus.
    change (inject_Z 1) with 1%Q. split; lra.
Qed.

Lemma round_half_even_floor (x : Q) :
  round_half_even x = Qfloor x \/ round_half_even x = Qfloor x + 1.
Proof.
  unfold round_half_even.
  destruct (x - inject_Z (Qfloor x) ?= 1 # 2)%Q; auto.
  destruct (Z.even (Qfloor x)); auto.
Qed.

Lemma round_half_even_mono (x y : Q) :
  (x <= y)%Q -> round_half_even x <= round_half_even y.
Proof.
  intros Hxy. pose proof (Qfloor_resp_le _ _ Hxy) as Hf.
  destruct (Z.eq_dec (Qfloor x) (Qfloor y)) as [Heq | Hne].
  - unfold round_half_even. rewrite <- Heq.
    destruct (x - inject_Z (Qfloor x) ?= 1 # 2)%Q eqn:Ex;
      destruct (y - inject_Z (Qfloor x) ?= 1 # 2)%Q eqn:Ey;
      compare_facts; try (destruct (Z.even (Qfloor x))); try lia; exfalso; lra.
  - destruct (round_half_even_floor x), (round_half_even_floor y); lia.
Qed.

Lemma round_half_even_Z (z : Z) : round_half_even (inject_Z z) = z.
Proof.
  unfold round_half_even. rewrite Qfloor_Z.
  assert (E : (inject_Z z - inject_Z z ?= 1 # 2)%Q = Lt).
  { apply (proj1 (Qlt_alt _ _)). lra. }
  now rewrite E.
Qed.

Lemma round_half_even_comp (x y : Q) :
  (x == y)%Q -> round_half_even x = round_half_even y.
Proof.
  intros H. apply Z.le_antisymm; apply round_half_even_mono; lra.
Qed.

Lemma py_round_0 (x : Q) : py_round x 0 = inject_Z (round_half_even x).
Proof.
  unfold py_round. simpl. unfold inject_Z. f_equal.
  apply round_half_even_comp. change (10 ^ Z.of_nat 0 # 1)%Q with 1%Q. lra.
Qed.

Lemma py_round_mono (x y : Q) (n : nat) :
  (x <= y)%Q -> (py_round x n <= py_round y n)%Q.
Proof.
  intros H. unfold py_round, Qle. simpl.
  apply Z.mul_le_mono_nonneg_r; [lia |].
  apply round_half_even_mono.
  apply Qmult_le_compat_r; trivial.
  change 0%Q with (inject_Z 0). rewrite <- Zle_Qle. lia.
Qed.

Lemma clamp_range (lo hi x : Q) :
  (lo <= hi)%Q -> (lo <= Reference.clamp lo hi x <= hi)%Q.
Proof.
  intros H. unfold Reference.clamp.
  destruct (Qltb_cases x lo) as [[-> ?] | [-> ?]]; [lra |].
  destruct (Qltb_cases hi x) as [[-> ?] | [-> ?]]; lra.
Qed.

Lemma py_clamp_range (lo hi x : Q) :
  (lo <= hi)%Q -> (lo <= py_max lo (py_min hi x) <= hi)%Q.
Proof.
  intros H. unfold py_max, py_min.
  destruct (Qltb_cases x hi) as [[-> ?] | [-> ?]];
    match goal with |- context [Qltb ?a ?b] =>
      destruct (Qltb_cases a b) as [[-> ?] | [-> ?]] end; lra.
Qed.

End Numbers.

(** ** The result monad *)

Section Monad.

Context {A B : Type}.

Lemma bind_Ok (a : A) (f : A -> result B) : (Ok a ≫= f) = f a.
Proof. reflexivity. Qed.

Lemma bind_Ok_inv (c : result A) (f : A -> result B) (b : B) :
  (c ≫= f) = Ok b -> exists a, c = Ok a /\ f a = Ok b.
Proof.
  destruct c as [a | e]; [| discriminate]. intros H. now exists a.
Qed.

End Monad.

Lemma getitem_Some (d : gmap string num) (key : string) (v : num) :
  d !! key = Some v -> getitem d key = Ok v.
Proof. intros H. unfold getitem. now rewrite H. Qed.

Lemma contains_Some (d : gmap string num) (key : string) (v : num) :
  d !! key = Some v -> contains d key = true.
Proof.
  intros H. unfold contains. apply bool_decide_eq_true_2. rewrite H. eauto.
Qed.

(** ** Facts about doubles *)

Section Doubles.

Import Json Binary64.

(** Between doubles that stand for real numbers the order is that of the
    exact values. *)
Lemma ltb_real (x y : float) :
  is_real x = true -> is_real y = true -> ltb x y = Qltb (to_Q x) (to_Q y).
Proof.
  intros Hx Hy. unfold ltb.
  destruct x, y; try discriminate; cbn [compare]; apply Qcompare_ltb.
Qed.

Lemma leb_real (x y : float) :
  is_real x = true -> is_real y = true -> leb x y = Qle_bool (to_Q x) (to_Q y).
Proof.
  intros Hx Hy. unfold leb.
  destruct x, y; try discriminate; cbn [compare]; apply Qcompare_leb.
Qed.

Lemma float_view (x : float) :
  is_real x = true \/ x = S754_nan
  \/ x = S754_infinity false \/ x = S754_infinity true.
Proof. destruct x as [s | [] | | s m e]; auto. Qed.

Lemma exact_real (z : Z) : is_real (exact z) = true.
Proof. now destruct z. Qed.

Lemma to_Q_exact (z : Z) : to_Q (exact z) = inject_Z z.
Proof.
  destruct z; cbn; try reflexivity; unfold inject_Z; f_equal; lia.
Qed.

Lemma pow2_pos (k : Z) : 0 <= k -> 0 < 2 ^ k.
Proof. intros H. apply Z.pow_pos_nonneg; lia. Qed.

(** The sign bit of a finite double is the sign of its value. *)
Lemma to_Q_sign (s : bool) (m : positive) (e : Z) :
  if s then (to_Q (S754_finite s m e) < 0)%Q
  else (0 < to_Q (S754_finite s m e))%Q.
Proof.
  unfold to_Q. destruct (0 <=? e) eqn:He.
  - apply Z.leb_le in He. pose proof (pow2_pos e He) as Hp.
    destruct s; cbn [cond_Zopp]; unfold Qlt, inject_Z; simpl; nia.
  - destruct s; cbn [cond_Zopp]; unfold Qlt; simpl; lia.
Qed.

Lemma normal_real (s : bool) (p : positive) : is_real (normal s p) = true.
Proof. unfold normal. now destruct (_ <=? _). Qed.

Lemma to_Q_normal (s : bool) (p : positive) :
  (to_Q (normal s p) == inject_Z (cond_Zopp s (Zpos p)))%Q.
Proof.
  unfold normal. set (d := Zpos (digits2_pos p)).
  destruct (d <=? prec) eqn:Hd.
  - apply Z.leb_le in Hd. unfold to_Q.
    assert (Hk : 0 < 2 ^ (prec - d)) by (apply pow2_pos; lia).
    rewrite Z2Pos.id by lia.
    destruct (0 <=? d - prec) eqn:He.
    + apply Z.leb_le in He. assert (E : d = prec) by lia. rewrite E.
      rewrite !Z.sub_diag. change (2 ^ 0) with 1.
      destruct s; cbn [cond_Zopp]; unfold Qeq; simpl; lia.
    + replace (- (d - prec)) with (prec - d) by lia.
      unfold Qeq. cbn [Qnum Qden inject_Z]. rewrite Z2Pos.id by lia.
      destruct s; cbn [cond_Zopp]; lia.
  - rewrite <- to_Q_exact. now destruct s.
Qed.

Lemma integer_real (z : Z) : is_real (integer z) = true.
Proof. destruct z; [reflexivity | apply normal_real ..]. Qed.

Lemma to_Q_integer (z : Z) : (to_Q (integer z) == inject_Z z)%Q.
Proof.
  destruct z; [reflexivity | apply (to_Q_normal false) | apply (to_Q_normal true)].
Qed.

(** *** Rounding never yields a NaN *)

Lemma shr_1_nonneg (mrs : shr_record) : 0 <= shr_m mrs -> 0 <= shr_m (shr_1 mrs).
Proof.
  destruct mrs as [m r s]. destruct m as [| [p | p |] | [p | p |]]; simpl; lia.
Qed.

Lemma iter_shr_1_nonneg (p : positive) (mrs : shr_record) :
  0 <= shr_m mrs -> 0 <= shr_m (SpecFloat.iter_pos shr_1 p mrs).
Proof.
  revert mrs. induction p as [p IH | p IH |]; intros mrs H; cbn [SpecFloat.iter_pos];
    auto using shr_1_nonneg.
Qed.

Lemma shr_fexp_nonneg (m e : Z) (l : location) :
  0 <= m -> 0 <= shr_m (fst (shr_fexp prec emax m e l)).
Proof.
  intros H. unfold shr_fexp, shr.
  assert (Hm : 0 <= shr_m (shr_record_of_loc m l)) by (now destruct l as [| []]).
  destruct (fexp prec emax (Zdigits2 m + e) - e); cbn [fst]; trivial.
  now apply iter_shr_1_nonneg.
Qed.

Lemma round_nearest_even_nonneg (m : Z) (l : location) :
  0 <= m -> 0 <= round_nearest_even m l.
Proof.
  intros H. unfold round_nearest_even.
  destruct l as [| []]; try destruct (Z.even m); lia.
Qed.

Lemma binary_round_aux_not_nan (s : bool) (m e : Z) (l : location) :
  0 <= m -> is_nan (binary_round_aux prec emax s m e l) = false.
Proof.
  intros H. unfold binary_round_aux.
  pose proof (shr_fexp_nonneg m e l H) as H1.
  destruct (shr_fexp prec emax m e l) as [mrs' e']. cbn [fst] in H1.
  pose proof (shr_fexp_nonneg _ e' loc_Exact
                (round_nearest_even_nonneg _ (loc_of_shr_record mrs') H1)) as H2.
  destruct (shr_fexp prec emax _ e' loc_Exact) as [mrs'' e'']. cbn [fst] in H2.
  destruct (shr_m mrs''); [reflexivity | | lia].
  now destruct (_ <=? _).
Qed.

Lemma of_Z_not_nan (z : Z) : is_nan (of_Z z) = false.
Proof.
  unfold of_Z, binary_normalize, binary_round.
  destruct z as [| p | p]; [reflexivity | |];
    destruct (shl_align _ _ _); now apply binary_round_aux_not_nan.
Qed.

(** The product of a number with a finite double is a number. *)
Lemma mul_finite_not_nan (x : float) (s : bool) (m : positive) (e : Z) :
  is_nan x = false -> is_nan (mul x (S754_finite s m e)) = false.
Proof.
  intros H. destruct x as [sx | sx | | sx mx ex]; try discriminate;
    cbn [mul SFmul]; trivial.
  apply binary_round_aux_not_nan. lia.
Qed.

(** *** [round(x, 0)] *)

Lemma py_round_0_shape (s : bool) (m : positive) (e : Z) :
  e < 0 ->
  py_round (S754_finite s m e) 0
  = match round_half_even (to_Q (S754_finite s m e)) with
    | Z0 => S754_zero s
    | z => integer z
    end.
Proof.
  intros He. unfold py_round.
  destruct (0 <=? e) eqn:E; [apply Z.leb_le in E; lia |].
  cbv zeta. change (10 ^ Z.of_nat 0) with 1.
  rewrite (round_half_even_comp (to_Q (S754_finite s m e) * inject_Z 1)
             (to_Q (S754_finite s m e))) by (change (inject_Z 1) with 1%Q; lra).
  now destruct (round_half_even _).
Qed.

(** Rounding to no decimals gives the integer nearest to the value. *)
Lemma py_round_0_value (x : float) :
  is_real x = true ->
  is_real (py_round x 0) = true
  /\ (to_Q (py_round x 0) == inject_Z (round_half_even (to_Q x)))%Q.
Proof.
  intros Hx. destruct x as [s | s | | s m e]; try discriminate.
  - split; reflexivity.
  - destruct (Z.lt_ge_cases e 0) as [He | He].
    + rewrite py_round_0_shape by trivial.
      destruct (round_half_even _) as [| p | p] eqn:Ez.
      * split; reflexivity.
      * split; [apply integer_real | apply to_Q_integer].
      * split; [apply integer_real | apply to_Q_integer].
    + unfold py_round. apply Z.leb_le in He. rewrite He.
      split; [reflexivity |]. unfold to_Q. rewrite He.
      now rewrite round_half_even_Z.
Qed.

Lemma py_round_0_zero (x : float) :
  is_real x = true -> (0 < to_Q x)%Q -> round_half_even (to_Q x) = 0 ->
  py_round x 0 = S754_zero false.
Proof.
  intros Hx Hq Hz. destruct x as [s | s | | s m e]; try discriminate.
  destruct (Z.lt_ge_cases e 0) as [He | He].
  - rewrite py_round_0_shape, Hz by trivial.
    pose proof (to_Q_sign s m e) as Hs. destruct s; [lra | reflexivity].
  - exfalso. apply Z.leb_le in He. unfold to_Q in Hq, Hz. rewrite He in Hq, Hz.
      rewrite round_half_even_Z in Hz. rewrite Hz in Hq.
      unfold Qlt in Hq. simpl in Hq. lia.
Qed.

Lemma py_round_0_hundred (x : float) :
  is_real x = true -> (to_Q x < 100)%Q -> round_half_even (to_Q x) = 100 ->
  py_round x 0 = of_Z 100.
Proof.
  intros Hx Hq Hz. destruct x as [s | s | | s m e]; try discriminate.
  destruct (Z.lt_ge_cases e 0) as [He | He].
  - rewrite py_round_0_shape, Hz by trivial. reflexivity.
  - exfalso. apply Z.leb_le in He. unfold to_Q in Hq, Hz. rewrite He in Hq, Hz.
      rewrite round_half_even_Z in Hz. rewrite Hz in Hq.
      unfold Qlt in Hq. simpl in Hq. lia.
Qed.

End Doubles.

(** ** The primitives of the double-precision embedding against [SpecFloat] *)

Section Conformance.

Import Binary64.

(** *** The number of bits of a mantissa *)

Lemma digits2_pos_bounds (p : positive) :
  2 ^ (Zpos (digits2_pos p) - 1) <= Zpos p < 2 ^ Zpos (digits2_pos p).
Proof.
  induction p as [p IH | p IH |]; cbn [digits2_pos].
  - rewrite Pos2Z.inj_succ, Z.pow_succ_r by lia.
    replace (Z.succ (Zpos (digits2_pos p)) - 1) with (Z.succ (Zpos (digits2_pos p) - 1)) by lia.
    rewrite Z.pow_succ_r by lia. lia.
  - rewrite Pos2Z.inj_succ, Z.pow_succ_r by lia.
    replace (Z.succ (Zpos (digits2_pos p)) - 1) with (Z.succ (Zpos (digits2_pos p) - 1)) by lia.
    rewrite Z.pow_succ_r by lia. lia.
  - cbn. lia.
Qed.

Lemma iter_xO_value (p k : positive) :
  Zpos (Pos.iter xO p k) = Zpos p * 2 ^ Zpos k.
Proof.
  induction k as [| k IH] using Pos.peano_ind.
  - cbn. lia.
  - rewrite Pos.iter_succ, Pos2Z.inj_succ, Z.pow_succ_r by lia.
    rewrite Pos2Z.inj_xO, IH. lia.
Qed.

Lemma iter_xO_digits (p k : positive) :
  digits2_pos (Pos.iter xO p k) = (digits2_pos p + k)%positive.
Proof.
  induction k as [| k IH] using Pos.peano_ind.
  - cbn. lia.
  - rewrite Pos.iter_succ. cbn [digits2_pos]. rewrite IH. lia.
Qed.

(** Rounding an exact mantissa of 53 bits changes nothing. *)
Lemma binary_round_aux_exact (s : bool) (m : positive) (e : Z) :
  Zpos (digits2_pos m) = prec -> emin prec emax <= e <= emax - prec ->
  binary_round_aux prec emax s (Zpos m) e loc_Exact = S754_finite s m e.
Proof.
  intros Hd He. unfold binary_round_aux, shr_fexp, fexp.
  cbn [Zdigits2 shr_record_of_loc]. rewrite Hd.
  unfold emin, prec, emax in *.
  replace (Z.max (53 + e - 53) (3 - 1024 - 53) - e) with 0 by lia.
  cbn [shr shr_m loc_of_shr_record round_nearest_even Zdigits2].
  rewrite Hd.
  replace (Z.max (53 + e - 53) (3 - 1024 - 53) - e) with 0 by lia.
  cbn [shr shr_m].
  destruct (e <=? 1024 - 53) eqn:E; [reflexivity |].
  apply Z.leb_gt in E. lia.
Qed.

(** For an integer of at most 53 bits, [integer] is the conversion of an
    [int] to a [float]. *)
Lemma integer_of_Z (z : Z) : Z.abs z < 2 ^ prec -> integer z = of_Z z.
Proof.
  intros Hz. destruct z as [| p | p]; [reflexivity | |];
    unfold integer, of_Z, binary_normalize, binary_round, normal;
    pose proof (digits2_pos_bounds p) as [Hlo Hhi];
    set (d := digits2_pos p) in *;
    (assert (Hd : Zpos d <= prec);
     [destruct (Z.le_gt_cases (Zpos d) prec) as [H | H]; trivial;
      assert (2 ^ prec <= 2 ^ (Zpos d - 1)) by (apply Z.pow_le_mono_r; lia);
      cbn [Z.abs] in Hz; lia |]);
    rewrite (proj2 (Z.leb_le _ _) Hd);
    unfold shl_align, fexp, emin; rewrite Z.add_0_r;
    unfold prec, emax in *;
    replace (Z.max (Zpos d - 53) (3 - 1024 - 53)) with (Zpos d - 53) by lia;
    rewrite Z.sub_0_r;
    destruct (Zpos d - 53) as [| k | k] eqn:Ek; try lia.
  - replace (53 - Zpos d) with 0 by lia. rewrite Z.mul_1_r. cbn [Z.to_pos].
    symmetry.
    apply (binary_round_aux_exact false p 0); unfold emin, prec, emax; fold d; lia.
  - replace (53 - Zpos d) with (Zpos k) by lia.
    rewrite <- iter_xO_value. cbn [Z.to_pos]. symmetry.
    apply (binary_round_aux_exact false); unfold emin, prec, emax.
    + rewrite iter_xO_digits. fold d. lia.
    + lia.
  - replace (53 - Zpos d) with 0 by lia. rewrite Z.mul_1_r. cbn [Z.to_pos].
    symmetry.
    apply (binary_round_aux_exact true p 0); unfold emin, prec, emax; fold d; lia.
  - replace (53 - Zpos d) with (Zpos k) by lia.
    rewrite <- iter_xO_value. cbn [Z.to_pos]. symmetry.
    apply (binary_round_aux_exact true); unfold emin, prec, emax.
    + rewrite iter_xO_digits. fold d. lia.
    + lia.
Qed.

(** For an integer of at most 53 bits, rounding to no decimals follows
    the rule of the other numbers of decimals: [integer z] is the double
    nearest to [z / 1]. *)
Lemma shiftl_xO (p k : positive) :
  Z.shiftl (Zpos p) (Zpos k) = Zpos (Pos.iter xO p k).
Proof.
  cbn [Z.shiftl]. symmetry.
  apply (Pos.iter_swap_gen _ _ Zpos xO (Z.mul 2)). reflexivity.
Qed.

Lemma div_eucl_one (a : Z) : Z.div_eucl a 1 = (a, 0).
Proof.
  pose proof (Z.div_1_r a) as Hq. pose proof (Z.mod_1_r a) as Hr.
  unfold Z.div, Z.modulo in Hq, Hr.
  destruct (Z.div_eucl a 1) as [q r]. cbn in Hq, Hr. congruence.
Qed.

Lemma nearest_one (s : bool) (p : positive) :
  Zpos (digits2_pos p) <= prec ->
  div (S754_finite s p 0) (S754_finite false 1 0) = normal s p.
Proof.
  intros Hd. unfold normal. rewrite (proj2 (Z.leb_le _ _) Hd).
  unfold div, SFdiv, SFdiv_core_binary, fexp, emin.
  cbn [Zdigits2 digits2_pos]. set (d := digits2_pos p) in *.
  unfold prec, emax in *. rewrite !Z.add_0_r, Z.sub_0_r.
  assert (Hpos : 0 < Zpos d) by lia.
  replace (Z.min (Z.max (Zpos d - 1 - 53) (3 - 1024 - 53)) 0)
    with (Zpos d - 54) by lia.
  replace (0 - (Zpos d - 54)) with (54 - Zpos d) by lia.
  destruct (54 - Zpos d) as [| k | k] eqn:Ek; try lia.
  rewrite shiftl_xO, div_eucl_one.
  change (new_location 1 0) with loc_Exact.
  rewrite xorb_false_r.
  assert (Hk : exists q, Pos.iter xO p k = xO q
                         /\ Zpos q = Zpos p * 2 ^ (53 - Zpos d)
                         /\ Zpos (digits2_pos q) = 53).
  { destruct (Pos.eq_dec k 1%positive) as [-> | Hne].
    - exists p. split; [reflexivity |]. fold d.
      replace (53 - Zpos d) with 0 by lia. split; lia.
    - destruct (Pos.succ_pred_or k) as [-> | Hs]; [congruence |].
      exists (Pos.iter xO p (Pos.pred k)). split.
      + rewrite <- Hs at 1. apply Pos.iter_succ.
      + rewrite iter_xO_value, iter_xO_digits. fold d.
        assert (Zpos (Pos.pred k) = 53 - Zpos d) by lia.
        split; [congruence | lia]. }
  destruct Hk as (q & Hq & Hv & Hdq). rewrite Hq.
  unfold binary_round_aux, shr_fexp, fexp, emin.
  cbn [Zdigits2 shr_record_of_loc digits2_pos]. rewrite Pos2Z.inj_succ, Hdq.
  replace (Z.max (Z.succ 53 + (Zpos d - 54) - 53) (3 - 1024 - 53) - (Zpos d - 54))
    with 1 by lia.
  cbn [shr SpecFloat.iter_pos shr_1 orb fst snd shr_m loc_of_shr_record
         round_nearest_even Zdigits2].
  rewrite Hdq.
  replace (Z.max (53 + (Zpos d - 54 + 1) - 53) (3 - 1024 - 53) - (Zpos d - 54 + 1))
    with 0 by lia.
  cbn [shr shr_m].
  destruct (Zpos d - 54 + 1 <=? 1024 - 53) eqn:E; [| apply Z.leb_gt in E; lia].
  rewrite <- Hv. cbn [Z.to_pos]. f_equal. lia.
Qed.

Lemma integer_nearest (z : Z) : Z.abs z < 2 ^ prec -> integer z = nearest z 1.
Proof.
  intros Hz. destruct z as [| p | p]; [reflexivity | |];
    unfold integer, nearest; cbn [exact]; symmetry; apply nearest_one;
    pose proof (digits2_pos_bounds p) as [Hlo Hhi];
    (destruct (Z.le_gt_cases (Zpos (digits2_pos p)) prec) as [H | H]; trivial;
     assert (2 ^ prec <= 2 ^ (Zpos (digits2_pos p) - 1))
       by (apply Z.pow_le_mono_r; unfold prec in *; lia);
     cbn [Z.abs] in Hz; lia).
Qed.

(** *** Some doubles, by sign, mantissa and exponent *)

Example literal_values :
  decimal 307 1 = S754_finite false 8641281785017139 (-48)
  /\ decimal 3 1 = S754_finite false 5404319552844595 (-54)
  /\ decimal 8333333333333334 16 = S754_finite false 7505999378950827 (-53)
  /\ of_Z 100 = S754_finite false 7036874417766400 (-46)
  /\ of_Z 12 = S754_finite false 6755399441055744 (-49)
  /\ nearest 41 80 = S754_finite false 4616189618054758 (-53)
  /\ add (decimal 1 1) (decimal 2 1) = S754_finite false 5404319552844596 (-54)
  /\ mul (decimal 8333333333333334 16) (of_Z 15) = decimal 125 1
  /\ py_round (decimal 125 1) 0 = of_Z 12
  /\ py_round (decimal 2675 3) 2 = decimal 267 2
  /\ py_round (decimal (-3) 1) 0 = S754_zero true.
Proof. repeat split; vm_compute; reflexivity. Qed.

(** *** The order on valid doubles is [SpecFloat]'s *)

Lemma Qcompare_inject (a b : Z) : (inject_Z a ?= inject_Z b)%Q = (a ?= b).
Proof. unfold Qcompare. cbn. now rewrite !Z.mul_1_r. Qed.

Lemma Qcompare_scale (a b c : Q) :
  (0 < c)%Q -> (a * c ?= b * c)%Q = (a ?= b)%Q.
Proof.
  intros Hc.
  destruct (Qcompare_spec a b) as [H | H | H];
    destruct (Qcompare_spec (a * c) (b * c)) as [H' | H' | H'];
    trivial; exfalso.
  - rewrite H in H'. now apply Qlt_irrefl in H'.
  - rewrite H in H'. now apply Qlt_irrefl in H'.
  - apply Qmult_inj_r in H'; [| lra]. rewrite H' in H. now apply Qlt_irrefl in H.
  - apply Qmult_lt_r in H'; trivial. lra.
  - apply Qmult_inj_r in H'; [| lra]. rewrite H' in H. now apply Qlt_irrefl in H.
  - apply Qmult_lt_r in H'; trivial. lra.
Qed.

(** The value of a finite double, scaled to an integer. *)
Lemma to_Q_scaled (s : bool) (m : positive) (e K : Z) :
  0 <= K -> 0 <= e + K ->
  (to_Q (S754_finite s m e) * inject_Z (2 ^ K)
   == inject_Z (cond_Zopp s (Zpos m) * 2 ^ (e + K)))%Q.
Proof.
  intros HK He. unfold to_Q. destruct (0 <=? e) eqn:E.
  - apply Z.leb_le in E. rewrite <- inject_Z_mult, Z.pow_add_r by lia.
    now rewrite Z.mul_assoc.
  - apply Z.leb_gt in E.
    assert (Hp : 0 < 2 ^ (- e)) by (apply pow2_pos; lia).
    unfold Qeq, Qmult, inject_Z. cbn [Qnum Qden].
    rewrite Pos.mul_1_r, Z.mul_1_r, Z2Pos.id by lia.
    replace K with (e + K + - e) at 1 by lia.
    rewrite Z.pow_add_r by lia. ring.
Qed.

Lemma valid_finite (s : bool) (m : positive) (e : Z) :
  valid_binary prec emax (S754_finite s m e) = true ->
  -1074 <= e <= 971
  /\ Zpos (digits2_pos m) <= 53
  /\ (-1074 < e -> Zpos (digits2_pos m) = 53).
Proof.
  cbn [valid_binary]. unfold bounded, canonical_mantissa, fexp, emin, prec, emax.
  intros H. apply andb_prop in H as [H1 H2].
  apply Z.eqb_eq in H1. apply Z.leb_le in H2. lia.
Qed.

(** Between valid doubles, a smaller exponent means a smaller magnitude. *)
Lemma magnitude_lt (m1 m2 : positive) (e1 e2 : Z) :
  valid_binary prec emax (S754_finite false m1 e1) = true ->
  valid_binary prec emax (S754_finite false m2 e2) = true ->
  e1 < e2 ->
  Zpos m1 * 2 ^ (e1 + 1074) < Zpos m2 * 2 ^ (e2 + 1074).
Proof.
  intros H1 H2 He.
  apply valid_finite in H1 as (Hr1 & Hd1 & _).
  apply valid_finite in H2 as (Hr2 & _ & Hd2).
  pose proof (digits2_pos_bounds m1) as [_ Hm1].
  pose proof (digits2_pos_bounds m2) as [Hm2 _].
  rewrite Hd2 in Hm2 by lia. change (2 ^ (53 - 1)) with (2 ^ 52) in Hm2.
  assert (Hm1' : Zpos m1 < 2 ^ 53).
  { eapply Z.lt_le_trans; [exact Hm1 |]. apply Z.pow_le_mono_r; lia. }
  assert (Ha : 0 < 2 ^ (e1 + 1074)) by (apply pow2_pos; lia).
  assert (Hb : 0 < 2 ^ (e2 + 1074)) by (apply pow2_pos; lia).
  assert (Hstep : 2 ^ 53 * 2 ^ (e1 + 1074) <= 2 ^ 52 * 2 ^ (e2 + 1074)).
  { rewrite <- !Z.pow_add_r by lia. apply Z.pow_le_mono_r; lia. }
  nia.
Qed.

Lemma compare_finite (s1 s2 : bool) (m1 m2 : positive) (e1 e2 : Z) :
  -1074 <= e1 -> -1074 <= e2 ->
  compare (S754_finite s1 m1 e1) (S754_finite s2 m2 e2)
  = Some (cond_Zopp s1 (Zpos m1) * 2 ^ (e1 + 1074)
          ?= cond_Zopp s2 (Zpos m2) * 2 ^ (e2 + 1074)).
Proof.
  intros H1 H2. cbn [compare]. f_equal.
  rewrite <- Qcompare_inject, <- (Qcompare_scale _ _ (inject_Z (2 ^ 1074)))
    by reflexivity.
  now rewrite !to_Q_scaled by lia.
Qed.

(** On the doubles that [SpecFloat] calls valid (mantissa and exponent
    in normal form) the order defined on exact values is [SFcompare]. *)
Lemma compare_valid (x y : float) :
  valid_binary prec emax x = true -> valid_binary prec emax y = true ->
  compare x y = SFcompare x y.
Proof.
  intros Hx Hy.
  destruct x as [sx | sx | | sx mx ex], y as [sy | sy | | sy my ey];
    try reflexivity.
  - cbn [compare SFcompare]. f_equal.
    pose proof (to_Q_sign sy my ey) as H. cbn [to_Q] in *.
    destruct sy; [apply Qgt_alt | apply Qlt_alt]; exact H.
  - cbn [compare SFcompare]. f_equal.
    pose proof (to_Q_sign sx mx ex) as H. cbn [to_Q] in *.
    destruct sx; [apply Qlt_alt | apply Qgt_alt]; exact H.
  - pose proof (valid_finite _ _ _ Hx) as (Hrx & _ & _).
    pose proof (valid_finite _ _ _ Hy) as (Hry & _ & _).
    rewrite compare_finite by lia. cbn [SFcompare]. f_equal.
    assert (Ha : 0 < 2 ^ (ex + 1074)) by (apply pow2_pos; lia).
    assert (Hb : 0 < 2 ^ (ey + 1074)) by (apply pow2_pos; lia).
    destruct sx, sy; cbn [cond_Zopp].
    + destruct (Z.compare_spec ex ey) as [-> | He | He].
      * change (Pos.compare_cont Eq mx my) with (mx ?= my)%positive.
        destruct (Pos.compare_spec mx my) as [-> | H | H]; cbn [CompOpp].
        -- apply Z.compare_eq_iff. reflexivity.
        -- apply Z.compare_gt_iff. nia.
        -- apply Z.compare_lt_iff. nia.
      * apply Z.compare_gt_iff.
        pose proof (magnitude_lt mx my ex ey Hx Hy He). lia.
      * apply Z.compare_lt_iff.
        pose proof (magnitude_lt my mx ey ex Hy Hx He). lia.
    + apply Z.compare_lt_iff. nia.
    + apply Z.compare_gt_iff. nia.
    + destruct (Z.compare_spec ex ey) as [-> | He | He].
      * change (Pos.compare_cont Eq mx my) with (mx ?= my)%positive.
        destruct (Pos.compare_spec mx my) as [-> | H | H].
        -- apply Z.compare_eq_iff. reflexivity.
        -- apply Z.compare_lt_iff. nia.
        -- apply Z.compare_gt_iff. nia.
      * apply Z.compare_lt_iff. now apply magnitude_lt.
      * apply Z.compare_gt_iff. now apply magnitude_lt.
Qed.

Lemma ltb_valid (x y : float) :
  valid_binary prec emax x = true -> valid_binary prec emax y = true ->
  ltb x y = SFltb x y.
Proof. intros Hx Hy. unfold ltb, SFltb. now rewrite compare_valid. Qed.

Lemma leb_valid (x y : float) :
  valid_binary prec emax x = true -> valid_binary prec emax y = true ->
  leb x y = SFleb x y.
Proof. intros Hx Hy. unfold leb, SFleb. now rewrite compare_valid. Qed.

End Conformance.

(** ** Clamping and rounding in double precision *)

Section Clamping.

Import Json Binary64 Reference64.

Lemma Qle_inject (z c : Z) : (inject_Z z <= inject_Z c)%Q -> z <= c.
Proof. now rewrite <- Zle_Qle. Qed.

(** Rounding and clamping to [0, 100] commute, on every double: the
    order of the source (round, then clamp) gives the double that the
    specification's order gives. *)
Lemma round_clamp_double (s : float) :
  py_min (of_Z 100) (py_max (S754_zero false) (py_round s 0))
  = py_round (clamp (S754_zero false) (of_Z 100) s) 0.
Proof.
  destruct (float_view s) as [Hs | [-> | [-> | ->]]]; try reflexivity.
  destruct (py_round_0_value s Hs) as [Hr Hv].
  pose proof (round_half_even_range (to_Q s)) as [R1 R2].
  pose proof (round_half_even_mono (to_Q s) 0) as M1.
  pose proof (round_half_even_mono 0 (to_Q s)) as M2.
  pose proof (round_half_even_mono (to_Q s) 100) as M3.
  pose proof (round_half_even_mono 100 (to_Q s)) as M4.
  change 0%Q with (inject_Z 0) in M1, M2.
  change 100%Q with (inject_Z 100) in M3, M4.
  rewrite round_half_even_Z in M1, M2, M3, M4.
  pose proof (py_round_0_zero s Hs) as A.
  pose proof (py_round_0_hundred s Hs) as B.
  set (z := round_half_even (to_Q s)) in *.
  set (r := py_round s 0) in *.
  unfold py_min, py_max, clamp.
  rewrite (ltb_real (S754_zero false) r eq_refl Hr),
    (ltb_real (S754_zero false) s eq_refl Hs),
    (ltb_real s (of_Z 100) Hs eq_refl).
  assert (V100 : (to_Q (of_Z 100) == 100)%Q) by reflexivity.
  assert (V0 : to_Q (S754_zero false) = 0%Q) by reflexivity.
  rewrite V0.
  assert (Hq : (inject_Z 0 == 0 /\ inject_Z 100 == 100)%Q) by (split; reflexivity).
  destruct Hq as [I0 I100].
  destruct (Qltb_cases 0 (to_Q r)) as [[-> Hr0] | [-> Hr0]].
  - rewrite (ltb_real r (of_Z 100) Hr eq_refl).
    destruct (Qltb_cases (to_Q r) (to_Q (of_Z 100))) as [[-> Hr1] | [-> Hr1]];
      destruct (Qltb_cases 0 (to_Q s)) as [[-> Hs0] | [-> Hs0]];
      try destruct (Qltb_cases (to_Q s) (to_Q (of_Z 100))) as [[-> Hs1] | [-> Hs1]];
      try reflexivity.
    + exfalso. assert (100 <= z) by (apply M4; lra).
      assert (inject_Z z < inject_Z 100)%Q by lra.
      rewrite <- Zlt_Qlt in *. lia.
    + exfalso. assert (z <= 0) by (apply M1; lra).
      assert (inject_Z 0 < inject_Z z)%Q by lra.
      rewrite <- Zlt_Qlt in *. lia.
    + symmetry. apply B; [lra |].
      assert (z <= 100) by (apply M3; lra).
      assert (100 <= z) by (apply Qle_inject; lra). lia.
    + exfalso. assert (z <= 0) by (apply M1; lra).
      assert (inject_Z 0 < inject_Z z)%Q by lra.
      rewrite <- Zlt_Qlt in *. lia.
  - change (ltb (S754_zero false) (of_Z 100)) with true. cbv iota.
    destruct (Qltb_cases 0 (to_Q s)) as [[-> Hs0] | [-> Hs0]];
      try destruct (Qltb_cases (to_Q s) (to_Q (of_Z 100))) as [[-> Hs1] | [-> Hs1]];
      try reflexivity.
    + symmetry. apply A; [lra |].
      assert (0 <= z) by (apply M2; lra).
      assert (z <= 0) by (apply Qle_inject; lra). lia.
    + exfalso. assert (100 <= z) by (apply M4; lra).
      assert (z <= 0) by (apply Qle_inject; lra). lia.
Qed.

(** [max(lo, min(hi, x))] is the clamp of [x], for a number [x]. *)
Lemma py_clamp_is_clamp_double (lo hi x : float) :
  is_real lo = true -> is_real hi = true -> (to_Q lo < to_Q hi)%Q ->
  is_nan x = false ->
  py_max lo (py_min hi x) = clamp lo hi x.
Proof.
  intros Hlo Hhi Hlt Hx. unfold py_max, py_min, clamp.
  assert (Hlh : ltb lo hi = true)
    by (rewrite ltb_real by trivial; now apply Qltb_lt).
  destruct (float_view x) as [Hr | [-> | [-> | ->]]]; try discriminate.
  - rewrite (ltb_real x hi), (ltb_real lo x) by trivial.
    destruct (Qltb_cases (to_Q x) (to_Q hi)) as [[-> H1] | [-> H1]].
    + rewrite (ltb_real lo x) by trivial. reflexivity.
    + rewrite Hlh.
      destruct (Qltb_cases (to_Q lo) (to_Q x)) as [[-> H2] | [-> H2]];
        [reflexivity | exfalso; lra].
  - assert (H1 : ltb (S754_infinity false) hi = false) by (now destruct hi).
    assert (H2 : ltb lo (S754_infinity false) = true) by (now destruct lo).
    now rewrite H1, H2, Hlh.
  - assert (H1 : ltb (S754_infinity true) hi = true) by (now destruct hi).
    assert (H2 : ltb lo (S754_infinity true) = false) by (now destruct lo).
    now rewrite H1, H2.
Qed.

End Clamping.

Section Aggregator64.

Import Json Binary64 Reference64.

Lemma getitem_double (d : gmap string number) (key : string) (v : number) :
  d !! key = Some v -> Binary64.getitem d key = Ok v.
Proof. intros H. unfold Binary64.getitem. now rewrite H. Qed.

Lemma contains_double (d : gmap string number) (key : string) (v : number) :
  d !! key = Some v -> Binary64.contains d key = true.
Proof.
  intros H. unfold Binary64.contains. apply bool_decide_eq_true_2. rewrite H. eauto.
Qed.

(** Comparisons of an operand [x] that stands for a real number with the
    thresholds of the tables, as comparisons of rationals. *)
Ltac real_order :=
  repeat rewrite ltb_real by (assumption || reflexivity);
  repeat rewrite leb_real by (assumption || reflexivity).

Ltac closed_values x :=
  generalize (to_Q x); intros ?;
  repeat match goal with
  | |- context [to_Q ?c] =>
      let k := fresh "k" in set (k := to_Q c); vm_compute in k; subst k
  end.

Ltac split_order :=
  repeat match goal with
  | |- context [Qltb ?a ?b] =>
      let H := fresh "H" in destruct (Qltb_cases a b) as [[-> H] | [-> H]]
  | |- context [Qle_bool ?a ?b] =>
      let H := fresh "H" in destruct (Qle_bool_cases a b) as [[-> H] | [-> H]]
  end.

Ltac band_double v :=
  unfold add_points, matching, speech_rate_bands, pause_count_bands,
    vocabulary_richness_bands, fluency_score_bands,
    below, above, closed_open, open_closed, lt, le;
  cbn [List.filter fst snd];
  let x := fresh "x" in
  set (x := operand v); clearbody x;
  cbn [operand];
  destruct (float_view x) as [Hx | [-> | [-> | ->]]]; [| reflexivity ..];
  real_order; closed_values x; split_order;
  cbn [andb foldl snd]; try reflexivity; exfalso; lra.

Lemma speech_rate_band_double (total : float) (v : number) :
  (if lt v (Int 80) then add total (of_Z 25)
   else if lt v (Int 100) then add total (of_Z 15)
   else if lt (Int 200) v then add total (of_Z 10)
   else total)
  = add_points speech_rate_bands v total.
Proof. band_double v. Qed.

Lemma pause_count_band_double (total : float) (v : number) :
  (if lt (Int 15) v then add total (of_Z 20)
   else if lt (Int 10) v then add total (of_Z 10)
   else if lt (Int 5) v then add total (of_Z 5)
   else total)
  = add_points pause_count_bands v total.
Proof. band_double v. Qed.

Lemma vocabulary_richness_band_double (total : float) (v : number) :
  (if lt v (Float (decimal 3 1)) then add total (of_Z 25)
   else if lt v (Float (decimal 4 1)) then add total (of_Z 15)
   else if lt v (Float (decimal 5 1)) then add total (of_Z 5)
   else total)
  = add_points vocabulary_richness_bands v total.
Proof. band_double v. Qed.

Lemma fluency_score_band_double (total : float) (v : number) :
  (if lt v (Int 3) then add total (of_Z 25)
   else if lt v (Int 5) then add total (of_Z 15)
   else if lt v (Int 7) then add total (of_Z 5)
   else total)
  = add_points fluency_score_bands v total.
Proof. band_double v. Qed.

Ltac at_most_one v :=
  unfold matching, speech_rate_bands, pause_count_bands,
    vocabulary_richness_bands, fluency_score_bands,
    below, above, closed_open, open_closed, lt, le;
  cbn [List.filter fst snd];
  let x := fresh "x" in
  set (x := operand v); clearbody x;
  cbn [operand];
  destruct (float_view x) as [Hx | [-> | [-> | ->]]];
    [| vm_compute; lia ..];
  real_order; closed_values x; split_order;
  cbn [andb length]; try lia; exfalso; lra.

Lemma matching_at_most_one_double (v : number) :
  (length (matching speech_rate_bands v) <= 1
   /\ length (matching pause_count_bands v) <= 1
   /\ length (matching vocabulary_richness_bands v) <= 1
   /\ length (matching fluency_score_bands v) <= 1)%nat.
Proof. repeat split; at_most_one v. Qed.

(** The source's aggregator is the reference aggregate, double for
    double. *)
Lemma risk_score_double (m : gmap string number) (f : FeatureVector) :
  represents m f -> Binary64._calculate_risk_score m = Ok (aggregate f).
Proof.
  intros (H1 & H2 & H3 & H4 & _ & _ & H7 & H8).
  unfold Binary64._calculate_risk_score.
  rewrite (getitem_double _ _ _ H1), bind_Ok, (getitem_double _ _ _ H2), bind_Ok,
    (getitem_double _ _ _ H3), bind_Ok, (getitem_double _ _ _ H4), bind_Ok.
  rewrite (contains_double _ _ _ H8), (getitem_double _ _ _ H8), bind_Ok.
  cbn [plus times]. rewrite bind_Ok.
  rewrite (contains_double _ _ _ H7), (getitem_double _ _ _ H7), bind_Ok.
  cbn [plus times]. rewrite bind_Ok.
  rewrite round_clamp_double. unfold aggregate, total.
  now rewrite speech_rate_band_double, pause_count_band_double,
    vocabulary_richness_band_double, fluency_score_band_double.
Qed.

(** A clamped double stands for a real number of the interval. *)
Lemma clamp_double_range (lo hi x : float) :
  is_real lo = true -> is_real hi = true -> (to_Q lo <= to_Q hi)%Q ->
  is_real (clamp lo hi x) = true
  /\ (to_Q lo <= to_Q (clamp lo hi x) <= to_Q hi)%Q.
Proof.
  intros Hlo Hhi Hle. unfold clamp.
  destruct (ltb lo x) eqn:E1; [| split; [trivial | lra]].
  destruct (ltb x hi) eqn:E2; [| split; [trivial | lra]].
  destruct (float_view x) as [Hx | [-> | [-> | ->]]].
  - rewrite ltb_real in E1, E2 by trivial.
    apply Qltb_lt in E1, E2. split; [trivial | lra].
  - now destruct lo.
  - now destruct hi.
  - now destruct lo.
Qed.

(** The aggregate is a whole number of [0, 100], and the integer nearest
    to the clamped total. *)
Lemma aggregate_whole_double (f : FeatureVector) :
  let clamped := clamp (S754_zero false) (of_Z 100) (total f) in
  exists z, 0 <= z <= 100
    /\ is_real (aggregate f) = true
    /\ (to_Q (aggregate f) == inject_Z z)%Q
    /\ is_real clamped = true
    /\ (0 <= to_Q clamped <= 100)%Q
    /\ (inject_Z z - (1 # 2) <= to_Q clamped <= inject_Z z + (1 # 2))%Q.
Proof.
  intros clamped.
  destruct (clamp_double_range (S754_zero false) (of_Z 100) (total f)
              eq_refl eq_refl) as [Hc Hr]; [discriminate |].
  fold clamped in Hc, Hr.
  assert (V100 : (to_Q (of_Z 100) == 100)%Q) by reflexivity.
  assert (V0 : to_Q (S754_zero false) = 0%Q) by reflexivity.
  rewrite V0, V100 in Hr.
  destruct (py_round_0_value clamped Hc) as [Ha Hv].
  exists (round_half_even (to_Q clamped)).
  pose proof (round_half_even_mono 0 (to_Q clamped) (proj1 Hr)) as M1.
  pose proof (round_half_even_mono (to_Q clamped) 100 (proj2 Hr)) as M2.
  change 0%Q with (inject_Z 0) in M1. change 100%Q with (inject_Z 100) in M2.
  rewrite round_half_even_Z in M1, M2.
  repeat split; trivial; try lia; try apply Hr; apply round_half_even_range.
Qed.

End Aggregator64.

Section SpeechRate64.

Import Json Binary64 Reference64.

Lemma ltb_not_leb (x y : float) : ltb x y = true -> leb y x = false.
Proof.
  unfold ltb, leb.
  destruct x as [sx | [] | | sx mx ex], y as [sy | [] | | sy my ey];
    cbn [compare]; try discriminate; trivial;
    rewrite <- Qcompare_antisym;
    match goal with |- context [(?a ?= ?b)%Q] => now destruct (a ?= b)%Q end.
Qed.

Lemma estimate_is_clamp_double (words : list string) :
  py_max (of_Z 60) (py_min (of_Z 200) (mul (of_Z (len words)) (of_Z 2)))
  = estimated_rate (len words).
Proof.
  apply py_clamp_is_clamp_double; try reflexivity.
  change (of_Z 2) with (S754_finite false 4503599627370496 (-51)).
  apply mul_finite_not_nan, of_Z_not_nan.
Qed.

Lemma positive_not_zero (d : number) :
  lt (Int 0) d = true ->
  match d with
  | Int z => (z =? 0) = false
  | Float x => is_zero x = false
  end.
Proof.
  unfold lt. destruct d as [z | x]; cbn [operand].
  - destruct z; [discriminate | reflexivity ..].
  - destruct x; [discriminate | reflexivity ..].
Qed.

Lemma speech_rate_no_duration (words : list string)
    (metadata : option (gmap string (value number))) :
  supplied_duration metadata = None ->
  Binary64._calculate_speech_rate words metadata
  = Ok (estimated_rate (len words)).
Proof.
  intros H. unfold Binary64._calculate_speech_rate.
  rewrite estimate_is_clamp_double.
  destruct metadata as [md |]; [| reflexivity].
  cbn in H. rewrite H. now destruct (size md =? 0)%nat.
Qed.

Lemma speech_rate_duration (words : list string)
    (metadata : option (gmap string (value number))) (v : value number) (d : number) :
  supplied_duration metadata = Some v -> as_number v = Some d ->
  Binary64._calculate_speech_rate words metadata
  = Ok (measured_rate (len words)
          (if le d (Int 0) then Float (of_Z 30) else d))
  \/ (le d (Int 0) = false /\ lt (Int 0) d = false).
Proof.
  intros H Hd. destruct metadata as [md |]; [| discriminate].
  cbn in H. unfold Binary64._calculate_speech_rate. rewrite H.
  destruct (size md =? 0)%nat eqn:Hsize.
  { apply Nat.eqb_eq, map_size_empty_iff in Hsize. subst md.
    rewrite lookup_empty in H. discriminate. }
  unfold le_zero. rewrite Hd, bind_Ok.
  destruct (le d (Int 0)) eqn:Hle.
  - left. reflexivity.
  - destruct (lt (Int 0) d) eqn:Hlt; [left | right; auto].
    apply positive_not_zero in Hlt. unfold true_div. rewrite Hd.
    destruct d as [z | x]; rewrite Hlt; reflexivity.
Qed.

End SpeechRate64.

(** ** The risk aggregator against the additive reference rule *)

Section Aggregator.

Import Reference.

Ltac split_comparisons :=
  repeat match goal with
  | |- context [Qltb ?a ?b] =>
      let H := fresh "H" in
      destruct (Qltb_cases a b) as [[-> H] | [-> H]]
  | |- context [Qle_bool ?a ?b] =>
      let H := fresh "H" in
      destruct (Qle_bool_cases a b) as [[-> H] | [-> H]]
  end.

Ltac band_equation :=
  unfold points, matching, below, above, closed_open, open_closed;
  cbn [List.filter fst snd foldr];
  split_comparisons; cbn [List.filter fst snd foldr andb]; lra.

Lemma speech_rate_band (r v : Q) :
  ((if Qltb v 80 then r + 25
    else if Qltb v 100 then r + 15
    else if Qltb 200 v then r + 10 else r)
   == r + points speech_rate_bands v)%Q.
Proof. unfold speech_rate_bands. band_equation. Qed.

Lemma pause_count_band (r v : Q) :
  ((if Qltb 15 v then r + 20
    else if Qltb 10 v then r + 10
    else if Qltb 5 v then r + 5 else r)
   == r + points pause_count_bands v)%Q.
Proof. unfold pause_count_bands. band_equation. Qed.

Lemma vocabulary_richness_band (r v : Q) :
  ((if Qltb v (3 # 10) then r + 25
    else if Qltb v (4 # 10) then r + 15
    else if Qltb v (5 # 10) then r + 5 else r)
   == r + points vocabulary_richness_bands v)%Q.
Proof. unfold vocabulary_richness_bands. band_equation. Qed.

Lemma fluency_score_band (r v : Q) :
  ((if Qltb v 3 then r + 25
    else if Qltb v 5 then r + 15
    else if Qltb v 7 then r + 5 else r)
   == r + points fluency_score_bands v)%Q.
Proof. unfold fluency_score_bands. band_equation. Qed.

Lemma py_clamp_inject (z : Z) :
  py_min 100 (py_max 0 (inject_Z z)) = inject_Z (Z.min 100 (Z.max 0 z)).
Proof.
  unfold py_min, py_max.
  destruct (Qltb_cases 0 (inject_Z z)) as [[-> H] | [-> H]].
  - change 0%Q with (inject_Z 0) in H. rewrite <- Zlt_Qlt in H.
    destruct (Qltb_cases (inject_Z z) 100) as [[-> H'] | [-> H']];
      change 100%Q with (inject_Z 100) in *;
      [rewrite <- Zlt_Qlt in H' | rewrite <- Zle_Qle in H']; f_equal; lia.
  - change 0%Q with (inject_Z 0) in H. rewrite <- Zle_Qle in H.
    replace (Z.max 0 z) with 0 by lia. reflexivity.
Qed.

Lemma round_clamp (x : Q) :
  round_half_even (clamp 0 100 x) = Z.min 100 (Z.max 0 (round_half_even x)).
Proof.
  pose proof (round_half_even_mono x 0) as Hle0.
  pose proof (round_half_even_mono 0 x) as Hge0.
  pose proof (round_half_even_mono x 100) as Hle100.
  pose proof (round_half_even_mono 100 x) as Hge100.
  change (round_half_even 0) with 0 in *.
  change (round_half_even 100) with 100 in *.
  unfold clamp.
  destruct (Qltb_cases x 0) as [[-> H] | [-> H]].
  - change (round_half_even 0) with 0.
    assert (round_half_even x <= 0) by (apply Hle0; lra). lia.
  - specialize (Hge0 H).
    destruct (Qltb_cases 100 x) as [[-> H'] | [-> H']].
    + change (round_half_even 100) with 100.
      assert (100 <= round_half_even x) by (apply Hge100; lra). lia.
    + specialize (Hle100 H'). lia.
Qed.

(** The last line of [_calculate_risk_score] rounds and then clamps; the
    reference clamps and then rounds.  Both give the same number. *)
Lemma finish_equation (s t : Q) :
  (s == t)%Q ->
  py_min 100 (py_max 0 (py_round s 0)) = py_round (clamp 0 100 t) 0.
Proof.
  intros H. rewrite !py_round_0, py_clamp_inject, round_clamp.
  now rewrite (round_half_even_comp s t H).
Qed.

Lemma holds_lookup (m : gmap string num) (name : string) (q : Q) :
  holds m name q -> exists v, m !! name = Some v /\ q = to_Q v.
Proof.
  unfold holds. destruct (m !! name) as [v |]; [| discriminate].
  intros [= <-]. now exists v.
Qed.

(** [_calculate_risk_score] reads six of the eight metrics, and on a dict
    that holds them all it computes the reference aggregate. *)
Lemma risk_score_lookups (m : gmap string num) (v1 v2 v3 v4 v5 v6 : num) :
  m !! "speech_rate" = Some v1 ->
  m !! "pause_count" = Some v2 ->
  m !! "vocabulary_richness" = Some v3 ->
  m !! "fluency_score" = Some v4 ->
  m !! "word_finding_difficulty" = Some v5 ->
  m !! "repetition_score" = Some v6 ->
  forall f : FeatureVector,
  speech_rate f = to_Q v1 -> pause_count f = to_Q v2 ->
  vocabulary_richness f = to_Q v3 -> fluency_score f = to_Q v4 ->
  word_finding_difficulty f = to_Q v5 -> repetition_score f = to_Q v6 ->
  _calculate_risk_score m = Ok (aggregate f).
Proof.
  intros L1 L2 L3 L4 L5 L6 f E1 E2 E3 E4 E5 E6.
  unfold _calculate_risk_score.
  rewrite (getitem_Some _ _ _ L1), bind_Ok, (getitem_Some _ _ _ L2), bind_Ok,
    (getitem_Some _ _ _ L3), bind_Ok, (getitem_Some _ _ _ L4), bind_Ok,
    (contains_Some _ _ _ L5), (getitem_Some _ _ _ L5), !bind_Ok,
    (contains_Some _ _ _ L6), (getitem_Some _ _ _ L6), !bind_Ok.
  f_equal. apply finish_equation.
  unfold total. rewrite E1, E2, E3, E4, E5, E6.
  rewrite fluency_score_band, vocabulary_richness_band, pause_count_band,
    speech_rate_band. reflexivity.
Qed.

End Aggregator.

(** ** The feature extractors are total *)

Section Extractors.

Variable self : SpeechAnalyzer.
Variable env : Env.

Lemma len_nonneg {A} (xs : list A) : 0 <= len xs.
Proof. unfold len. lia. Qed.

Lemma max_len_nonzero {A} (xs : list A) :
  ~ (inject_Z (Z.max (len xs) 1) == 0)%Q.
Proof. apply inject_Z_nonzero. pose proof (len_nonneg xs). lia. Qed.

Lemma len_cons_nonzero {A} (x : A) (xs : list A) :
  ~ (inject_Z (len (x :: xs)) == 0)%Q.
Proof. apply inject_Z_nonzero. unfold len. simpl length. lia. Qed.

Lemma duration_nonzero (d : Q) :
  ~ ((if Qle_bool d 0 then 30 else d) == 0)%Q.
Proof.
  destruct (Qle_bool_cases d 0) as [[-> H] | [-> H]]; [discriminate |].
  intros E. rewrite E in H. now apply Qlt_irrefl in H.
Qed.

Lemma speech_rate_total (words : list string) (metadata : option (gmap string num)) :
  exists r, _calculate_speech_rate words metadata = Ok r.
Proof.
  unfold _calculate_speech_rate.
  destruct metadata as [md |]; [| eauto].
  destruct (size md =? 0)%nat; [eauto |].
  destruct (md !! "duration") as [d |]; [| eauto].
  rewrite py_div_ok by apply duration_nonzero. rewrite bind_Ok. eauto.
Qed.

Lemma size_list_to_set_le (words : list string) :
  (size (list_to_set words : gset string) <= length words)%nat.
Proof.
  induction words as [| w words IH]; [now rewrite list_to_set_nil, size_empty |].
  rewrite list_to_set_cons, size_union_alt, size_singleton. simpl length.
  assert (size (list_to_set words ∖ {[w]} : gset string)
          <= size (list_to_set words : gset string))%nat
    by (apply subseteq_size; intros x Hx; apply elem_of_difference in Hx; tauto).
  lia.
Qed.

Lemma ratio_range (a b : Z) :
  0 <= a <= b -> 0 < b -> (0 <= inject_Z a / inject_Z b <= 1)%Q.
Proof.
  intros Ha Hb.
  assert (Hb' : (0 < inject_Z b)%Q)
    by (change 0%Q with (inject_Z 0); now rewrite <- Zlt_Qlt).
  assert (Ha0 : (0 <= inject_Z a)%Q)
    by (change 0%Q with (inject_Z 0); rewrite <- Zle_Qle; lia).
  assert (Hab : (inject_Z a <= inject_Z b)%Q) by (rewrite <- Zle_Qle; lia).
  split.
  - apply Qle_shift_div_l; trivial; lra.
  - apply Qle_shift_div_r; trivial; lra.
Qed.

Lemma vocabulary_richness_range (words : list string) :
  exists v, _calculate_vocabulary_richness words = Ok v /\ (0 <= v <= 1)%Q.
Proof.
  destruct words as [| w words].
  - exists 0%Q. split; [reflexivity | lra].
  - unfold _calculate_vocabulary_richness.
    rewrite py_div_ok by apply len_cons_nonzero. rewrite bind_Ok.
    eexists. split; [reflexivity |].
    pose proof (size_list_to_set_le (w :: words)) as Hsz.
    assert (Hr : (0 <= inject_Z (Z.of_nat (size (list_to_set (w :: words) : gset string)))
                      / inject_Z (len (w :: words)) <= 1)%Q).
    { apply ratio_range; unfold len; simpl length in *; lia. }
    split.
    + assert (E : (py_round 0 3 == 0)%Q) by reflexivity.
      rewrite <- E. now apply py_round_mono.
    + assert (E : (py_round 1 3 == 1)%Q) by reflexivity.
      rewrite <- E. now apply py_round_mono.
Qed.

Lemma repetitions_total (words : list string) :
  exists r, _analyze_repetitions words = Ok r.
Proof.
  destruct words as [| w words]; [eexists; reflexivity |].
  unfold _analyze_repetitions.
  rewrite py_div_ok by apply max_len_nonzero. eauto.
Qed.

Lemma word_finding_total (transcript : string) (words : list string) :
  exists r, _analyze_word_finding self env transcript words = Ok r.
Proof.
  unfold _analyze_word_finding.
  rewrite py_div_ok by apply max_len_nonzero. rewrite bind_Ok. eauto.
Qed.

Lemma fluency_score_range (transcript : string) (words : list string) :
  exists v, _calculate_fluency_score self env transcript words = Ok v
            /\ (0 <= v <= 10)%Q.
Proof.
  unfold _calculate_fluency_score.
  rewrite py_div_ok by apply max_len_nonzero. rewrite bind_Ok.
  destruct (repetitions_total words) as [rep ->]. rewrite bind_Ok.
  destruct (word_finding_total transcript words) as [wfd ->]. rewrite bind_Ok.
  eexists. split; [reflexivity |]. apply py_clamp_range. lra.
Qed.

Lemma semantic_fluency_total (words : list string) :
  exists r, _analyze_semantic_fluency self words = Ok r.
Proof.
  unfold _analyze_semantic_fluency.
  rewrite py_div_ok by apply max_len_nonzero. eauto.
Qed.

Lemma complexity_loop_total (sentences : list string) (acc : Q) :
  exists total,
    foldl (fun acc sentence =>
             total ← acc;
             let words_in_sentence := len (split sentence) in
             q ← py_div (inject_Z words_in_sentence) 15;
             let complexity := py_min q 1 in
             Ok (total + complexity)%Q)
          (Ok acc) sentences = Ok total.
Proof.
  revert acc. induction sentences as [| s sentences IH]; intros acc.
  - now exists acc.
  - cbn [foldl]. rewrite bind_Ok, py_div_ok by discriminate.
    rewrite bind_Ok. apply IH.
Qed.

Lemma syntactic_complexity_total (sentences : list string) :
  exists r, _analyze_syntactic_complexity sentences = Ok r.
Proof.
  destruct sentences as [| s sentences]; [eexists; reflexivity |].
  unfold _analyze_syntactic_complexity.
  destruct (complexity_loop_total (s :: sentences) 0) as [total Ht].
  cbv zeta in Ht. rewrite Ht.
  rewrite bind_Ok, py_div_ok by apply len_cons_nonzero. eauto.
Qed.

End Extractors.

(** ** The explanation generator *)

Section Explanation.

Variable env : Env.

Lemma explanation_total (risk_score : Q) (m : gmap string num) (v1 v2 v3 v4 : num) :
  m !! "speech_rate" = Some v1 ->
  m !! "pause_count" = Some v2 ->
  m !! "vocabulary_richness" = Some v3 ->
  m !! "fluency_score" = Some v4 ->
  exists text, _generate_explanation env risk_score m = Ok text.
Proof.
  intros L1 L2 L3 L4. unfold _generate_explanation.
  rewrite (getitem_Some _ _ _ L1), bind_Ok, (getitem_Some _ _ _ L2), bind_Ok,
    (getitem_Some _ _ _ L3), bind_Ok, (getitem_Some _ _ _ L4), bind_Ok.
  eexists. reflexivity.
Qed.

(** Without a triggered condition the explanation is the tier sentence
    alone: the list of sentences is never empty when the "all normal"
    sentence is considered. *)
Lemma explanation_quiet (risk_score : Q) (m : gmap string num) (v1 v2 v3 v4 : num) :
  m !! "speech_rate" = Some v1 ->
  m !! "pause_count" = Some v2 ->
  m !! "vocabulary_richness" = Some v3 ->
  m !! "fluency_score" = Some v4 ->
  Reference.no_trigger (to_Q v1) (to_Q v2) (to_Q v3) (to_Q v4) ->
  _generate_explanation env risk_score m = Ok (Reference.tier_sentence risk_score).
Proof.
  intros L1 L2 L3 L4 ((H1 & H1') & H2 & H3 & H4). unfold _generate_explanation.
  rewrite (getitem_Some _ _ _ L1), bind_Ok, (getitem_Some _ _ _ L2), bind_Ok,
    (getitem_Some _ _ _ L3), bind_Ok, (getitem_Some _ _ _ L4), bind_Ok.
  rewrite (proj2 (Qltb_ge (to_Q v1) 80) H1), (proj2 (Qltb_ge 200 (to_Q v1)) H1'),
    (proj2 (Qltb_ge 10 (to_Q v2)) H2), (proj2 (Qltb_ge (to_Q v3) (4 # 10)) H3),
    (proj2 (Qltb_ge (to_Q v4) 5) H4).
  unfold Reference.tier_sentence.
  destruct (Qltb risk_score 30); [reflexivity |].
  destruct (Qltb risk_score 70); reflexivity.
Qed.

End Explanation.

(** ** The entry point *)

Section Analyze.

Variable self : SpeechAnalyzer.
Variable env : Env.

Lemma rstrip_truthy (s : string) :
  truthy (rstrip s) = negb (blank s).
Proof.
  induction s as [| c s IH]; [reflexivity |].
  cbn [rstrip blank]. destruct (rstrip s) eqn:E.
  - cbn [truthy] in IH. apply (f_equal negb) in IH.
    rewrite negb_involutive in IH. cbn [negb] in IH. rewrite <- IH.
    rewrite andb_true_r. now destruct (isspace c).
  - cbn [truthy] in *. apply (f_equal negb) in IH.
    rewrite negb_involutive in IH. cbn [negb] in IH. rewrite <- IH.
    now rewrite andb_false_r.
Qed.

Lemma lstrip_blank (s : string) : blank (lstrip s) = blank s.
Proof.
  induction s as [| c s IH]; [reflexivity |].
  cbn [lstrip]. destruct (isspace c) eqn:E.
  - rewrite IH. cbn [blank]. now rewrite E.
  - reflexivity.
Qed.

Lemma strip_truthy (s : string) : truthy (strip s) = negb (blank s).
Proof. unfold strip. now rewrite rstrip_truthy, lstrip_blank. Qed.

(** The guard of [analyze] fires exactly on blank transcripts. *)
Lemma guard_blank (transcript : string) :
  (negb (truthy transcript) || negb (truthy (strip transcript)))%bool
  = blank transcript.
Proof.
  rewrite strip_truthy, negb_involutive.
  destruct transcript; [reflexivity |]. cbn [truthy negb orb]. reflexivity.
Qed.

Lemma analyze_blank (transcript : string) (metadata : option (gmap string num)) :
  blank transcript = true ->
  analyze self env transcript metadata
  = Raise (ValueError "Transcript cannot be empty").
Proof. intros H. unfold analyze. now rewrite guard_blank, H. Qed.

(** On a transcript that is not blank every stage of [analyze] returns,
    and the result is assembled from the stages' values. *)
Lemma analyze_run (transcript : string) (metadata : option (gmap string num)) :
  blank transcript = false ->
  let words := _tokenize_words (_clean_text transcript) in
  let pc := _estimate_pause_count transcript in
  exists sr vr fl sem syn rep wfd text,
    _calculate_speech_rate words metadata = Ok sr
    /\ _calculate_vocabulary_richness words = Ok vr
    /\ _calculate_fluency_score self env transcript words = Ok fl
    /\ _analyze_repetitions words = Ok rep
    /\ _analyze_word_finding self env transcript words = Ok wfd
    /\ let risk := Reference.aggregate
         {| Reference.speech_rate := sr;
            Reference.pause_count := inject_Z pc;
            Reference.vocabulary_richness := vr;
            Reference.fluency_score := fl;
            Reference.semantic_fluency := sem;
            Reference.syntactic_complexity := syn;
            Reference.repetition_score := rep;
            Reference.word_finding_difficulty := wfd |} in
       _generate_explanation env risk (explained_metrics sr pc vr fl) = Ok text
       /\ analyze self env transcript metadata
          = Ok {| riskScore := py_int risk;
                  explanation := text;
                  metrics := {| speechRate := sr;
                                pauseCount := pc;
                                vocabularyRichness := vr;
                                fluencyScore := fl |} |}.
Proof.
  intros Hb words pc.
  destruct (speech_rate_total words metadata) as [sr Hsr].
  destruct (vocabulary_richness_range words) as (vr & Hvr & _).
  destruct (fluency_score_range self env transcript words) as (fl & Hfl & _).
  destruct (semantic_fluency_total self words) as [sem Hsem].
  destruct (syntactic_complexity_total
              (_tokenize_sentences env (_clean_text transcript))) as [syn Hsyn].
  destruct (repetitions_total words) as [rep Hrep].
  destruct (word_finding_total self env transcript words) as [wfd Hwfd].
  exists sr, vr, fl, sem, syn, rep, wfd.
  set (f := {| Reference.speech_rate := sr;
               Reference.pause_count := inject_Z pc;
               Reference.vocabulary_richness := vr;
               Reference.fluency_score := fl;
               Reference.semantic_fluency := sem;
               Reference.syntactic_complexity := syn;
               Reference.repetition_score := rep;
               Reference.word_finding_difficulty := wfd |}).
  destruct (explanation_total env (Reference.aggregate f)
              (explained_metrics sr pc vr fl) (VFloat sr) (VInt pc)
              (VFloat vr) (VFloat fl) eq_refl eq_refl eq_refl eq_refl)
    as [text Htext].
  exists text. do 5 (split; [assumption |]). cbv zeta. split; [assumption |].
  unfold analyze. rewrite guard_blank, Hb.
  fold words. fold pc.
  rewrite Hsr, bind_Ok, Hvr, bind_Ok, Hfl, bind_Ok, Hsem, bind_Ok,
    Hsyn, bind_Ok, Hrep, bind_Ok, Hwfd, bind_Ok.
  rewrite (risk_score_lookups
             (risk_metrics sr pc vr fl sem syn rep wfd)
             (VFloat sr) (VInt pc) (VFloat vr) (VFloat fl) (VFloat wfd)
             (VFloat rep) eq_refl eq_refl eq_refl eq_refl eq_refl eq_refl f
             eq_refl eq_refl eq_refl eq_refl eq_refl eq_refl).
  rewrite bind_Ok, Htext, bind_Ok. reflexivity.
Qed.

(** *** Metadata of any JSON type *)

Lemma size_lookup_Some {V} (md : gmap string V) (key : string) (v : V) :
  md !! key = Some v -> (size md =? 0)%nat = false.
Proof.
  intros H. apply Nat.eqb_neq. intros Hsize.
  apply map_size_empty_iff in Hsize. subst md. now rewrite lookup_empty in H.
Qed.

(** With a number, or nothing, where the duration should be, the speech
    rate is that of the typed embedding. *)
Lemma dynamic_speech_rate_typed (words : list string)
    (metadata : option (gmap string (Json.value num))) :
  Dynamic.numeric_duration metadata = true ->
  Dynamic._calculate_speech_rate words metadata
  = _calculate_speech_rate words (Dynamic.typed metadata).
Proof.
  unfold Dynamic.numeric_duration, Dynamic.supplied_duration,
    Dynamic._calculate_speech_rate, _calculate_speech_rate, Dynamic.typed.
  destruct metadata as [md |]; [| reflexivity]. cbn [mbind option_bind].
  intros H. rewrite lookup_omap.
  destruct (md !! "duration") as [v |] eqn:Hv; cbn [mbind option_bind].
  - rewrite (size_lookup_Some md "duration" v Hv).
    destruct (Dynamic.as_number v) as [n |] eqn:Hn; [| now destruct v].
    rewrite (size_lookup_Some (omap Dynamic.as_number md) "duration" n)
      by (now rewrite lookup_omap, Hv).
    unfold Dynamic.le_zero. rewrite Hn, bind_Ok.
    unfold Dynamic.true_div.
    destruct (Qle_bool (to_Q n) 0); [reflexivity | now rewrite Hn].
  - now destruct (size md =? 0)%nat, (size (omap Dynamic.as_number md) =? 0)%nat.
Qed.

Lemma dynamic_analyze_typed (transcript : string)
    (metadata : option (gmap string (Json.value num))) :
  Dynamic.numeric_duration metadata = true ->
  Dynamic.analyze self env transcript metadata
  = analyze self env transcript (Dynamic.typed metadata).
Proof.
  intros H. unfold Dynamic.analyze, analyze.
  now rewrite dynamic_speech_rate_typed.
Qed.

(** A duration that is not a number stops [analyze] at [duration <= 0]. *)
Lemma dynamic_speech_rate_type_error (words : list string)
    (metadata : option (gmap string (Json.value num))) (v : Json.value num) :
  Dynamic.supplied_duration metadata = Some v -> Json.is_number v = false ->
  Dynamic._calculate_speech_rate words metadata
  = Raise (TypeError (Json.not_ordered Dynamic.number_name v)).
Proof.
  intros Hv Hn. destruct metadata as [md |]; [| discriminate].
  cbn in Hv. unfold Dynamic._calculate_speech_rate.
  rewrite (size_lookup_Some md "duration" v Hv), Hv.
  unfold Dynamic.le_zero. now destruct v.
Qed.

Lemma dynamic_analyze_blank (transcript : string)
    (metadata : option (gmap string (Json.value num))) :
  blank transcript = true ->
  Dynamic.analyze self env transcript metadata
  = Raise (ValueError "Transcript cannot be empty").
Proof. intros H. unfold Dynamic.analyze. now rewrite guard_blank, H. Qed.

Lemma dynamic_analyze_type_error (transcript : string)
    (metadata : option (gmap string (Json.value num))) (v : Json.value num) :
  blank transcript = false ->
  Dynamic.supplied_duration metadata = Some v -> Json.is_number v = false ->
  Dynamic.analyze self env transcript metadata
  = Raise (TypeError (Json.not_ordered Dynamic.number_name v)).
Proof.
  intros Hb Hv Hn. unfold Dynamic.analyze. rewrite guard_blank, Hb.
  now rewrite (dynamic_speech_rate_type_error _ metadata v Hv Hn).
Qed.

Lemma dynamic_analyze_returns (transcript : string)
    (metadata : option (gmap string (Json.value num))) :
  blank transcript = false -> Dynamic.numeric_duration metadata = true ->
  exists a, Dynamic.analyze self env transcript metadata = Ok a
            /\ analyze self env transcript (Dynamic.typed metadata) = Ok a.
Proof.
  intros Hb Hn. rewrite dynamic_analyze_typed by trivial.
  destruct (analyze_run transcript (Dynamic.typed metadata) Hb)
    as (sr & vr & fl & sem & syn & rep & wfd & text & _ & _ & _ & _ & _ & _ & Ha).
  eauto.
Qed.

(** The duration is a number or absent, or it is a value of another
    type. *)
Lemma duration_cases (metadata : option (gmap string (Json.value num))) :
  Dynamic.numeric_duration metadata = true
  \/ exists v, Dynamic.supplied_duration metadata = Some v
               /\ Json.is_number v = false.
Proof.
  unfold Dynamic.numeric_duration.
  destruct (Dynamic.supplied_duration metadata) as [v |]; [| now left].
  destruct (Json.is_number v) eqn:E; [now left | right; eauto].
Qed.

End Analyze.

(** ** The claims *)

Section Claims.

Import Reference.

Ltac compare_all :=
  repeat match goal with
  | |- context [Qltb ?a ?b] =>
      let H := fresh "H" in destruct (Qltb_cases a b) as [[-> H] | [-> H]]
  | |- context [Qle_bool ?a ?b] =>
      let H := fresh "H" in destruct (Qle_bool_cases a b) as [[-> H] | [-> H]]
  end.

Lemma py_int_inject (z : Z) : py_int (inject_Z z) = z.
Proof. unfold py_int, inject_Z. simpl. apply Z.quot_1_r. Qed.

Lemma risk_score_shape (m : gmap string num) (r : Q) :
  _calculate_risk_score m = Ok r ->
  exists s, r = py_min 100 (py_max 0 (py_round s 0)).
Proof.
  unfold _calculate_risk_score. intros H.
  repeat match type of H with
  | (_ ≫= _) = Ok _ =>
      let x := fresh "x" in let Hx := fresh "Hx" in
      apply bind_Ok_inv in H; destruct H as (x & Hx & H)
  end.
  injection H as <-. eauto.
Qed.

Lemma aggregate_integer (f : FeatureVector) :
  exists z, aggregate f = inject_Z z /\ 0 <= z <= 100.
Proof.
  unfold aggregate. rewrite py_round_0, round_clamp.
  eexists. split; [reflexivity | lia].
Qed.

(** C1. For every transcript that is neither empty nor whitespace-only and
    for any metadata, [analyze] returns a result whose [riskScore] lies in
    [0, 100]; it is an integer without loss, since [int()] is applied to a
    risk score that the aggregator has already rounded to a whole number. *)
Theorem risk_score_in_range (self : SpeechAnalyzer) (env : Env)
    (transcript : string) (metadata : option (gmap string num)) :
  blank transcript = false ->
  (exists a, analyze self env transcript metadata = Ok a
             /\ 0 <= riskScore a <= 100)
  /\ (forall m r, _calculate_risk_score m = Ok r -> inject_Z (py_int r) = r).
Proof.
  intros Hb. split.
  - destruct (analyze_run self env transcript metadata Hb)
      as (sr & vr & fl & sem & syn & rep & wfd & text & _ & _ & _ & _ & _ & _ & Ha).
    eexists. split; [exact Ha |]. cbn [riskScore].
    match goal with |- context [aggregate ?f] =>
      destruct (aggregate_integer f) as (z & -> & Hz) end.
    now rewrite py_int_inject.
  - intros m r Hr. apply risk_score_shape in Hr. destruct Hr as [s ->].
    rewrite py_round_0, py_clamp_inject. now rewrite py_int_inject.
Qed.

Lemma risk_score_in_range_witness :
  blank sarah = false
  /\ (exists a, analyze __init__ env_fallback sarah None = Ok a
                /\ 0 <= riskScore a <= 100).
Proof.
  split; [reflexivity |].
  apply (risk_score_in_range __init__ env_fallback sarah None). reflexivity.
Defined.

(** C2. On every dict that holds a feature vector, [_calculate_risk_score]
    returns the additive reference aggregate, double for double: starting
    from 0.0, per feature the points of the matching band of its table
    are added (at most one band of a table matches a value, and a band
    looks at its own feature only), then [word_finding_difficulty * 20]
    and [repetition_score * 15], each sum and product rounded as the
    machine rounds it; the total is clamped to [0, 100] and rounded to the
    nearest integer, ties to even.  The result is a whole number of
    [0, 100] within one half of the clamped total. *)
Theorem risk_score_is_additive_rule (m : gmap string Binary64.number)
    (f : Reference64.FeatureVector) :
  Reference64.represents m f ->
  Binary64._calculate_risk_score m = Ok (Reference64.aggregate f)
  /\ (forall v,
        (length (Reference64.matching Reference64.speech_rate_bands v) <= 1
         /\ length (Reference64.matching Reference64.pause_count_bands v) <= 1
         /\ length (Reference64.matching Reference64.vocabulary_richness_bands v) <= 1
         /\ length (Reference64.matching Reference64.fluency_score_bands v) <= 1)%nat)
  /\ (let clamped :=
        Reference64.clamp (S754_zero false) (Binary64.of_Z 100)
          (Reference64.total f) in
      exists z, 0 <= z <= 100
        /\ Binary64.is_real (Reference64.aggregate f) = true
        /\ (Binary64.to_Q (Reference64.aggregate f) == inject_Z z)%Q
        /\ Binary64.is_real clamped = true
        /\ (0 <= Binary64.to_Q clamped <= 100)%Q
        /\ (inject_Z z - (1 # 2) <= Binary64.to_Q clamped
            <= inject_Z z + (1 # 2))%Q).
Proof.
  intros H. split; [| split].
  - now apply risk_score_double.
  - apply matching_at_most_one_double.
  - apply aggregate_whole_double.
Qed.

Lemma risk_score_is_additive_rule_witness :
  Reference64.represents neutral_metrics neutral_features
  /\ Binary64._calculate_risk_score neutral_metrics = Ok (Binary64.of_Z 12).
Proof.
  assert (H : Reference64.represents neutral_metrics neutral_features)
    by (repeat split; reflexivity).
  split; [exact H |].
  rewrite (proj1 (risk_score_is_additive_rule neutral_metrics neutral_features H)).
  reflexivity.
Defined.

(** C3 fails as stated: with five words and a supplied duration of 0 the
    code answers 10.0, where the estimation fallback would give 60. *)
Lemma speech_rate_zero_duration :
  ~ speech_rate_claim five_words zero_duration.
Proof.
  intros (r & Hr & Heq). vm_compute in Hr. injection Hr as <-.
  vm_compute in Heq. discriminate.
Qed.

(** C3, as the code has it, double for double.  Without metadata, with
    an empty dict or without a ['duration'] key, the speech rate is the
    estimate [clamp(word_count * 2.0, 60, 200)].  A supplied duration that
    is a number greater than 0 gives [(word_count / duration) * 60]
    rounded to 1 decimal.  A supplied duration that is a number and not
    positive is replaced by 30.0 seconds: the speech rate is
    [(word_count / 30.0) * 60] rounded to 1 decimal, not the estimate. *)
Theorem speech_rate_with_default (words : list string)
    (metadata : option (gmap string (Json.value Binary64.number))) :
  (Reference64.supplied_duration metadata = None ->
   Binary64._calculate_speech_rate words metadata
   = Ok (Reference64.estimated_rate (len words)))
  /\ (forall v d,
        Reference64.supplied_duration metadata = Some v ->
        Binary64.as_number v = Some d ->
        (Binary64.lt (Binary64.Int 0) d = true ->
         Binary64._calculate_speech_rate words metadata
         = Ok (Reference64.measured_rate (len words) d))
        /\ (Binary64.le d (Binary64.Int 0) = true ->
            Binary64._calculate_speech_rate words metadata
            = Ok (Reference64.measured_rate (len words)
                    (Binary64.Float (Binary64.of_Z 30))))).
Proof.
  split; [apply speech_rate_no_duration |].
  intros v d Hv Hd.
  destruct (speech_rate_duration words metadata v d Hv Hd) as [E | [E1 E2]].
  - split; intros H.
    + unfold Binary64.lt in H. apply ltb_not_leb in H.
      unfold Binary64.le in E. now rewrite H in E.
    + now rewrite H in E.
  - split; congruence.
Qed.

Lemma speech_rate_with_default_witness :
  Binary64._calculate_speech_rate forty_one_words eighty_seconds
  = Ok (Binary64.decimal 307 1)
  /\ Binary64._calculate_speech_rate five_words zero_seconds
     = Ok (Binary64.of_Z 10)
  /\ Binary64._calculate_speech_rate five_words None
     = Ok (Binary64.of_Z 60).
Proof.
  pose proof (speech_rate_with_default forty_one_words eighty_seconds) as [_ H1].
  pose proof (speech_rate_with_default five_words zero_seconds) as [_ H2].
  pose proof (speech_rate_with_default five_words None) as [H3 _].
  split; [| split].
  - rewrite (proj1 (H1 _ _ eq_refl eq_refl) eq_refl). reflexivity.
  - rewrite (proj2 (H2 _ _ eq_refl eq_refl) eq_refl). reflexivity.
  - rewrite (H3 eq_refl). reflexivity.
Defined.

Lemma round_clamp_tenths (s t : Q) :
  (s == t)%Q ->
  (py_max 0 (py_min 10 (py_round s 1)) == py_round (clamp 0 10 t) 1)%Q.
Proof.
  intros Hst. unfold py_round.
  change (10 ^ Z.of_nat 1) with 10. change (Z.to_pos 10) with 10%positive.
  assert (Hc : (clamp 0 10 t * inject_Z 10 == clamp 0 100 (s * inject_Z 10))%Q).
  { change (inject_Z 10) with 10%Q. unfold clamp. compare_all; lra. }
  rewrite (round_half_even_comp _ _ Hc), round_clamp.
  generalize (round_half_even (s * inject_Z 10)). intros z. clear Hst Hc.
  unfold py_min.
  destruct (Qltb_cases (z # 10) 10) as [[-> Hz] | [-> Hz]];
    unfold py_max; compare_all;
    unfold Qlt, Qle, Qeq in *; simpl in *; lia.
Qed.

(** Apart from the way fillers are counted, [_calculate_fluency_score] is
    the specification's formula: the count is that of the tokens that
    belong to the filler set. *)
Lemma fluency_score_formula (self : SpeechAnalyzer) (env : Env)
    (transcript : string) (words : list string) :
  exists rep wfd fl,
    _analyze_repetitions words = Ok rep
    /\ _analyze_word_finding self env transcript words = Ok wfd
    /\ _calculate_fluency_score self env transcript words = Ok fl
    /\ (fl == fluency (len (filter (fun word => word ∈ filler_words self) words))
                      (len words) rep wfd)%Q.
Proof.
  destruct (repetitions_total words) as [rep Hrep].
  destruct (word_finding_total self env transcript words) as [wfd Hwfd].
  exists rep, wfd. unfold _calculate_fluency_score.
  rewrite py_div_ok by apply max_len_nonzero.
  rewrite bind_Ok, Hrep, bind_Ok, Hwfd, bind_Ok.
  eexists. do 3 (split; [reflexivity |]).
  unfold fluency. apply round_clamp_tenths. ring.
Qed.

(** C4 at the input "you know it is fine".  The phrase "you know" of the
    filler set occurs in the transcript, so the specification's filler
    count is 1 and its fluency formula gives 4.0; the code tests tokens
    for membership only, counts no filler and answers 10.0. *)
Theorem fluency_ignores_filler_phrases :
  let words := _tokenize_words (_clean_text you_know) in
  words = ["you"; "know"; "it"; "is"; "fine"]
  /\ exists rep wfd fl,
       _analyze_repetitions words = Ok rep
       /\ _analyze_word_finding __init__ env_fallback you_know words = Ok wfd
       /\ _calculate_fluency_score __init__ env_fallback you_know words = Ok fl
       /\ (fl == 10)%Q
       /\ filler_word_count (filler_words __init__) you_know words = 1
       /\ (fluency 1 (len words) rep wfd == 4)%Q.
Proof.
  split; [reflexivity |].
  eexists _, _, _. do 3 (split; [vm_compute; reflexivity |]).
  repeat split; reflexivity.
Qed.

(** C5 at the quiet metrics (speech rate 120.0, no pause, vocabulary
    richness 1.0, fluency 10.0) and risk score 0.  No condition is
    triggered, yet the explanation is the tier sentence alone: the
    "all metrics normal" sentence is guarded by a test for an empty list,
    and the list already holds the tier sentence. *)
Theorem explanation_lacks_all_normal :
  no_trigger 120 0 1 10
  /\ _generate_explanation env_fallback 0 calm_metrics = Ok tier_normal
  /\ tier_normal <> join " " [tier_normal; all_normal].
Proof.
  split; [| split].
  - unfold no_trigger. repeat split; discriminate.
  - reflexivity.
  - discriminate.
Qed.

(** C6 fails as stated: on the transcript of the examples, which is not
    blank, with the string "30" where the duration should be, [analyze]
    returns nothing; it raises [TypeError] at [duration <= 0]. *)
Lemma analyze_string_duration :
  ~ analyze_claim __init__ env_fallback sarah string_duration.
Proof.
  intros [_ H]. destruct (H eq_refl) as [a Ha].
  rewrite (dynamic_analyze_type_error __init__ env_fallback sarah
             string_duration (Json.Text "30") eq_refl eq_refl eq_refl) in Ha.
  discriminate.
Qed.

(** C6, as the code has it.  [analyze] raises [ValueError] (the
    specification's InvalidInputError) exactly when the transcript is
    empty or holds only whitespace, and then it returns no result.  On
    every other transcript it returns a result and raises nothing when
    the metadata holds a number, or nothing, under ['duration'].  The
    metadata is a dict of any JSON values and is not validated: a
    duration of another type (a string, null, a list, a dict) makes
    [analyze] raise [TypeError] on a transcript that is not blank.  No
    other error is raised. *)
Theorem analyze_raises_iff_blank (self : SpeechAnalyzer) (env : Env)
    (transcript : string) (metadata : option (gmap string (Json.value num))) :
  (Dynamic.analyze self env transcript metadata
   = Raise (ValueError "Transcript cannot be empty")
   <-> blank transcript = true)
  /\ (blank transcript = true ->
      forall a, Dynamic.analyze self env transcript metadata <> Ok a)
  /\ (blank transcript = false -> Dynamic.numeric_duration metadata = true ->
      exists a, Dynamic.analyze self env transcript metadata = Ok a)
  /\ (blank transcript = false ->
      forall v, Dynamic.supplied_duration metadata = Some v ->
                Json.is_number v = false ->
      Dynamic.analyze self env transcript metadata
      = Raise (TypeError (Json.not_ordered Dynamic.number_name v)))
  /\ (forall e, Dynamic.analyze self env transcript metadata = Raise e ->
      (e = ValueError "Transcript cannot be empty" /\ blank transcript = true)
      \/ (exists v, Dynamic.supplied_duration metadata = Some v
                    /\ Json.is_number v = false
                    /\ e = TypeError (Json.not_ordered Dynamic.number_name v)
                    /\ blank transcript = false)).
Proof.
  destruct (blank transcript) eqn:Hb.
  - rewrite (dynamic_analyze_blank self env transcript metadata Hb).
    split; [tauto |]. split; [discriminate |]. split; [discriminate |].
    split; [discriminate |].
    intros e He. left. split; congruence.
  - destruct (duration_cases metadata) as [Hn | (v & Hv & Hn)].
    + destruct (dynamic_analyze_returns self env transcript metadata Hb Hn)
        as (a & Ha & _).
      rewrite Ha. split; [split; discriminate |]. split; [discriminate |].
      split; [eauto |]. split; [| discriminate].
      intros _ v Hv Hv'. unfold Dynamic.numeric_duration in Hn.
      rewrite Hv in Hn. congruence.
    + rewrite (dynamic_analyze_type_error self env transcript metadata v Hb Hv Hn).
      split; [split; discriminate |]. split; [discriminate |].
      split; [| split].
      * intros _ Hn'. unfold Dynamic.numeric_duration in Hn'.
        rewrite Hv in Hn'. congruence.
      * intros _ v' Hv' _. congruence.
      * intros e He. right. exists v. repeat split; congruence.
Qed.

Lemma analyze_raises_iff_blank_witness :
  Dynamic.analyze __init__ env_fallback "   " None
  = Raise (ValueError "Transcript cannot be empty")
  /\ (exists a, Dynamic.analyze __init__ env_fallback sarah None = Ok a)
  /\ Dynamic.analyze __init__ env_fallback sarah string_duration
     = Raise (TypeError "'<=' not supported between instances of 'str' and 'int'").
Proof.
  split; [| split].
  - apply (proj1 (analyze_raises_iff_blank __init__ env_fallback "   " None)).
    reflexivity.
  - apply (proj1 (proj2 (proj2
        (analyze_raises_iff_blank __init__ env_fallback sarah None))));
      reflexivity.
  - apply (proj1 (proj2 (proj2 (proj2
        (analyze_raises_iff_blank __init__ env_fallback sarah string_duration))))
        eq_refl (Json.Text "30")); reflexivity.
Defined.

Lemma inject_Z_plus_eq (a b : Z) : (inject_Z a + inject_Z b)%Q = inject_Z (a + b).
Proof. unfold Qplus, inject_Z. simpl. f_equal. lia. Qed.

Lemma indicator_sum (g : string -> nat) (indicators : list string) (z : Z) :
  foldl (fun acc indicator => (acc + inject_Z (Z.of_nat (g indicator)))%Q)
        (inject_Z z) indicators
  = inject_Z (z + foldr (fun indicator n => Z.of_nat (g indicator) + n) 0 indicators).
Proof.
  revert z. induction indicators as [| i indicators IH]; intros z.
  - cbn [foldl foldr]. f_equal. lia.
  - cbn [foldl foldr]. rewrite inject_Z_plus_eq, IH. f_equal. lia.
Qed.

Lemma indicator_sum_perm (g : string -> nat) (l1 l2 : list string) :
  l1 ≡ₚ l2 ->
  foldr (fun indicator n => Z.of_nat (g indicator) + n) 0 l1
  = foldr (fun indicator n => Z.of_nat (g indicator) + n) 0 l2.
Proof.
  induction 1 as [| x l1 l2 _ IH | x y l | l1 l2 l3 _ IH1 _ IH2];
    cbn [foldr]; lia.
Qed.

(** The order in which the set of word-finding indicators is iterated
    does not change the score. *)
Lemma word_finding_env (self : SpeechAnalyzer) (env1 env2 : Env)
    (transcript : string) (words : list string) :
  env_ok env1 -> env_ok env2 ->
  _analyze_word_finding self env1 transcript words
  = _analyze_word_finding self env2 transcript words.
Proof.
  intros H1 H2. unfold _analyze_word_finding.
  change 0%Q with (inject_Z 0). rewrite !indicator_sum.
  rewrite (indicator_sum_perm _ (set_order env1 (word_finding_indicators self))
             (set_order env2 (word_finding_indicators self)));
    [reflexivity |].
  now rewrite (H1 _), (H2 _).
Qed.

Lemma fluency_env (self : SpeechAnalyzer) (env1 env2 : Env)
    (transcript : string) (words : list string) :
  env_ok env1 -> env_ok env2 ->
  _calculate_fluency_score self env1 transcript words
  = _calculate_fluency_score self env2 transcript words.
Proof.
  intros H1 H2. unfold _calculate_fluency_score.
  now rewrite (word_finding_env self env1 env2 transcript words H1 H2).
Qed.

(** An [int] pause count is rendered without [repr] of a float. *)
Lemma explanation_env (env1 env2 : Env) (risk_score : Q)
    (m : gmap string num) (n : Z) :
  m !! "pause_count" = Some (VInt n) ->
  _generate_explanation env1 risk_score m = _generate_explanation env2 risk_score m.
Proof.
  intros L. unfold _generate_explanation.
  rewrite (getitem_Some _ _ _ L). reflexivity.
Qed.

(** C7. [analyze] is a function of the transcript and the metadata alone:
    whatever the environment does (NLTK present or failing, any sentence
    splitter, any iteration order of the indicator set, any float
    [repr]), the output is the same in risk score, explanation and
    metrics.  The analyzer object is read and never written. *)
Theorem analyze_deterministic (self : SpeechAnalyzer) (env1 env2 : Env)
    (transcript : string) (metadata : option (gmap string num)) :
  env_ok env1 -> env_ok env2 ->
  analyze self env1 transcript metadata = analyze self env2 transcript metadata.
Proof.
  intros H1 H2. destruct (blank transcript) eqn:Hb.
  - now rewrite !analyze_blank.
  - destruct (analyze_run self env1 transcript metadata Hb)
      as (sr & vr & fl & sem & syn & rep & wfd & text
          & Hsr & Hvr & Hfl & Hrep & Hwfd & Htext & Ha).
    destruct (analyze_run self env2 transcript metadata Hb)
      as (sr' & vr' & fl' & sem' & syn' & rep' & wfd' & text'
          & Hsr' & Hvr' & Hfl' & Hrep' & Hwfd' & Htext' & Ha').
    rewrite Ha, Ha'. cbv zeta in Htext, Htext'.
    rewrite Hsr in Hsr'. injection Hsr' as <-.
    rewrite Hvr in Hvr'. injection Hvr' as <-.
    rewrite (fluency_env self env1 env2 _ _ H1 H2), Hfl' in Hfl.
    injection Hfl as ->.
    rewrite Hrep in Hrep'. injection Hrep' as <-.
    rewrite (word_finding_env self env1 env2 _ _ H1 H2), Hwfd' in Hwfd.
    injection Hwfd as ->.
    rewrite (explanation_env env1 env2 _
               (explained_metrics sr (_estimate_pause_count transcript) vr fl)
               (_estimate_pause_count transcript) eq_refl) in Htext.
    change (aggregate _) with
      (aggregate
         {| speech_rate := sr;
            pause_count := inject_Z (_estimate_pause_count transcript);
            vocabulary_richness := vr;
            fluency_score := fl;
            semantic_fluency := sem';
            syntactic_complexity := syn';
            repetition_score := rep;
            word_finding_difficulty := wfd |}) in Htext.
    rewrite Htext' in Htext. injection Htext as ->. reflexivity.
Qed.

Lemma env_fallback_ok : env_ok env_fallback.
Proof. intros s. reflexivity. Qed.

Lemma env_lines_ok : env_ok env_lines.
Proof. intros s. symmetry. apply Permutation_rev. Qed.

Lemma analyze_deterministic_witness :
  analyze __init__ env_fallback sarah None = analyze __init__ env_lines sarah None.
Proof.
  apply (analyze_deterministic __init__ env_fallback env_lines sarah None).
  - exact env_fallback_ok.
  - exact env_lines_ok.
Defined.

Lemma pause_points_mono (p p' : Q) :
  (p <= p')%Q -> (points pause_count_bands p <= points pause_count_bands p')%Q.
Proof.
  intros H.
  unfold points, matching, pause_count_bands, above, open_closed.
  cbn [List.filter fst snd foldr].
  compare_all; cbn [List.filter fst snd foldr andb]; lra.
Qed.

Lemma pause_points_top (p : Q) :
  (15 < p)%Q -> (points pause_count_bands p == 20)%Q.
Proof.
  intros H.
  unfold points, matching, pause_count_bands, above, open_closed.
  cbn [List.filter fst snd foldr].
  compare_all; cbn [List.filter fst snd foldr andb]; lra.
Qed.

Lemma clamp_mono (lo hi x y : Q) :
  (lo <= hi)%Q -> (x <= y)%Q -> (clamp lo hi x <= clamp lo hi y)%Q.
Proof.
  intros Hb H. unfold clamp. compare_all; lra.
Qed.

Lemma aggregate_pause_mono (f : FeatureVector) (p p' : Q) :
  (p <= p')%Q ->
  (aggregate (with_pause_count f p) <= aggregate (with_pause_count f p'))%Q.
Proof.
  intros H. unfold aggregate. apply py_round_mono, clamp_mono; [lra |].
  unfold total, with_pause_count.
  cbn [speech_rate pause_count vocabulary_richness fluency_score
       repetition_score word_finding_difficulty].
  pose proof (pause_points_mono p p' H). lra.
Qed.

Lemma risk_score_with_pause (m : gmap string num) (f : FeatureVector) (p : num) :
  represents m f ->
  _calculate_risk_score (<["pause_count" := p]> m)
  = Ok (aggregate (with_pause_count f (to_Q p))).
Proof.
  intros (H1 & _ & H3 & H4 & _ & _ & H7 & H8).
  apply holds_lookup in H1, H3, H4, H7, H8.
  destruct H1 as (v1 & L1 & E1), H3 as (v3 & L3 & E3),
    H4 as (v4 & L4 & E4), H7 as (v6 & L6 & E6), H8 as (v5 & L5 & E5).
  apply (risk_score_lookups _ v1 p v3 v4 v5 v6);
    try (rewrite lookup_insert_ne by discriminate; assumption);
    try assumption; try reflexivity.
  apply lookup_insert_eq.
Qed.

(** C8. With all other features fixed, a larger pause count never gives a
    smaller risk score: the points of the pause-count table do not
    decrease with the pause count, a pause count above 15 earns the
    table's largest award (20), and the aggregate is monotone. *)
Theorem pause_count_monotone (m : gmap string num) (f : FeatureVector)
    (p p' : num) :
  represents m f ->
  (to_Q p <= to_Q p')%Q ->
  (points pause_count_bands (to_Q p) <= points pause_count_bands (to_Q p'))%Q
  /\ ((15 < to_Q p')%Q -> (points pause_count_bands (to_Q p') == 20)%Q)
  /\ exists r r',
       _calculate_risk_score (<["pause_count" := p]> m) = Ok r
       /\ _calculate_risk_score (<["pause_count" := p']> m) = Ok r'
       /\ (r <= r')%Q.
Proof.
  intros Hm H. split; [now apply pause_points_mono |].
  split; [apply pause_points_top |].
  exists (aggregate (with_pause_count f (to_Q p))),
    (aggregate (with_pause_count f (to_Q p'))).
  split; [now apply risk_score_with_pause |].
  split; [now apply risk_score_with_pause |].
  now apply aggregate_pause_mono.
Qed.

Lemma pause_count_monotone_witness :
  exists r r',
    _calculate_risk_score (<["pause_count" := VInt 12]> sample_metrics) = Ok r
    /\ _calculate_risk_score (<["pause_count" := VInt 16]> sample_metrics) = Ok r'
    /\ (r <= r')%Q.
Proof.
  assert (Hm : represents sample_metrics sample_features)
    by (repeat split; reflexivity).
  assert (H : (to_Q (VInt 12) <= to_Q (VInt 16))%Q) by discriminate.
  exact (proj2 (proj2 (pause_count_monotone sample_metrics sample_features
                         (VInt 12) (VInt 16) Hm H))).
Defined.

(** C9. Whenever [analyze] returns, the reported vocabulary richness lies
    in [0, 1], and is 0 when no token was extracted, and the reported
    fluency score lies in [0, 10], whatever the size of the input. *)
Theorem metrics_in_range (self : SpeechAnalyzer) (env : Env)
    (transcript : string) (metadata : option (gmap string num)) (a : Analysis) :
  analyze self env transcript metadata = Ok a ->
  (0 <= vocabularyRichness (metrics a) <= 1)%Q
  /\ (0 <= fluencyScore (metrics a) <= 10)%Q
  /\ (_tokenize_words (_clean_text transcript) = [] ->
      vocabularyRichness (metrics a) = 0%Q).
Proof.
  intros H. destruct (blank transcript) eqn:Hb.
  - rewrite analyze_blank in H by assumption. discriminate.
  - destruct (analyze_run self env transcript metadata Hb)
      as (sr & vr & fl & sem & syn & rep & wfd & text
          & _ & Hvr & Hfl & _ & _ & _ & Ha).
    rewrite Ha in H. injection H as <-. cbn [metrics vocabularyRichness fluencyScore].
    destruct (vocabulary_richness_range (_tokenize_words (_clean_text transcript)))
      as (vr' & Hvr' & Hrange).
    rewrite Hvr in Hvr'. injection Hvr' as <-.
    destruct (fluency_score_range self env transcript
                (_tokenize_words (_clean_text transcript)))
      as (fl' & Hfl' & Hrange').
    rewrite Hfl in Hfl'. injection Hfl' as <-.
    repeat split; try tauto.
    intros Hw. rewrite Hw in Hvr. now injection Hvr as <-.
Qed.

Lemma metrics_in_range_witness :
  exists a, analyze __init__ env_fallback short_words None = Ok a
            /\ (0 <= vocabularyRichness (metrics a) <= 1)%Q
            /\ (0 <= fluencyScore (metrics a) <= 10)%Q
            /\ vocabularyRichness (metrics a) = 0%Q.
Proof.
  eexists. split; [vm_compute; reflexivity |].
  match goal with |- context [vocabularyRichness (metrics ?a)] =>
    pose proof (metrics_in_range __init__ env_fallback short_words None a eq_refl)
      as (H1 & H2 & H3)
  end.
  split; [exact H1 |]. split; [exact H2 |]. apply H3. reflexivity.
Defined.

(** C10. No stage of [analyze] divides by zero.  Every feature extractor
    returns a value on every input, the two explicit empty checks answer
    0.0, the transcript "a a a" yields no token at all, and on every
    transcript that is not blank (that one included) [analyze] produces a
    complete result. *)
Theorem extractors_total (self : SpeechAnalyzer) (env : Env) :
  (forall words metadata, exists r, _calculate_speech_rate words metadata = Ok r)
  /\ (forall words, exists r, _calculate_vocabulary_richness words = Ok r)
  /\ (forall transcript words,
        exists r, _calculate_fluency_score self env transcript words = Ok r)
  /\ (forall words, exists r, _analyze_semantic_fluency self words = Ok r)
  /\ (forall sentences, exists r, _analyze_syntactic_complexity sentences = Ok r)
  /\ (forall words, exists r, _analyze_repetitions words = Ok r)
  /\ (forall transcript words,
        exists r, _analyze_word_finding self env transcript words = Ok r)
  /\ _calculate_vocabulary_richness [] = Ok 0%Q
  /\ _analyze_syntactic_complexity [] = Ok 0%Q
  /\ _tokenize_words (_clean_text short_words) = []
  /\ (forall transcript metadata,
        blank transcript = false ->
        exists a, analyze self env transcript metadata = Ok a)
  /\ (forall transcript metadata,
        analyze self env transcript metadata <> Raise ZeroDivisionError).
Proof.
  repeat match goal with |- _ /\ _ => split end.
  - apply speech_rate_total.
  - intros words. destruct (vocabulary_richness_range words) as (v & Hv & _). eauto.
  - intros transcript words.
    destruct (fluency_score_range self env transcript words) as (v & Hv & _). eauto.
  - apply semantic_fluency_total.
  - apply syntactic_complexity_total.
  - apply repetitions_total.
  - apply word_finding_total.
  - reflexivity.
  - reflexivity.
  - reflexivity.
  - intros transcript metadata Hb.
    destruct (analyze_run self env transcript metadata Hb)
      as (sr & vr & fl & sem & syn & rep & wfd & text & _ & _ & _ & _ & _ & _ & Ha).
    eauto.
  - intros transcript metadata H. destruct (blank transcript) eqn:Hb.
    + rewrite analyze_blank in H by assumption. discriminate.
    + destruct (analyze_run self env transcript metadata Hb)
        as (sr & vr & fl & sem & syn & rep & wfd & text & _ & _ & _ & _ & _ & _ & Ha).
      rewrite Ha in H. discriminate.
Qed.

Lemma extractors_total_witness :
  blank short_words = false
  /\ exists a, analyze __init__ env_fallback short_words None = Ok a.
Proof.
  split; [reflexivity |].
  apply (extractors_total __init__ env_fallback). reflexivity.
Defined.

End Claims.

(** * Further properties of the analyzer *)

(** ** Normalisation and tokenisation *)

Section Text.

Lemma lower_char_idem (c : ascii) : lower_char (lower_char c) = lower_char c.
Proof. destruct c as [[] [] [] [] [] [] [] []]; reflexivity. Qed.

Lemma isspace_lower_char (c : ascii) : isspace (lower_char c) = isspace c.
Proof. destruct c as [[] [] [] [] [] [] [] []]; reflexivity. Qed.

Lemma lower_char_space (c : ascii) : isspace c = true -> lower_char c = c.
Proof. destruct c as [[] [] [] [] [] [] [] []]; intros H; try reflexivity; discriminate. Qed.

Lemma isword_not_space (c : ascii) : isword c = true -> isspace c = false.
Proof. destruct c as [[] [] [] [] [] [] [] []]; intros H; try reflexivity; discriminate. Qed.

Lemma lower_idem (s : string) : lower (lower s) = lower s.
Proof.
  induction s as [| c s IH]; [reflexivity |].
  cbn [lower]. now rewrite lower_char_idem, IH.
Qed.

Lemma lower_sub_ws (in_ws : bool) (s : string) :
  lower (sub_ws in_ws s) = sub_ws in_ws (lower s).
Proof.
  revert in_ws. induction s as [| c s IH]; intros in_ws; [reflexivity |].
  cbn [lower sub_ws]. rewrite isspace_lower_char.
  destruct (isspace c); [destruct in_ws |]; cbn [lower]; now rewrite ?IH.
Qed.

Lemma lower_lstrip (s : string) : lower (lstrip s) = lstrip (lower s).
Proof.
  induction s as [| c s IH]; [reflexivity |].
  cbn [lower lstrip]. rewrite isspace_lower_char.
  destruct (isspace c); [exact IH | reflexivity].
Qed.

Lemma lower_rstrip (s : string) : lower (rstrip s) = rstrip (lower s).
Proof.
  induction s as [| c s IH]; [reflexivity |].
  cbn [lower rstrip]. rewrite <- IH, isspace_lower_char.
  destruct (rstrip s); [destruct (isspace c) |]; reflexivity.
Qed.

Lemma spaced_sub_ws (in_ws : bool) (s : string) :
  spaced in_ws (sub_ws in_ws s) = true.
Proof.
  revert in_ws. induction s as [| c s IH]; intros in_ws; [reflexivity |].
  cbn [sub_ws]. destruct (isspace c) eqn:Hc.
  - destruct in_ws; [apply IH |]. cbn [spaced]. now rewrite IH.
  - cbn [spaced]. rewrite Hc. apply IH.
Qed.

Lemma sub_ws_spaced (in_ws : bool) (s : string) :
  spaced in_ws s = true -> sub_ws in_ws s = s.
Proof.
  revert in_ws. induction s as [| c s IH]; intros in_ws H; [reflexivity |].
  cbn [spaced sub_ws] in *. destruct (isspace c).
  - apply andb_true_iff in H. destruct H as [H Hs].
    apply andb_true_iff in H. destruct H as [Hc Hw].
    apply Ascii.eqb_eq in Hc. subst c.
    destruct in_ws; [discriminate |]. now rewrite (IH true Hs).
  - now rewrite (IH false H).
Qed.

Lemma spaced_lstrip (b b' : bool) (s : string) :
  spaced b s = true -> spaced b' (lstrip s) = true.
Proof.
  revert b. induction s as [| c s IH]; intros b H; [reflexivity |].
  cbn [lstrip]. cbn [spaced] in H. destruct (isspace c) eqn:Hc.
  - apply andb_true_iff in H. destruct H as [_ Hs]. now apply (IH true).
  - cbn [spaced]. now rewrite Hc.
Qed.

Lemma spaced_rstrip (b : bool) (s : string) :
  spaced b s = true -> spaced b (rstrip s) = true.
Proof.
  revert b. induction s as [| c s IH]; intros b H; [reflexivity |].
  cbn [rstrip]. cbn [spaced] in H. destruct (isspace c) eqn:Hc.
  - apply andb_true_iff in H. destruct H as [H Hs].
    specialize (IH true Hs). destruct (rstrip s); [reflexivity |].
    cbn [spaced]. rewrite Hc. cbn [spaced] in IH. now rewrite H, IH.
  - specialize (IH false H). destruct (rstrip s).
    + cbn [spaced]. now rewrite Hc.
    + cbn [spaced]. rewrite Hc. exact IH.
Qed.

Lemma rstrip_idem (s : string) : rstrip (rstrip s) = rstrip s.
Proof.
  induction s as [| c s IH]; [reflexivity |].
  cbn [rstrip]. destruct (rstrip s) as [| d r] eqn:E.
  - destruct (isspace c) eqn:Hc; [reflexivity |]. cbn [rstrip]. now rewrite Hc.
  - cbn [rstrip]. cbn [rstrip] in IH. rewrite IH. reflexivity.
Qed.

Lemma lstrip_rstrip_lstrip (s : string) :
  lstrip (rstrip (lstrip s)) = rstrip (lstrip s).
Proof.
  induction s as [| c s IH]; [reflexivity |].
  cbn [lstrip]. destruct (isspace c) eqn:Hc; [exact IH |].
  cbn [rstrip]. destruct (rstrip s); rewrite ?Hc; cbn [lstrip]; now rewrite Hc.
Qed.

Lemma strip_idem (s : string) : strip (strip s) = strip s.
Proof.
  unfold strip. now rewrite lstrip_rstrip_lstrip, rstrip_idem.
Qed.

Lemma clean_text_spaced (text : string) : spaced false (_clean_text text) = true.
Proof.
  unfold _clean_text, strip. apply spaced_rstrip, (spaced_lstrip false).
  apply spaced_sub_ws.
Qed.

(** X1. [_clean_text] yields a normal form that each of its three stages
    leaves alone: the result is in lower case, it neither starts nor ends
    with whitespace, its only whitespace is single spaces, and cleaning
    it again changes nothing. *)
Theorem clean_text_normal_form (text : string) :
  lower (_clean_text text) = _clean_text text
  /\ strip (_clean_text text) = _clean_text text
  /\ sub_ws false (_clean_text text) = _clean_text text
  /\ spaced false (_clean_text text) = true
  /\ _clean_text (_clean_text text) = _clean_text text.
Proof.
  assert (Hl : lower (_clean_text text) = _clean_text text).
  { unfold _clean_text, strip.
    now rewrite lower_rstrip, lower_lstrip, lower_sub_ws, lower_idem. }
  assert (Hs : strip (_clean_text text) = _clean_text text).
  { unfold _clean_text. apply strip_idem. }
  assert (Hw : sub_ws false (_clean_text text) = _clean_text text).
  { apply sub_ws_spaced, clean_text_spaced. }
  repeat split; trivial; try apply clean_text_spaced.
  unfold _clean_text at 1. now rewrite Hl, Hw, Hs.
Qed.

Lemma snoc_nil (c : ascii) : snoc EmptyString c = String c EmptyString.
Proof. reflexivity. Qed.

Lemma snoc_cons (d : ascii) (s : string) (c : ascii) :
  snoc (String d s) c = String d (snoc s c).
Proof. reflexivity. Qed.

Lemma all_chars_snoc (p : ascii -> bool) (s : string) (c : ascii) :
  all_chars p s = true -> p c = true -> all_chars p (snoc s c) = true.
Proof.
  intros Hs Hc. induction s as [| d s IH].
  - rewrite snoc_nil. cbn [all_chars]. now rewrite Hc.
  - rewrite snoc_cons. cbn [all_chars] in *.
    apply andb_true_iff in Hs. destruct Hs as [Hd Hs].
    rewrite Hd. now apply IH.
Qed.

(** Each run consists of characters of the class, and is not empty. *)
Lemma runs_members (p : ascii -> bool) (cur s : string) :
  all_chars p cur = true ->
  Forall (fun w => all_chars p w = true /\ truthy w = true) (runs p cur s).
Proof.
  revert cur. induction s as [| c s IH]; intros cur Hcur; cbn [runs].
  - destruct (truthy cur) eqn:E; [| constructor].
    constructor; [now split | constructor].
  - destruct (p c) eqn:Hc; [now apply IH, all_chars_snoc |].
    destruct (truthy cur) eqn:E; [constructor; [now split |] |]; now apply IH.
Qed.

(** Each run consists of characters of the text. *)
Lemma runs_chars (p q : ascii -> bool) (cur s : string) :
  all_chars q cur = true -> all_chars q s = true ->
  Forall (fun w => all_chars q w = true) (runs p cur s).
Proof.
  revert cur. induction s as [| c s IH]; intros cur Hcur Hs; cbn [runs].
  - destruct (truthy cur); repeat constructor. exact Hcur.
  - cbn [all_chars] in Hs. apply andb_true_iff in Hs. destruct Hs as [Hc Hs].
    destruct (p c); [now apply IH; [apply all_chars_snoc |] |].
    destruct (truthy cur); [constructor; [exact Hcur |] |]; now apply IH.
Qed.

Lemma all_lower (s : string) : all_chars is_lower s = true <-> lower s = s.
Proof.
  induction s as [| c s IH]; cbn [all_chars lower]; [tauto |].
  rewrite andb_true_iff, IH. unfold is_lower. rewrite Ascii.eqb_eq.
  split.
  - intros [Hc Hs]. now rewrite Hc, Hs.
  - intros [= Hc Hs]. now split.
Qed.

Lemma all_chars_impl (p q : ascii -> bool) (s : string) :
  (forall c, p c = true -> q c = true) ->
  all_chars p s = true -> all_chars q s = true.
Proof.
  intros Hpq. induction s as [| c s IH]; cbn [all_chars]; [trivial |].
  rewrite !andb_true_iff. intros [Hc Hs]. split; [now apply Hpq | now apply IH].
Qed.

Lemma tokenize_words_elem (text w : string) :
  w ∈ _tokenize_words text ->
  (1 < String.length w)%nat /\ w ∈ findall_words text.
Proof. unfold _tokenize_words. now rewrite list_elem_of_filter. Qed.

Lemma tokens_all_words (text : string) :
  Forall (fun w => all_chars isword w = true) (_tokenize_words text).
Proof.
  rewrite Forall_forall. intros w Hw.
  apply tokenize_words_elem in Hw. destruct Hw as [_ Hw].
  pose proof (runs_members isword EmptyString text eq_refl) as Hm.
  rewrite Forall_forall in Hm. now destruct (Hm w Hw).
Qed.

(** X2. Every token that [_tokenize_words] returns has at least two
    characters, all of them word characters, so that no token holds
    whitespace; the tokens of a lower-case text are in lower case. *)
Theorem tokens_are_words (text w : string) :
  w ∈ _tokenize_words text ->
  (2 <= String.length w)%nat
  /\ all_chars isword w = true
  /\ all_chars (fun c => negb (isspace c)) w = true
  /\ (lower text = text -> lower w = w).
Proof.
  intros Hw. apply tokenize_words_elem in Hw. destruct Hw as [Hlen Hw].
  unfold findall_words in Hw.
  pose proof (runs_members isword EmptyString text eq_refl) as Hm.
  rewrite Forall_forall in Hm. destruct (Hm w Hw) as [Hall _].
  split; [lia |]. split; [exact Hall |]. split.
  - apply (all_chars_impl isword); [| exact Hall].
    intros c Hc. now rewrite (isword_not_space c Hc).
  - intros Hl. apply all_lower. apply all_lower in Hl.
    pose proof (runs_chars isword is_lower EmptyString text eq_refl Hl) as Hc.
    rewrite Forall_forall in Hc. now apply Hc.
Qed.

Lemma tokens_are_words_witness :
  "sarah"%string ∈ _tokenize_words (_clean_text sarah)
  /\ all_chars isword "sarah" = true.
Proof.
  assert (H : "sarah"%string ∈ _tokenize_words (_clean_text sarah)).
  { vm_compute. repeat constructor. }
  split; [exact H |].
  exact (proj1 (proj2 (tokens_are_words (_clean_text sarah) "sarah" H))).
Defined.

Lemma blank_rstrip (s : string) : blank (rstrip s) = blank s.
Proof.
  induction s as [| c s IH]; [reflexivity |].
  cbn [rstrip]. pose proof (rstrip_truthy s) as Ht.
  destruct (rstrip s) as [| d r].
  - cbn [truthy] in Ht. apply (f_equal negb) in Ht.
    rewrite negb_involutive in Ht. cbn [negb] in Ht.
    cbn [blank]. rewrite <- Ht, andb_true_r.
    destruct (isspace c) eqn:Hc; cbn [blank]; now rewrite ?Hc.
  - cbn [blank] in *. now rewrite IH.
Qed.

Lemma blank_strip (s : string) : blank (strip s) = blank s.
Proof. unfold strip. now rewrite blank_rstrip, lstrip_blank. Qed.

Lemma all_chars_lstrip (q : ascii -> bool) (s : string) :
  all_chars q s = true -> all_chars q (lstrip s) = true.
Proof.
  induction s as [| c s IH]; [trivial |].
  cbn [lstrip]. destruct (isspace c); [| trivial].
  cbn [all_chars]. rewrite andb_true_iff. intros [_ Hs]. now apply IH.
Qed.

Lemma all_chars_rstrip (q : ascii -> bool) (s : string) :
  all_chars q s = true -> all_chars q (rstrip s) = true.
Proof.
  induction s as [| c s IH]; [trivial |].
  cbn [rstrip all_chars]. rewrite andb_true_iff. intros [Hc Hs].
  specialize (IH Hs). destruct (rstrip s).
  - destruct (isspace c); cbn [all_chars]; now rewrite ?Hc.
  - cbn [all_chars] in *. now rewrite Hc, IH.
Qed.

Lemma split_terminators_chars (in_sep : bool) (cur s : string) :
  all_chars (fun c => negb (is_terminator c)) cur = true ->
  Forall (fun piece => all_chars (fun c => negb (is_terminator c)) piece = true)
         (split_terminators in_sep cur s).
Proof.
  revert in_sep cur. induction s as [| c s IH]; intros in_sep cur Hcur;
    cbn [split_terminators].
  - repeat constructor. exact Hcur.
  - destruct (is_terminator c) eqn:Hc.
    + destruct in_sep; [now apply IH | constructor; [exact Hcur | now apply IH]].
    + apply IH, all_chars_snoc; [exact Hcur | now rewrite Hc].
Qed.

(** X3. Whatever NLTK does, no sentence that [_tokenize_sentences] returns
    is empty or blank.  When NLTK fails, the sentences of the fallback are
    stripped and hold none of the terminators [.], [!], [?]. *)
Theorem sentences_not_blank (env : Env) (text s : string) :
  s ∈ _tokenize_sentences env text ->
  blank s = false
  /\ (sent_tokenize env text = None ->
      strip s = s /\ all_chars (fun c => negb (is_terminator c)) s = true).
Proof.
  unfold _tokenize_sentences. destruct (sent_tokenize env text) as [sentences |].
  - rewrite list_elem_of_filter. intros [Hlen _]. split; [| discriminate].
    pose proof (strip_truthy s) as Ht.
    destruct (strip s); [cbn in Hlen; lia |].
    cbn [truthy] in Ht. now destruct (blank s).
  - rewrite list_elem_of_fmap. intros (y & -> & Hy).
    apply list_elem_of_filter in Hy. destruct Hy as [Ht Hy].
    split.
    + rewrite blank_strip. rewrite strip_truthy in Ht. now destruct (blank y).
    + intros _. split; [apply strip_idem |].
      pose proof (split_terminators_chars false EmptyString text eq_refl) as Hc.
      rewrite Forall_forall in Hc. specialize (Hc y Hy).
      unfold strip. now apply all_chars_rstrip, all_chars_lstrip.
Qed.

Lemma sentences_not_blank_witness :
  "how are you"%string ∈ _tokenize_sentences env_fallback "hi there. how are you? "
  /\ blank "how are you" = false.
Proof.
  assert (H : "how are you"%string
              ∈ _tokenize_sentences env_fallback "hi there. how are you? ").
  { vm_compute. repeat constructor. }
  split; [exact H |].
  exact (proj1 (sentences_not_blank env_fallback _ _ H)).
Defined.

Lemma filter_members_restrict (fillers : gset string) (words : list string) :
  Forall (fun w => all_chars isword w = true) words ->
  filter (fun word => word ∈ filter (fun f => all_chars isword f = true) fillers) words
  = filter (fun word => word ∈ fillers) words.
Proof.
  induction 1 as [| w words Hw _ IH]; [reflexivity |].
  rewrite !filter_cons, IH.
  destruct (decide (w ∈ fillers)) as [Hin | Hout].
  - rewrite decide_True; [reflexivity |]. now apply elem_of_filter.
  - rewrite decide_False; [reflexivity |].
    intros Hin. apply elem_of_filter in Hin. tauto.
Qed.

(** X4. The entries of the filler set that are not made of word characters
    alone (the phrases "you know", "i mean", "sort of", "kind of") have no
    effect whatever: since a token never holds a space, dropping them from
    the set changes neither the fluency score nor any part of the result
    of [analyze]. *)
Theorem phrase_fillers_have_no_effect (self : SpeechAnalyzer) (env : Env)
    (transcript : string) (metadata : option (gmap string num)) :
  _calculate_fluency_score (single_word_fillers self) env transcript
    (_tokenize_words (_clean_text transcript))
  = _calculate_fluency_score self env transcript
      (_tokenize_words (_clean_text transcript))
  /\ analyze (single_word_fillers self) env transcript metadata
     = analyze self env transcript metadata
  /\ filler_words (single_word_fillers __init__)
     = list_to_set ["um"; "uh"; "er"; "ah"; "well"; "like"; "so";
                    "basically"; "actually"].
Proof.
  assert (Hf : _calculate_fluency_score (single_word_fillers self) env transcript
                 (_tokenize_words (_clean_text transcript))
               = _calculate_fluency_score self env transcript
                   (_tokenize_words (_clean_text transcript))).
  { unfold _calculate_fluency_score. cbn [single_word_fillers filler_words].
    now rewrite (filter_members_restrict _ _ (tokens_all_words _)). }
  split; [exact Hf |]. split; [| now vm_compute].
  unfold analyze. now rewrite Hf.
Qed.

End Text.

(** ** Ranges of the metrics *)

Section Ranges.

Variable self : SpeechAnalyzer.
Variable env : Env.

Lemma inject_Z_nonneg (z : Z) : 0 <= z -> (0 <= inject_Z z)%Q.
Proof. intros H. change 0%Q with (inject_Z 0). now rewrite <- Zle_Qle. Qed.

Lemma inject_Z_pos (z : Z) : 0 < z -> (0 < inject_Z z)%Q.
Proof. intros H. change 0%Q with (inject_Z 0). now rewrite <- Zlt_Qlt. Qed.

Lemma div_nonneg (a b : Q) : (0 <= a)%Q -> (0 < b)%Q -> (0 <= a / b)%Q.
Proof. intros Ha Hb. apply Qle_shift_div_l; trivial; lra. Qed.

Lemma py_min_unit (q : Q) : (0 <= q)%Q -> (0 <= py_min q 1 <= 1)%Q.
Proof.
  intros H. unfold py_min.
  destruct (Qltb_cases 1 q) as [[-> ?] | [-> ?]]; lra.
Qed.

Lemma indicator_total_nonneg (g : string -> nat) (indicators : list string) :
  0 <= foldr (fun indicator n => Z.of_nat (g indicator) + n) 0 indicators.
Proof. induction indicators as [| i l IH]; cbn [foldr]; lia. Qed.

Lemma word_finding_nonneg (transcript : string) (words : list string) (r : Q) :
  _analyze_word_finding self env transcript words = Ok r -> (0 <= r)%Q.
Proof.
  unfold _analyze_word_finding.
  rewrite py_div_ok by apply max_len_nonzero. rewrite bind_Ok.
  intros [= <-]. apply py_min_unit.
  change 0%Q with (inject_Z 0) at 2. rewrite indicator_sum, inject_Z_plus_eq.
  apply div_nonneg.
  - apply inject_Z_nonneg.
    pose proof (indicator_total_nonneg
                  (fun indicator => count (lower transcript) indicator)
                  (set_order env (word_finding_indicators self))).
    lia.
  - apply inject_Z_pos. pose proof (len_nonneg words). lia.
Qed.

(** X5. The word-finding difficulty lies in [0, 1] for every transcript,
    every token list and every analyzer, whatever the order in which the
    indicator set is visited. *)
Theorem word_finding_range (transcript : string) (words : list string) :
  exists r, _analyze_word_finding self env transcript words = Ok r
            /\ (0 <= r <= 1)%Q.
Proof.
  unfold _analyze_word_finding.
  rewrite py_div_ok by apply max_len_nonzero. rewrite bind_Ok.
  eexists. split; [reflexivity |]. apply py_min_unit.
  change 0%Q with (inject_Z 0) at 2. rewrite indicator_sum, inject_Z_plus_eq.
  apply div_nonneg.
  - apply inject_Z_nonneg.
    pose proof (indicator_total_nonneg
                  (fun indicator => count (lower transcript) indicator)
                  (set_order env (word_finding_indicators self))).
    lia.
  - apply inject_Z_pos. pose proof (len_nonneg words). lia.
Qed.


Lemma category_words_subset (words : list string)
    (categories : list (string * gset string)) (acc : gset string) :
  acc ⊆ list_to_set words ->
  foldl (fun acc '(category, word_set) =>
           acc ∪ list_to_set (filter (fun word => word ∈ (word_set : gset string)) words))
        acc categories
  ⊆ (list_to_set words : gset string).
Proof.
  revert acc. induction categories as [| [category word_set] categories IH];
    intros acc Hacc; cbn [foldl]; [exact Hacc |].
  apply IH. apply union_subseteq. split; [exact Hacc |].
  intros w Hw. apply elem_of_list_to_set in Hw. apply elem_of_list_to_set.
  apply list_elem_of_filter in Hw. tauto.
Qed.

(** X6. The semantic fluency lies in [0, 1]: the category words are
    distinct tokens, and there are no more of them than tokens. *)
Theorem semantic_fluency_range (words : list string) :
  exists r, _analyze_semantic_fluency self words = Ok r /\ (0 <= r <= 1)%Q.
Proof.
  unfold _analyze_semantic_fluency.
  rewrite py_div_ok by apply max_len_nonzero.
  eexists. split; [reflexivity |].
  match goal with |- context [size ?X] => set (category_words := X) end.
  assert (Hsub : category_words ⊆ (list_to_set words : gset string)).
  { apply category_words_subset. apply empty_subseteq. }
  apply subseteq_size in Hsub. pose proof (size_list_to_set_le words) as Hle.
  apply ratio_range; unfold len; lia.
Qed.

Lemma complexity_loop_range (sentences : list string) (acc : Q) (k : Z) :
  (0 <= acc <= inject_Z k)%Q ->
  exists total,
    foldl (fun acc sentence =>
             total ← acc;
             q ← py_div (inject_Z (len (split sentence))) 15;
             Ok (total + py_min q 1)%Q)
          (Ok acc) sentences = Ok total
    /\ (0 <= total <= inject_Z (k + len sentences))%Q.
Proof.
  revert acc k. induction sentences as [| s sentences IH]; intros acc k Hacc.
  - exists acc. split; [reflexivity |].
    unfold len. cbn [length Z.of_nat]. now rewrite Z.add_0_r.
  - cbn [foldl]. rewrite bind_Ok, py_div_ok by discriminate. rewrite bind_Ok.
    assert (Hq : (0 <= py_min (inject_Z (len (split s)) / 15) 1 <= 1)%Q).
    { apply py_min_unit, div_nonneg; [| reflexivity].
      apply inject_Z_nonneg, len_nonneg. }
    destruct (IH (acc + py_min (inject_Z (len (split s)) / 15) 1)%Q (k + 1))
      as (total & Ht & Hr).
    { rewrite inject_Z_plus. change (inject_Z 1) with 1%Q. lra. }
    exists total. split; [exact Ht |].
    replace (k + len (s :: sentences)) with (k + 1 + len sentences);
      [exact Hr |]. unfold len. cbn [length]. lia.
Qed.

(** X7. The syntactic complexity lies in [0, 1] for every list of
    sentences: it is a mean of values capped at 1. *)
Theorem syntactic_complexity_range (sentences : list string) :
  exists r, _analyze_syntactic_complexity sentences = Ok r /\ (0 <= r <= 1)%Q.
Proof.
  destruct sentences as [| s sentences].
  - exists 0%Q. split; [reflexivity | lra].
  - unfold _analyze_syntactic_complexity.
    destruct (complexity_loop_range (s :: sentences) 0 0) as (total & Ht & Hr);
      [change (inject_Z 0) with 0%Q; lra |].
    cbv zeta. rewrite Ht, bind_Ok, py_div_ok by apply len_cons_nonzero.
    eexists. split; [reflexivity |].
    rewrite Z.add_0_l in Hr.
    assert (Hpos : (0 < inject_Z (len (s :: sentences)))%Q).
    { apply inject_Z_pos. unfold len. cbn [length]. lia. }
    split.
    + now apply div_nonneg.
    + apply Qle_shift_div_r; trivial. lra.
Qed.

(** The counts of a [Counter], in any order. *)
Lemma counter_step (c : gmap string Z) (w : string) :
  let rest := snd <$> map_to_list (delete w c) in
  snd <$> map_to_list (<[w := default 0 (c !! w) + 1]> c)
    ≡ₚ (default 0 (c !! w) + 1) :: rest
  /\ snd <$> map_to_list c
       ≡ₚ match c !! w with Some n => n :: rest | None => rest end.
Proof.
  intros rest. split.
  - rewrite <- insert_delete_eq.
    rewrite (map_to_list_insert (delete w c)) by apply lookup_delete_eq.
    reflexivity.
  - destruct (c !! w) as [n |] eqn:E.
    + rewrite <- (insert_delete_id c w n E) at 1.
      rewrite (map_to_list_insert (delete w c)) by apply lookup_delete_eq.
      reflexivity.
    + unfold rest. now rewrite (delete_id c w E).
Qed.

Lemma sum_perm (l1 l2 : list Z) :
  l1 ≡ₚ l2 -> foldr Z.add 0 l1 = foldr Z.add 0 l2.
Proof.
  induction 1 as [| x l1 l2 _ IH | x y l | l1 l2 l3 _ IH1 _ IH2];
    cbn [foldr]; lia.
Qed.

Lemma counts_total (words : list string) (c : gmap string Z) :
  Forall (fun n => 0 <= n) (snd <$> map_to_list c) ->
  Forall (fun n => 0 <= n)
         (snd <$> map_to_list
            (foldl (fun c w => <[w := default 0 (c !! w) + 1]> c) c words))
  /\ foldr Z.add 0
       (snd <$> map_to_list
          (foldl (fun c w => <[w := default 0 (c !! w) + 1]> c) c words))
     = foldr Z.add 0 (snd <$> map_to_list c) + len words.
Proof.
  revert c. induction words as [| w words IH]; intros c Hc.
  - cbn [foldl]. unfold len. cbn [length Z.of_nat]. split; [exact Hc | lia].
  - cbn [foldl]. destruct (counter_step c w) as [Hnew Hold].
    cbv zeta in Hnew, Hold.
    assert (Hold' : Forall (fun n => 0 <= n)
                      (match c !! w with
                       | Some n => n :: (snd <$> map_to_list (delete w c))
                       | None => snd <$> map_to_list (delete w c)
                       end)) by now rewrite <- Hold.
    destruct (IH (<[w := default 0 (c !! w) + 1]> c)) as [Hpos Hsum].
    { rewrite Hnew. destruct (c !! w) as [n |]; cbn [from_option id].
      - apply Forall_cons in Hold'. destruct Hold' as [Hn Hrest].
        constructor; [cbv beta in *; lia | exact Hrest].
      - constructor; [cbv beta; lia | exact Hold']. }
    split; [exact Hpos |]. rewrite Hsum, (sum_perm _ _ Hnew), (sum_perm _ _ Hold).
    unfold len. cbn [length]. destruct (c !! w); cbn [from_option id foldr]; lia.
Qed.

Lemma repetitions_bounds (counts : list Z) :
  Forall (fun n => 0 <= n) counts ->
  0 <= foldr Z.add 0
         ((fun count => count - 1) <$> filter (fun count => 2 < count) counts)
    <= foldr Z.add 0 counts.
Proof.
  induction 1 as [| n counts Hn _ IH]; [cbn; lia |].
  cbv beta in Hn. rewrite filter_cons.
  destruct (decide (2 < n)); cbn [fmap list_fmap foldr]; lia.
Qed.

Lemma repetitions_nonneg (words : list string) (r : Q) :
  _analyze_repetitions words = Ok r -> (0 <= r)%Q.
Proof.
  destruct words as [| w words]; [intros [= <-]; lra |].
  unfold _analyze_repetitions.
  rewrite py_div_ok by apply max_len_nonzero. intros [= <-].
  destruct (counts_total (w :: words) ∅) as [Hpos _].
  { rewrite map_to_list_empty. constructor. }
  pose proof (repetitions_bounds _ Hpos) as Hr.
  fold (Counter (w :: words)) in Hr.
  apply div_nonneg; [apply inject_Z_nonneg; lia |].
  apply inject_Z_pos. pose proof (len_nonneg (w :: words)). lia.
Qed.

(** X8. The repetition score lies in [0, 1]: the occurrences counted as
    repetitions are occurrences of tokens, and there are no more of them
    than tokens. *)
Theorem repetitions_range (words : list string) :
  exists r, _analyze_repetitions words = Ok r /\ (0 <= r <= 1)%Q.
Proof.
  destruct words as [| w words].
  - exists 0%Q. split; [reflexivity | lra].
  - unfold _analyze_repetitions.
    rewrite py_div_ok by apply max_len_nonzero.
    eexists. split; [reflexivity |].
    destruct (counts_total (w :: words) ∅) as [Hpos Hsum].
    { rewrite map_to_list_empty. constructor. }
    rewrite map_to_list_empty in Hsum. cbn [fmap list_fmap foldr] in Hsum.
    pose proof (repetitions_bounds _ Hpos) as Hr.
    fold (Counter (w :: words)) in Hr, Hsum.
    assert (Hlen : 0 < len (w :: words)) by (unfold len; cbn [length]; lia).
    apply ratio_range; lia.
Qed.


End Ranges.

(** ** The order of the tokens *)

Section Order.

Variable self : SpeechAnalyzer.
Variable env : Env.

Lemma counter_step_comm (c : gmap string Z) (x y : string) :
  <[y := default 0 ((<[x := default 0 (c !! x) + 1]> c) !! y) + 1]>
    (<[x := default 0 (c !! x) + 1]> c)
  = <[x := default 0 ((<[y := default 0 (c !! y) + 1]> c) !! x) + 1]>
      (<[y := default 0 (c !! y) + 1]> c).
Proof.
  destruct (decide (x = y)) as [-> | Hne]; [reflexivity |].
  rewrite (lookup_insert_ne c x y) by exact Hne.
  rewrite (lookup_insert_ne c y x) by (intros E; now apply Hne).
  apply insert_insert_ne. intros E. now apply Hne.
Qed.

Lemma counter_fold_perm (words words' : list string) (c : gmap string Z) :
  words ≡ₚ words' ->
  foldl (fun c w => <[w := default 0 (c !! w) + 1]> c) c words
  = foldl (fun c w => <[w := default 0 (c !! w) + 1]> c) c words'.
Proof.
  intros H. revert c.
  induction H as [| x l1 l2 _ IH | x y l | l1 l2 l3 _ IH1 _ IH2]; intros c.
  - reflexivity.
  - cbn [foldl]. apply IH.
  - cbn [foldl]. now rewrite counter_step_comm.
  - now rewrite IH1.
Qed.

Lemma counter_perm (words words' : list string) :
  words ≡ₚ words' -> Counter words = Counter words'.
Proof. apply counter_fold_perm. Qed.

Lemma len_perm (words words' : list string) :
  words ≡ₚ words' -> len words = len words'.
Proof. intros H. unfold len. now rewrite (Permutation_length H). Qed.

Lemma category_words_perm (words words' : list string)
    (categories : list (string * gset string)) (acc : gset string) :
  words ≡ₚ words' ->
  foldl (fun acc '(category, word_set) =>
           acc ∪ list_to_set (filter (fun word => word ∈ (word_set : gset string)) words))
        acc categories
  = foldl (fun acc '(category, word_set) =>
             acc ∪ list_to_set (filter (fun word => word ∈ (word_set : gset string)) words'))
          acc categories.
Proof.
  intros H. revert acc.
  induction categories as [| [category word_set] categories IH]; intros acc;
    cbn [foldl]; [reflexivity |].
  rewrite IH. do 2 f_equal. apply list_to_set_perm_L. now rewrite H.
Qed.

(** X9. The order of the tokens matters to no metric computed from them:
    on two token lists that are permutations of each other the speech
    rate, the vocabulary richness, the repetition score, the word-finding
    difficulty, the fluency score and the semantic fluency are the same. *)
Theorem token_order_irrelevant (transcript : string)
    (metadata : option (gmap string num)) (words words' : list string) :
  words ≡ₚ words' ->
  _calculate_speech_rate words metadata = _calculate_speech_rate words' metadata
  /\ _calculate_vocabulary_richness words = _calculate_vocabulary_richness words'
  /\ _analyze_repetitions words = _analyze_repetitions words'
  /\ _analyze_word_finding self env transcript words
     = _analyze_word_finding self env transcript words'
  /\ _calculate_fluency_score self env transcript words
     = _calculate_fluency_score self env transcript words'
  /\ _analyze_semantic_fluency self words = _analyze_semantic_fluency self words'.
Proof.
  intros H. pose proof (len_perm _ _ H) as Hlen.
  assert (Hrep : _analyze_repetitions words = _analyze_repetitions words').
  { unfold _analyze_repetitions. rewrite (counter_perm _ _ H), Hlen.
    destruct words, words'; try reflexivity; exfalso;
      first [ now apply Permutation_nil_cons in H
            | symmetry in H; now apply Permutation_nil_cons in H ]. }
  assert (Hwfd : _analyze_word_finding self env transcript words
                 = _analyze_word_finding self env transcript words').
  { unfold _analyze_word_finding. now rewrite Hlen. }
  split; [unfold _calculate_speech_rate; now rewrite Hlen |].
  split.
  { unfold _calculate_vocabulary_richness.
    rewrite (list_to_set_perm_L (C := gset string) _ _ H), Hlen.
    destruct words, words'; try reflexivity; exfalso;
      first [ now apply Permutation_nil_cons in H
            | symmetry in H; now apply Permutation_nil_cons in H ]. }
  split; [exact Hrep |]. split; [exact Hwfd |]. split.
  - unfold _calculate_fluency_score. rewrite Hrep, Hwfd, Hlen.
    now rewrite (len_perm _ _ (filter_Permutation _ _ _ H)).
  - unfold _analyze_semantic_fluency.
    now rewrite (category_words_perm _ _ _ _ H), Hlen.
Qed.

(** X10. A token list without a repeated token has vocabulary richness
    1.0. *)
Theorem distinct_tokens_are_rich (words : list string) :
  NoDup words -> words <> [] ->
  exists r, _calculate_vocabulary_richness words = Ok r /\ (r == 1)%Q.
Proof.
  intros Hnd Hne. destruct words as [| w words]; [congruence |].
  unfold _calculate_vocabulary_richness.
  rewrite py_div_ok by apply len_cons_nonzero. rewrite bind_Ok.
  eexists. split; [reflexivity |].
  rewrite (size_list_to_set (w :: words) Hnd). fold (len (w :: words)).
  assert (E : (inject_Z (len (w :: words)) / inject_Z (len (w :: words)) == 1)%Q).
  { apply Qmult_inv_r, len_cons_nonzero. }
  assert (E1 : (py_round 1 3 == 1)%Q) by reflexivity.
  apply (Qeq_trans _ (py_round 1 3)); [| exact E1].
  apply Qle_antisym; apply py_round_mono; rewrite E; lra.
Qed.

Lemma distinct_tokens_are_rich_witness :
  exists r, _calculate_vocabulary_richness five_words = Ok r /\ (r == 1)%Q.
Proof.
  apply (distinct_tokens_are_rich five_words).
  - apply (bool_decide_unpack _). reflexivity.
  - discriminate.
Defined.

End Order.

Lemma token_order_irrelevant_witness :
  _calculate_fluency_score __init__ env_fallback "um so it is"
    ["um"; "so"; "it"; "is"]
  = _calculate_fluency_score __init__ env_fallback "um so it is"
      ["is"; "it"; "so"; "um"].
Proof.
  assert (H : ["um"; "so"; "it"; "is"] ≡ₚ ["is"; "it"; "so"; "um"])
    by (symmetry; apply (Permutation_rev ["is"; "it"; "so"; "um"])).
  exact (proj1 (proj2 (proj2 (proj2 (proj2
    (token_order_irrelevant __init__ env_fallback "um so it is" None _ _ H)))))).
Defined.

(** ** Missing keys and the shape of the explanation *)

Section Dicts.

Variable env : Env.


Lemma getitem_None (d : gmap string num) (key : string) :
  d !! key = None -> getitem d key = Raise (KeyError key).
Proof. intros H. unfold getitem. now rewrite H. Qed.

Lemma contains_None (d : gmap string num) (key : string) :
  d !! key = None -> contains d key = false.
Proof.
  intros H. unfold contains. apply bool_decide_eq_false_2.
  rewrite H. now intros [v Hv].
Qed.

Lemma py_round_comp (x y : Q) (n : nat) : (x == y)%Q -> py_round x n = py_round y n.
Proof.
  intros H. unfold py_round. f_equal. apply round_half_even_comp. now rewrite H.
Qed.

Lemma getitem_insert_ne (d : gmap string num) (k key : string) (v : num) :
  k <> key -> getitem (<[k := v]> d) key = getitem d key.
Proof. intros H. unfold getitem. now rewrite lookup_insert_ne. Qed.

Lemma contains_insert_ne (d : gmap string num) (k key : string) (v : num) :
  k <> key -> contains (<[k := v]> d) key = contains d key.
Proof. intros H. unfold contains. now rewrite lookup_insert_ne. Qed.

(** X11. [_calculate_risk_score] needs the four banded metrics and raises
    [KeyError] for the first of them that the dict lacks, in the order
    speech rate, pause count, vocabulary richness, fluency score.  The two
    continuous metrics are optional: with the banded ones present a score
    is returned in any case, and a dict that lacks
    [word_finding_difficulty] or [repetition_score] is scored as if it
    held 0 there. *)
Theorem risk_score_keys (m : gmap string num) :
  (m !! "speech_rate" = None ->
   _calculate_risk_score m = Raise (KeyError "speech_rate"))
  /\ (is_Some (m !! "speech_rate") -> m !! "pause_count" = None ->
      _calculate_risk_score m = Raise (KeyError "pause_count"))
  /\ (is_Some (m !! "speech_rate") -> is_Some (m !! "pause_count") ->
      m !! "vocabulary_richness" = None ->
      _calculate_risk_score m = Raise (KeyError "vocabulary_richness"))
  /\ (is_Some (m !! "speech_rate") -> is_Some (m !! "pause_count") ->
      is_Some (m !! "vocabulary_richness") -> m !! "fluency_score" = None ->
      _calculate_risk_score m = Raise (KeyError "fluency_score"))
  /\ (is_Some (m !! "speech_rate") -> is_Some (m !! "pause_count") ->
      is_Some (m !! "vocabulary_richness") -> is_Some (m !! "fluency_score") ->
      exists r, _calculate_risk_score m = Ok r)
  /\ (m !! "word_finding_difficulty" = None ->
      _calculate_risk_score (<["word_finding_difficulty" := VInt 0]> m)
      = _calculate_risk_score m)
  /\ (m !! "repetition_score" = None ->
      _calculate_risk_score (<["repetition_score" := VInt 0]> m)
      = _calculate_risk_score m).
Proof.
  repeat match goal with |- _ /\ _ => split end.
  - intros H. unfold _calculate_risk_score. now rewrite (getitem_None _ _ H).
  - intros [v1 L1] H. unfold _calculate_risk_score.
    now rewrite (getitem_Some _ _ _ L1), bind_Ok, (getitem_None _ _ H).
  - intros [v1 L1] [v2 L2] H. unfold _calculate_risk_score.
    now rewrite (getitem_Some _ _ _ L1), bind_Ok, (getitem_Some _ _ _ L2),
      bind_Ok, (getitem_None _ _ H).
  - intros [v1 L1] [v2 L2] [v3 L3] H. unfold _calculate_risk_score.
    now rewrite (getitem_Some _ _ _ L1), bind_Ok, (getitem_Some _ _ _ L2),
      bind_Ok, (getitem_Some _ _ _ L3), bind_Ok, (getitem_None _ _ H).
  - intros [v1 L1] [v2 L2] [v3 L3] [v4 L4]. unfold _calculate_risk_score.
    rewrite (getitem_Some _ _ _ L1), bind_Ok, (getitem_Some _ _ _ L2),
      bind_Ok, (getitem_Some _ _ _ L3), bind_Ok, (getitem_Some _ _ _ L4), bind_Ok.
    destruct (m !! "word_finding_difficulty") as [v5 |] eqn:L5;
      destruct (m !! "repetition_score") as [v6 |] eqn:L6;
      rewrite ?(contains_Some _ _ _ L5), ?(getitem_Some _ _ _ L5),
        ?(contains_None _ _ L5), ?bind_Ok,
        ?(contains_Some _ _ _ L6), ?(getitem_Some _ _ _ L6),
        ?(contains_None _ _ L6), ?bind_Ok;
      eexists; reflexivity.
  - intros H. unfold _calculate_risk_score.
    rewrite (getitem_insert_ne m _ "speech_rate"),
      (getitem_insert_ne m _ "pause_count"),
      (getitem_insert_ne m _ "vocabulary_richness"),
      (getitem_insert_ne m _ "fluency_score"),
      (getitem_insert_ne m _ "repetition_score"),
      (contains_insert_ne m _ "repetition_score") by discriminate.
    rewrite (contains_Some _ "word_finding_difficulty" (VInt 0))
      by apply lookup_insert_eq.
    rewrite (getitem_Some _ "word_finding_difficulty" (VInt 0))
      by apply lookup_insert_eq.
    rewrite (contains_None _ _ H).
    destruct (getitem m "speech_rate"); [| reflexivity].
    destruct (getitem m "pause_count"); [| reflexivity].
    destruct (getitem m "vocabulary_richness"); [| reflexivity].
    destruct (getitem m "fluency_score"); [| reflexivity].
    rewrite !bind_Ok.
    destruct (contains m "repetition_score");
      [destruct (getitem m "repetition_score"); [| reflexivity] |];
      rewrite !bind_Ok; do 3 f_equal; apply py_round_comp;
      change (to_Q (VInt 0)) with 0%Q; ring.
  - intros H. unfold _calculate_risk_score.
    rewrite (getitem_insert_ne m _ "speech_rate"),
      (getitem_insert_ne m _ "pause_count"),
      (getitem_insert_ne m _ "vocabulary_richness"),
      (getitem_insert_ne m _ "fluency_score"),
      (getitem_insert_ne m _ "word_finding_difficulty"),
      (contains_insert_ne m _ "word_finding_difficulty") by discriminate.
    rewrite (contains_Some _ "repetition_score" (VInt 0))
      by apply lookup_insert_eq.
    rewrite (getitem_Some _ "repetition_score" (VInt 0))
      by apply lookup_insert_eq.
    rewrite (contains_None _ _ H).
    destruct (getitem m "speech_rate"); [| reflexivity].
    destruct (getitem m "pause_count"); [| reflexivity].
    destruct (getitem m "vocabulary_richness"); [| reflexivity].
    destruct (getitem m "fluency_score"); [| reflexivity].
    rewrite !bind_Ok.
    destruct (contains m "word_finding_difficulty");
      [destruct (getitem m "word_finding_difficulty"); [| reflexivity] |];
      rewrite !bind_Ok; do 3 f_equal; apply py_round_comp;
      change (to_Q (VInt 0)) with 0%Q; ring.
Qed.

Lemma risk_score_keys_witness :
  _calculate_risk_score calm_metrics = Ok 0%Q
  /\ _calculate_risk_score (delete "pause_count" calm_metrics)
     = Raise (KeyError "pause_count").
Proof.
  split; [reflexivity |].
  apply (proj1 (proj2 (risk_score_keys (delete "pause_count" calm_metrics)))).
  - now exists (VFloat 120).
  - reflexivity.
Defined.




End Dicts.


(** ** The stages of [analyze] together *)

Section Composition.

Variable self : SpeechAnalyzer.
Variable env : Env.

Lemma analyze_Ok_run (transcript : string) (metadata : option (gmap string num))
    (a : Analysis) :
  analyze self env transcript metadata = Ok a ->
  let words := _tokenize_words (_clean_text transcript) in
  let pc := _estimate_pause_count transcript in
  exists sr vr fl sem syn rep wfd text,
    _calculate_speech_rate words metadata = Ok sr
    /\ _calculate_vocabulary_richness words = Ok vr
    /\ _calculate_fluency_score self env transcript words = Ok fl
    /\ _analyze_repetitions words = Ok rep
    /\ _analyze_word_finding self env transcript words = Ok wfd
    /\ _generate_explanation env
         (Reference.aggregate
            {| Reference.speech_rate := sr;
               Reference.pause_count := inject_Z pc;
               Reference.vocabulary_richness := vr;
               Reference.fluency_score := fl;
               Reference.semantic_fluency := sem;
               Reference.syntactic_complexity := syn;
               Reference.repetition_score := rep;
               Reference.word_finding_difficulty := wfd |})
         (explained_metrics sr pc vr fl) = Ok text
    /\ a = {| riskScore :=
                py_int (Reference.aggregate
                  {| Reference.speech_rate := sr;
                     Reference.pause_count := inject_Z pc;
                     Reference.vocabulary_richness := vr;
                     Reference.fluency_score := fl;
                     Reference.semantic_fluency := sem;
                     Reference.syntactic_complexity := syn;
                     Reference.repetition_score := rep;
                     Reference.word_finding_difficulty := wfd |});
              explanation := text;
              metrics := {| speechRate := sr;
                            pauseCount := pc;
                            vocabularyRichness := vr;
                            fluencyScore := fl |} |}.
Proof.
  intros H words pc. destruct (blank transcript) eqn:Hb.
  - rewrite analyze_blank in H by assumption. discriminate.
  - destruct (analyze_run self env transcript metadata Hb)
      as (sr & vr & fl & sem & syn & rep & wfd & text
          & Hsr & Hvr & Hfl & Hrep & Hwfd & Htext & Ha).
    exists sr, vr, fl, sem, syn, rep, wfd, text.
    do 5 (split; [assumption |]). split; [exact Htext |].
    rewrite Ha in H. now injection H as <-.
Qed.



Lemma pause_count_range (transcript : string) :
  0 <= _estimate_pause_count transcript <= 20.
Proof.
  unfold _estimate_pause_count.
  assert (H : forall l acc, 0 <= acc ->
            0 <= foldl (fun acc indicator =>
                          acc + Z.of_nat (count (lower transcript) indicator))
                       acc l).
  { induction l as [| i l IH]; intros acc Hacc; cbn [foldl]; [exact Hacc |].
    apply IH. lia. }
  specialize (H pause_indicators 0 (Z.le_refl 0)). lia.
Qed.

Lemma speech_rate_range (words : list string)
    (metadata : option (gmap string num)) (sr : Q) :
  _calculate_speech_rate words metadata = Ok sr ->
  (0 <= sr)%Q
  /\ (Reference.supplied_duration metadata = None -> (60 <= sr <= 200)%Q).
Proof.
  assert (He : forall x, (0 <= py_max 60 (py_min 200 x))%Q
                         /\ (60 <= py_max 60 (py_min 200 x) <= 200)%Q).
  { intros x. pose proof (py_clamp_range 60 200 x). split; lra. }
  unfold _calculate_speech_rate, Reference.supplied_duration.
  destruct metadata as [md |]; cbn [mbind option_bind];
    [| intros [= <-]; split; [apply He | intros _; apply He]].
  destruct (size md =? 0)%nat;
    [intros [= <-]; split; [apply He | intros _; apply He] |].
  destruct (md !! "duration") as [d |];
    [| intros [= <-]; split; [apply He | intros _; apply He]].
  rewrite py_div_ok by apply duration_nonzero. rewrite bind_Ok.
  intros [= <-]. split; [| discriminate].
  apply (Qle_trans _ (py_round 0 1)); [discriminate | apply py_round_mono].
  assert (Hd : (0 < (if Qle_bool (to_Q d) 0 then 30 else to_Q d))%Q).
  { destruct (Qle_bool_cases (to_Q d) 0) as [[-> ?] | [-> ?]]; lra. }
  pose proof (div_nonneg (inject_Z (len words)) _
                (inject_Z_nonneg _ (len_nonneg words)) Hd).
  lra.
Qed.

(** X14. The metrics that [analyze] reports are bounded: the pause count
    lies in [0, 20], the speech rate is never negative, and when the
    metadata supplies no duration the (estimated) speech rate lies in
    [60, 200]. *)
Theorem reported_metrics_bounded (transcript : string)
    (metadata : option (gmap string num)) (a : Analysis) :
  analyze self env transcript metadata = Ok a ->
  0 <= pauseCount (metrics a) <= 20
  /\ (0 <= speechRate (metrics a))%Q
  /\ (Reference.supplied_duration metadata = None ->
      (60 <= speechRate (metrics a) <= 200)%Q).
Proof.
  intros H. apply analyze_Ok_run in H.
  destruct H as (sr & vr & fl & sem & syn & rep & wfd & text
                 & Hsr & _ & _ & _ & _ & _ & ->).
  cbn [metrics speechRate pauseCount].
  split; [apply pause_count_range |]. now apply speech_rate_range in Hsr.
Qed.

Lemma points_nonneg (bands : list Reference.band) (v : Q) :
  Forall (fun b => (0 <= snd b)%Q) bands -> (0 <= Reference.points bands v)%Q.
Proof.
  unfold Reference.points, Reference.matching.
  induction 1 as [| b bands Hb _ IH]; cbn [List.filter foldr]; [lra |].
  destruct (fst b v); cbn [foldr]; lra.
Qed.

Lemma aggregate_lower_bound (f : Reference.FeatureVector) (z : Z) :
  0 <= z <= 100 ->
  (inject_Z z <= Reference.total f)%Q ->
  z <= py_int (Reference.aggregate f).
Proof.
  intros Hz H. unfold Reference.aggregate.
  rewrite py_round_0, py_int_inject, round_clamp.
  pose proof (round_half_even_mono _ _ H) as Hr.
  rewrite round_half_even_Z in Hr. lia.
Qed.

(** X15. Without metadata a short transcript always pays the slow-speech
    penalty: with fewer than 40 tokens the estimated rate is below 80
    words per minute, and the risk score is at least 25. *)
Theorem short_transcript_penalty (transcript : string) (a : Analysis) :
  analyze self env transcript None = Ok a ->
  len (_tokenize_words (_clean_text transcript)) < 40 ->
  (speechRate (metrics a) < 80)%Q /\ 25 <= riskScore a.
Proof.
  intros H Hlen. apply analyze_Ok_run in H.
  destruct H as (sr & vr & fl & sem & syn & rep & wfd & text
                 & Hsr & _ & _ & Hrep & Hwfd & _ & ->).
  cbn [metrics speechRate riskScore].
  assert (Hslow : (sr < 80)%Q).
  { unfold _calculate_speech_rate in Hsr. injection Hsr as <-.
    assert (Hx : (inject_Z (len (_tokenize_words (_clean_text transcript))) * 2
                  < 80)%Q).
    { assert (Hq : (inject_Z (len (_tokenize_words (_clean_text transcript)))
                    < inject_Z 40)%Q) by now rewrite <- Zlt_Qlt.
      change (inject_Z 40) with 40%Q in Hq. lra. }
    unfold py_max, py_min.
    repeat match goal with |- context [Qltb ?x ?y] =>
      destruct (Qltb_cases x y) as [[-> ?] | [-> ?]] end; lra. }
  split; [exact Hslow |].
  apply aggregate_lower_bound; [lia |].
  unfold Reference.total.
  cbn [Reference.speech_rate Reference.pause_count Reference.vocabulary_richness
       Reference.fluency_score Reference.repetition_score
       Reference.word_finding_difficulty].
  pose proof (repetitions_nonneg _ _ Hrep) as Hrep0.
  pose proof (word_finding_nonneg self env _ _ _ Hwfd) as Hwfd0.
  assert (Hs : (Reference.points Reference.speech_rate_bands sr == 25)%Q).
  { pose proof (speech_rate_band 0 sr) as Hb.
    rewrite (proj2 (Qltb_lt sr 80) Hslow) in Hb. lra. }
  pose proof (points_nonneg Reference.pause_count_bands
                (inject_Z (_estimate_pause_count transcript))) as H2.
  pose proof (points_nonneg Reference.vocabulary_richness_bands vr) as H3.
  pose proof (points_nonneg Reference.fluency_score_bands fl) as H4.
  assert (H2' := H2 ltac:(repeat constructor; discriminate)).
  assert (H3' := H3 ltac:(repeat constructor; discriminate)).
  assert (H4' := H4 ltac:(repeat constructor; discriminate)).
  change (inject_Z 25) with 25%Q. lra.
Qed.

End Composition.

Lemma short_transcript_penalty_witness :
  exists a, analyze __init__ env_fallback sarah None = Ok a /\ 25 <= riskScore a.
Proof.
  eexists. split; [vm_compute; reflexivity |].
  match goal with |- 25 <= riskScore ?a =>
    exact (proj2 (short_transcript_penalty __init__ env_fallback sarah a
                    eq_refl eq_refl))
  end.
Defined.


Lemma reported_metrics_bounded_witness :
  exists a, analyze __init__ env_fallback sarah None = Ok a
            /\ 0 <= pauseCount (metrics a) <= 20.
Proof.
  eexists. split; [vm_compute; reflexivity |].
  match goal with |- 0 <= pauseCount (metrics ?a) <= 20 =>
    exact (proj1 (reported_metrics_bounded __init__ env_fallback sarah None a
                    eq_refl))
  end.
Defined.

(** ** Letter case *)

Section Case.

Variable self : SpeechAnalyzer.
Variable env : Env.

Lemma counted_mark_lower (c a : ascii) :
  is_counted_mark c = true -> Ascii.eqb c (lower_char a) = Ascii.eqb c a.
Proof.
  unfold is_counted_mark. rewrite !orb_true_iff, !Ascii.eqb_eq.
  intros [[-> | ->] | ->];
    destruct a as [[] [] [] [] [] [] [] []]; reflexivity.
Qed.

Lemma starts_with_lower (sub s : string) :
  all_chars is_counted_mark sub = true ->
  starts_with sub (lower s) = starts_with sub s.
Proof.
  revert s. induction sub as [| c sub IH]; intros s H; [reflexivity |].
  cbn [all_chars] in H. apply andb_true_iff in H. destruct H as [Hc Hsub].
  destruct s as [| a s]; [reflexivity |].
  cbn [lower starts_with]. now rewrite (counted_mark_lower c a Hc), IH.
Qed.

Lemma count_from_lower (sub : string) (skip : nat) (s : string) :
  all_chars is_counted_mark sub = true ->
  count_from sub skip (lower s) = count_from sub skip s.
Proof.
  intros H. revert skip. induction s as [| a s IH]; intros skip; [reflexivity |].
  cbn [lower count_from]. destruct skip as [| k]; [| apply IH].
  change (String (lower_char a) (lower s)) with (lower (String a s)).
  rewrite (starts_with_lower sub (String a s) H).
  destruct (starts_with sub (String a s)); now rewrite IH.
Qed.

(** Lower-casing a text does not change how often a run of counted
    punctuation marks occurs in it. *)
Lemma count_lower (s sub : string) :
  all_chars is_counted_mark sub = true -> truthy sub = true ->
  count (lower s) sub = count s sub.
Proof.
  intros H Ht. destruct sub; [discriminate |].
  unfold count. now apply count_from_lower.
Qed.

Lemma blank_lower (s : string) : blank (lower s) = blank s.
Proof.
  induction s as [| c s IH]; [reflexivity |].
  cbn [lower blank]. now rewrite isspace_lower_char, IH.
Qed.

Lemma clean_text_lower (s : string) : _clean_text (lower s) = _clean_text s.
Proof. unfold _clean_text. now rewrite lower_idem. Qed.

Lemma pause_count_lower (s : string) :
  _estimate_pause_count (lower s) = _estimate_pause_count s.
Proof.
  unfold _estimate_pause_count.
  now rewrite lower_idem, !count_lower.
Qed.

Lemma word_finding_lower (s : string) (words : list string) :
  _analyze_word_finding self env (lower s) words
  = _analyze_word_finding self env s words.
Proof.
  unfold _analyze_word_finding. now rewrite lower_idem, count_lower.
Qed.

Lemma fluency_lower (s : string) (words : list string) :
  _calculate_fluency_score self env (lower s) words
  = _calculate_fluency_score self env s words.
Proof.
  unfold _calculate_fluency_score. now rewrite word_finding_lower.
Qed.

Lemma analyze_lower (transcript : string) (metadata : option (gmap string num)) :
  analyze self env (lower transcript) metadata
  = analyze self env transcript metadata.
Proof.
  unfold analyze.
  rewrite !guard_blank, blank_lower, clean_text_lower, pause_count_lower,
    fluency_lower, word_finding_lower.
  reflexivity.
Qed.

(** X16. [analyze] ignores letter case: two transcripts with the same
    lower-case form get the same result, in risk score, explanation and
    metrics. *)
Theorem analyze_ignores_case (transcript transcript' : string)
    (metadata : option (gmap string num)) :
  lower transcript = lower transcript' ->
  analyze self env transcript metadata = analyze self env transcript' metadata.
Proof.
  intros H. rewrite <- (analyze_lower transcript), <- (analyze_lower transcript').
  now rewrite H.
Qed.

End Case.

Lemma analyze_ignores_case_witness :
  analyze __init__ env_fallback "Well, UM... I Forgot" None
  = analyze __init__ env_fallback "well, um... i forgot" None.
Proof.
  apply (analyze_ignores_case __init__ env_fallback). reflexivity.
Defined.

(** * The transcription service *)

Section Transcription.

Import Transcriber.

Lemma blank_not_truthy (s : string) : blank s = false -> truthy s = true.
Proof. now destruct s. Qed.

Lemma mock_from_lists (world : World) :
  choice_ok world ->
  _mock_transcription world
  ∈ high_energy_transcripts ++ medium_energy_transcripts
    ++ low_energy_transcripts ++ [fallback_transcript].
Proof.
  intros Hc. unfold _mock_transcription.
  destruct (audio_energy world) as [e |].
  - cbv zeta. rewrite !elem_of_app.
    destruct (Qltb (2 # 100) e); [left; now apply Hc |].
    destruct (Qltb (1 # 100) e).
    + right. left. now apply Hc.
    + right. right. left. now apply Hc.
  - rewrite !elem_of_app. do 3 right. constructor.
Qed.

Lemma mock_lists_not_blank :
  Forall (fun t => blank t = false)
    (high_energy_transcripts ++ medium_energy_transcripts
     ++ low_energy_transcripts ++ [fallback_transcript]).
Proof. repeat constructor. Qed.

Lemma mock_not_blank (world : World) :
  choice_ok world -> blank (_mock_transcription world) = false.
Proof.
  intros Hc. pose proof mock_lists_not_blank as H.
  rewrite Forall_forall in H. now apply H, mock_from_lists.
Qed.

(** X17. Whatever the audio library and the remote services do,
    [transcribe] returns a transcript that is not empty, the duration that
    the audio library measured (30.0 when it failed), and the confidence
    of the source that supplied the transcript: 0.90 for HuggingFace, 0.95
    for OpenAI, 0.85 for the mock; the source is the last one called. *)
Theorem transcribe_result (self : TranscriptionService) (world : World) :
  choice_ok world ->
  duration (fst (transcribe self world)) = default 30%Q (audio_duration world)
  /\ exists text,
       transcript (fst (transcribe self world)) = Some text
       /\ truthy text = true
       /\ ((confidence (fst (transcribe self world)) = (90 # 100)%Q
            /\ huggingface_text world = Some text
            /\ last (snd (transcribe self world)) = Some HuggingFace)
           \/ (confidence (fst (transcribe self world)) = (95 # 100)%Q
               /\ openai_text world = Some text
               /\ last (snd (transcribe self world)) = Some OpenAI)
           \/ (confidence (fst (transcribe self world)) = (85 # 100)%Q
               /\ text = _mock_transcription world
               /\ last (snd (transcribe self world)) = Some Mock)).
Proof.
  intros Hc.
  pose proof (blank_not_truthy _ (mock_not_blank world Hc)) as Hm.
  split.
  { unfold transcribe, _get_audio_duration.
    destruct (truthy_text (huggingface_api_key self)),
      (huggingface_text world) as [[| c t] |],
      (truthy_text (openai_api_key self)),
      (openai_text world) as [[| c' t'] |];
      now destruct (audio_duration world). }
  unfold transcribe.
  destruct (truthy_text (huggingface_api_key self)),
    (huggingface_text world) as [[| c t] |],
    (truthy_text (openai_api_key self)),
    (openai_text world) as [[| c' t'] |];
    cbn [truthy_text truthy negb andb app fst snd transcript confidence last];
    eexists; (split; [reflexivity |]); (split; [first [reflexivity | exact Hm] |]);
    first [ left; repeat split; reflexivity
          | right; left; repeat split; reflexivity
          | right; right; repeat split; reflexivity ].
Qed.

(** X18. [transcribe] asks HuggingFace first, whenever its key is set;
    OpenAI is asked only when its key is set and HuggingFace gave no
    non-empty transcript (no key, a failure, or an empty text); the mock
    is used only when neither service gave a non-empty transcript.  No
    source is asked twice, and they are asked in this order. *)
Theorem transcribe_order (self : TranscriptionService) (world : World) :
  let calls := snd (transcribe self world) in
  let from_huggingface :=
    (truthy_text (huggingface_api_key self)
     && truthy_text (huggingface_text world))%bool in
  let from_openai :=
    (negb from_huggingface && truthy_text (openai_api_key self)
     && truthy_text (openai_text world))%bool in
  (HuggingFace ∈ calls <-> truthy_text (huggingface_api_key self) = true)
  /\ (OpenAI ∈ calls <->
      from_huggingface = false /\ truthy_text (openai_api_key self) = true)
  /\ (Mock ∈ calls <-> from_huggingface = false /\ from_openai = false)
  /\ calls `sublist_of` [HuggingFace; OpenAI; Mock].
Proof.
  cbv zeta. unfold transcribe.
  destruct (truthy_text (huggingface_api_key self)),
    (huggingface_text world) as [[| c t] |],
    (truthy_text (openai_api_key self)),
    (openai_text world) as [[| c' t'] |];
    cbn [truthy_text truthy negb andb app fst snd];
    (split; [| split; [| split]]);
    rewrite ?elem_of_cons, ?elem_of_nil;
    try (split; intros; intuition congruence);
    repeat first [ apply sublist_nil_l | apply sublist_skip | apply sublist_cons ].
Qed.

(** X19. The mock transcript is one of the ten fixed texts and is never
    blank, so that [analyze] accepts it: the demonstration path cannot end
    in the empty-transcript error. *)
Theorem mock_transcript_is_analyzable (world : World) (self : SpeechAnalyzer)
    (env : Env) (metadata : option (gmap string num)) :
  choice_ok world ->
  _mock_transcription world
  ∈ high_energy_transcripts ++ medium_energy_transcripts
    ++ low_energy_transcripts ++ [fallback_transcript]
  /\ blank (_mock_transcription world) = false
  /\ exists a, analyze self env (_mock_transcription world) metadata = Ok a.
Proof.
  intros Hc. split; [now apply mock_from_lists |].
  pose proof (mock_not_blank world Hc) as Hb. split; [exact Hb |].
  destruct (analyze_run self env _ metadata Hb)
    as (sr & vr & fl & sem & syn & rep & wfd & text & _ & _ & _ & _ & _ & _ & Ha).
  eauto.
Qed.

End Transcription.

Lemma quiet_world_ok : Transcriber.choice_ok quiet_world.
Proof. intros [| t l] Hl; [congruence | constructor]. Qed.

Lemma transcribe_result_witness :
  exists text,
    Transcriber.transcript (fst (Transcriber.transcribe no_keys quiet_world))
    = Some text
    /\ truthy text = true.
Proof.
  destruct (proj2 (transcribe_result no_keys quiet_world quiet_world_ok))
    as (text & Ht & Hn & _).
  exists text. split; [exact Ht | exact Hn].
Defined.

Lemma mock_transcript_is_analyzable_witness :
  exists a,
    analyze __init__ env_fallback (Transcriber._mock_transcription quiet_world)
      None = Ok a.
Proof.
  exact (proj2 (proj2 (mock_transcript_is_analyzable quiet_world __init__
                         env_fallback None quiet_world_ok))).
Defined.

(** * The analysis endpoint *)

Section Endpoint.

Import App.

Variable env : Env.
Variable wording : Wording.

(** X20. [analyze_speech] never answers with status 400.  Its own
    rejection of a blank transcript is raised inside the [try] block, is
    caught there by [except Exception], and leaves as status 500 with the
    detail "Analysis failed: " followed by [str] of the caught
    [HTTPException]; this happens exactly for blank transcripts.  A
    request whose transcript is not blank and whose metadata holds a
    number, or nothing, under ['duration'] is answered with the risk
    score, the explanation and the four metrics that [analyze] computes,
    the risk score lying in [0, 100].  The metadata is forwarded
    unchecked: with a duration of another JSON type the [TypeError] of
    [analyze] is caught and the answer is status 500 as well. *)
Theorem analyze_speech_status (request : AnalysisRequest) :
  (forall detail, analyze_speech env wording request <> HTTPException 400 detail)
  /\ (blank (request_transcript request) = true ->
      analyze_speech env wording request
      = HTTPException 500
          ("Analysis failed: "
           +:+ str_http wording 400 "Transcript cannot be empty"))
  /\ (blank (request_transcript request) = false ->
      Dynamic.numeric_duration (Some (request_metadata request)) = true ->
      exists a,
        Dynamic.analyze speech_analyzer env (request_transcript request)
          (Some (request_metadata request)) = Ok a
        /\ analyze_speech env wording request
           = Respond {| response_riskScore := riskScore a;
                        response_explanation := explanation a;
                        response_metrics := metrics_dict (metrics a) |}
        /\ 0 <= riskScore a <= 100)
  /\ (blank (request_transcript request) = false ->
      forall v, request_metadata request !! "duration" = Some v ->
                Json.is_number v = false ->
      analyze_speech env wording request
      = HTTPException 500
          ("Analysis failed: "
           +:+ str_exn wording
                 (TypeError (Json.not_ordered Dynamic.number_name v)))).
Proof.
  unfold analyze_speech, analyze_speech_body.
  rewrite strip_truthy, negb_involutive.
  destruct (blank (request_transcript request)) eqn:Hb.
  - split; [discriminate |]. split; [reflexivity |].
    split; discriminate.
  - split; [| split; [discriminate | split]].
    + now destruct (Dynamic.analyze _ _ _ _).
    + intros _ Hn. rewrite (dynamic_analyze_typed _ _ _ _ Hn).
      destruct (analyze_run speech_analyzer env (request_transcript request)
                  (Dynamic.typed (Some (request_metadata request))) Hb)
        as (sr & vr & fl & sem & syn & rep & wfd & text
            & _ & _ & _ & _ & _ & _ & Ha).
      rewrite Ha. eexists. split; [reflexivity |]. split; [reflexivity |].
      cbn [riskScore].
      match goal with |- context [Reference.aggregate ?f] =>
        destruct (aggregate_integer f) as (z & -> & Hz) end.
      now rewrite py_int_inject.
    + intros _ v Hv Hn.
      now rewrite (dynamic_analyze_type_error speech_analyzer env
                     (request_transcript request)
                     (Some (request_metadata request)) v Hb Hv Hn).
Qed.

End Endpoint.

Lemma analyze_speech_status_witness :
  App.analyze_speech env_fallback starlette_wording
    {| App.request_transcript := "   "; App.request_metadata := ∅ |}
  = App.HTTPException 500 "Analysis failed: 400: Transcript cannot be empty"
  /\ App.analyze_speech env_fallback starlette_wording
       {| App.request_transcript := sarah;
          App.request_metadata := <["duration" := Json.Text "30"]> ∅ |}
     = App.HTTPException 500
         "Analysis failed: '<=' not supported between instances of 'str' and 'int'".
Proof.
  split.
  - exact (proj1 (proj2 (analyze_speech_status env_fallback starlette_wording
                           {| App.request_transcript := "   ";
                              App.request_metadata := ∅ |})) eq_refl).
  - exact (proj2 (proj2 (proj2
             (analyze_speech_status env_fallback starlette_wording
                {| App.request_transcript := sarah;
                   App.request_metadata := <["duration" := Json.Text "30"]> ∅ |})))
             eq_refl (Json.Text "30") eq_refl eq_refl).
Defined.

Section Upload.

Import App.

Lemma starts_with_truthy (prefix s : string) :
  truthy prefix = true -> starts_with prefix s = true -> truthy s = true.
Proof. destruct prefix, s; cbn; congruence. Qed.

(** X21. [transcribe_audio] accepts an upload exactly when its content
    type starts with "audio/" or is "application/octet-stream", and
    otherwise raises status 400 inside the [try] block.  For an accepted
    upload the suffix of the temporary file depends on the content type
    alone: the file name is never consulted, the suffix is one of five,
    and a binary upload always gets ".wav". *)
Theorem upload_suffix_by_content_type (audio : UploadFile) :
  let accepted :=
    (starts_with "audio/" (default EmptyString (content_type audio))
     || bool_decide (content_type audio = Some "application/octet-stream"%string))%bool in
  (accepted = false ->
   upload_suffix audio
   = inl (RaisedHTTP 400 "Invalid file type. Please upload an audio file."))
  /\ (accepted = true ->
      exists suffix,
        upload_suffix audio = inr suffix
        /\ suffix ∈ [".wav"; ".webm"; ".mp4"; ".ogg"; ".m4a"]
        /\ (content_type audio = Some "application/octet-stream"%string ->
            suffix = ".wav"%string))
  /\ (forall name,
        upload_suffix {| content_type := content_type audio; filename := name |}
        = upload_suffix audio).
Proof.
  cbv zeta. destruct audio as [[ct |] name]; cbn [content_type filename].
  - unfold upload_suffix. cbn [content_type filename is_set default from_option id].
    destruct (bool_decide (Some ct = Some "application/octet-stream"%string)) eqn:Ho.
    + apply bool_decide_eq_true_1 in Ho. injection Ho as ->.
      split; [discriminate |]. split; [| reflexivity].
      intros _. exists ".wav"%string. split; [reflexivity |].
      split; [repeat constructor | reflexivity].
    + apply bool_decide_eq_false_1 in Ho.
      rewrite orb_false_r, andb_true_r.
      destruct (starts_with "audio/" ct) eqn:Hs.
      * rewrite (starts_with_truthy "audio/" ct eq_refl Hs).
        cbn [negb orb]. split; [discriminate |]. split; [| reflexivity].
        intros _.
        destruct (in_str "webm" ct); [| destruct (in_str "mp4" ct);
          [| destruct (in_str "ogg" ct); [| destruct (in_str "m4a" ct)]]];
          eexists; (split; [reflexivity |]);
          (split; [repeat constructor | intros E; now apply Ho in E]).
      * rewrite orb_true_r. split; [reflexivity |].
        split; [discriminate | reflexivity].
  - unfold upload_suffix. cbn. split; [reflexivity |].
    split; [discriminate | reflexivity].
Qed.

End Upload.

Lemma upload_suffix_by_content_type_witness :
  App.upload_suffix
    {| App.content_type := Some "application/octet-stream"%string;
       App.filename := Some "clip.webm"%string |}
  = inr ".wav"%string.
Proof.
  destruct (proj1 (proj2 (upload_suffix_by_content_type
              {| App.content_type := Some "application/octet-stream"%string;
                 App.filename := Some "clip.webm"%string |})) eq_refl)
    as (suffix & Hs & _ & Hw).
  rewrite Hs. f_equal. now apply Hw.
Defined.

(** * Pauses and the direction of the score *)

Section Direction.

Import Reference.

(** The scan for ".." never falls behind the scan for "...": wherever an
    ellipsis is found, a pair of dots is found at the same place or was
    found one character earlier. *)
Lemma dots_dominate (s : string) (k2 k3 : nat) :
  (k2 <= 1)%nat ->
  (count_from "..." k3 s
   <= count_from ".." k2 s + (if (k2 <=? k3)%nat then 0 else 1))%nat.
Proof.
  revert k2 k3. induction s as [| c s IH]; intros k2 k3 Hk2.
  - cbn [count_from]. lia.
  - assert (Himp : starts_with "..." (String c s) = true ->
                   starts_with ".." (String c s) = true).
    { cbn [starts_with]. destruct (Ascii.eqb "." c); [| discriminate].
      destruct s as [| d s']; [discriminate |].
      destruct (Ascii.eqb "." d); [reflexivity | discriminate]. }
    cbn [count_from]. change (Nat.pred (String.length "...")) with 2%nat.
    change (Nat.pred (String.length "..")) with 1%nat.
    destruct k3 as [| k3'], k2 as [| k2'].
    + destruct (starts_with "..." (String c s)) eqn:E3.
      * rewrite (Himp eq_refl). pose proof (IH 1%nat 2%nat). cbn in *. lia.
      * destruct (starts_with ".." (String c s)).
        -- pose proof (IH 1%nat 0%nat). cbn in *. lia.
        -- pose proof (IH 0%nat 0%nat). cbn in *. lia.
    + assert (k2' = 0)%nat by lia. subst k2'.
      destruct (starts_with "..." (String c s)).
      * pose proof (IH 0%nat 2%nat). cbn in *. lia.
      * pose proof (IH 0%nat 0%nat). cbn in *. lia.
    + destruct (starts_with ".." (String c s)).
      * pose proof (IH 1%nat k3'). destruct (1 <=? k3')%nat; cbn in *; lia.
      * pose proof (IH 0%nat k3'). cbn in *. lia.
    + assert (k2' = 0)%nat by lia. subst k2'.
      pose proof (IH 0%nat k3'). cbn in *. lia.
Qed.

(** X22. The pause count is capped at 20, and below the cap every
    ellipsis counts at least twice (it is found as "..." and again as
    ".."), every comma once and every semicolon twice. *)
Theorem pause_count_lower_bound (transcript : string) :
  Z.min 20 (2 * Z.of_nat (count transcript "...")
            + Z.of_nat (count transcript ",")
            + 2 * Z.of_nat (count transcript ";"))
  <= _estimate_pause_count transcript <= 20.
Proof.
  unfold _estimate_pause_count, pause_indicators. cbn [foldl].
  rewrite !(count_lower transcript "...") by reflexivity.
  rewrite !(count_lower transcript "..") by reflexivity.
  pose proof (dots_dominate transcript 0 0 (Nat.le_0_l 1)) as Hd.
  cbn [Nat.leb] in Hd. fold (count transcript "...") in Hd.
  fold (count transcript "..") in Hd.
  lia.
Qed.

Ltac compare_points :=
  unfold points, matching, below, above, closed_open, open_closed;
  cbn [List.filter fst snd foldr];
  repeat match goal with
  | |- context [Qltb ?a ?b] =>
      let H := fresh "H" in destruct (Qltb_cases a b) as [[-> H] | [-> H]]
  | |- context [Qle_bool ?a ?b] =>
      let H := fresh "H" in destruct (Qle_bool_cases a b) as [[-> H] | [-> H]]
  end;
  cbn [List.filter fst snd foldr andb]; lra.

Lemma vocabulary_points_antimono (v v' : Q) :
  (v' <= v)%Q ->
  (points vocabulary_richness_bands v <= points vocabulary_richness_bands v')%Q.
Proof. intros H. unfold vocabulary_richness_bands. compare_points. Qed.

Lemma fluency_points_antimono (v v' : Q) :
  (v' <= v)%Q ->
  (points fluency_score_bands v <= points fluency_score_bands v')%Q.
Proof. intros H. unfold fluency_score_bands. compare_points. Qed.

Lemma represents_score (m : gmap string num) (f : FeatureVector) :
  represents m f -> _calculate_risk_score m = Ok (aggregate f).
Proof.
  intros (H1 & H2 & H3 & H4 & _ & _ & H7 & H8).
  apply holds_lookup in H1, H2, H3, H4, H7, H8.
  destruct H1 as (v1 & L1 & E1), H2 as (v2 & L2 & E2), H3 as (v3 & L3 & E3),
    H4 as (v4 & L4 & E4), H7 as (v6 & L6 & E6), H8 as (v5 & L5 & E5).
  now apply (risk_score_lookups m v1 v2 v3 v4 v5 v6).
Qed.

(** X23. At equal speech rate, worse metrics never give a lower risk
    score: the score does not decrease when the pause count, the
    word-finding difficulty or the repetition score grows, nor when the
    vocabulary richness or the fluency score drops. *)
Theorem risk_score_direction (m m' : gmap string num) (f f' : FeatureVector) :
  represents m f -> represents m' f' ->
  speech_rate f = speech_rate f' ->
  (pause_count f <= pause_count f')%Q ->
  (vocabulary_richness f' <= vocabulary_richness f)%Q ->
  (fluency_score f' <= fluency_score f)%Q ->
  (word_finding_difficulty f <= word_finding_difficulty f')%Q ->
  (repetition_score f <= repetition_score f')%Q ->
  exists r r',
    _calculate_risk_score m = Ok r
    /\ _calculate_risk_score m' = Ok r'
    /\ (r <= r')%Q.
Proof.
  intros Hm Hm' Hs Hp Hv Hf Hw Hr.
  exists (aggregate f), (aggregate f').
  split; [now apply represents_score |].
  split; [now apply represents_score |].
  unfold aggregate. apply py_round_mono, clamp_mono; [lra |].
  unfold total. rewrite Hs.
  pose proof (pause_points_mono _ _ Hp).
  pose proof (vocabulary_points_antimono _ _ Hv).
  pose proof (fluency_points_antimono _ _ Hf).
  lra.
Qed.

End Direction.

Lemma risk_score_direction_witness :
  exists r r',
    _calculate_risk_score calm_dict = Ok r
    /\ _calculate_risk_score troubled_metrics = Ok r'
    /\ (r <= r')%Q.
Proof.
  apply (risk_score_direction calm_dict troubled_metrics
           calm_features troubled_features);
    try (repeat split; reflexivity); discriminate.
Defined.
